(** * gwdetchar: the Omega scan driver and the scattering helpers

    A shallow embedding of [gwdetchar/omega/__main__.py] (the command-line
    driver [main]) and of [gwdetchar/scattering/core.py]
    ([get_fringe_frequency], [get_segments]).

    Conventions of the embedding.
    - Python floats (GPS times, durations, sample values) are rationals
      [Q] and their arithmetic is exact, except where a rounding decides
      the result: [numpy.around] rounds to doubles as IEEE arithmetic
      does.
    - The driver is a sequence of calls to external collaborators (data
      retrieval, the Q-transform, plotting, HTML templating, state flags).
      Every such call is recorded as an [Event] in a trace, in program
      order; what a collaborator returns is read from a [World] record.
    - Exceptions are explicit: a computation yields a trace and either a
      value or the exception that ended it. *)

From Stdlib Require Import List String Ascii Bool ZArith QArith Qround Qabs.
From Stdlib Require Import Lia Lqa Permutation Qpower Sorted.
Import ListNotations.

Local Open Scope string_scope.
Local Open Scope list_scope.

(* ===================================================================== *)
(** * Python values used by both programs *)
(* ===================================================================== *)

Module Py.

(** Truth value of a [str]: the empty string is false. *)
Definition str_truthy (s : string) : bool := negb (String.eqb s "").

(** Truth value of a value that is [None] or a [str]. *)
Definition opt_str_truthy (o : option string) : bool :=
  match o with
  | Some s => str_truthy s
  | None => false
  end.

(** Truth value of a list, and of a value that is [None] or a list. *)
Definition list_truthy {A : Type} (l : list A) : bool :=
  match l with
  | [] => false
  | _ :: _ => true
  end.

Definition opt_list_truthy {A : Type} (o : option (list A)) : bool :=
  match o with
  | Some l => list_truthy l
  | None => false
  end.

(** [a or b]: [a] when it is true, [b] otherwise. *)
Definition or_ {A : Type} (truthy : A -> bool) (a b : A) : A :=
  if truthy a then a else b.

(** [str(x)] for a value that is [None] or a [str], as [str.format] prints
    it. *)
Definition str_ (o : option string) : string :=
  match o with
  | Some s => s
  | None => "None"
  end.

(** [x in l] for a list of strings. *)
Definition in_ (x : string) (l : list string) : bool :=
  existsb (String.eqb x) l.

(** [l.index(x)]: the first position of [x], [None] where Python raises
    [ValueError]. *)
Fixpoint index (x : string) (l : list string) : option nat :=
  match l with
  | [] => None
  | y :: l' => if String.eqb y x then Some O
               else option_map S (index x l')
  end.

(** [set(a) <= set(b)]. *)
Definition subset (a b : list string) : bool :=
  forallb (fun x => in_ x b) a.

(** [numpy.rint]: the nearest integer, halves to the even neighbour. *)
Definition rint (x : Q) : Z :=
  let f := Qfloor x in
  match ((x - inject_Z f) ?= (1 # 2))%Q with
  | Lt => f
  | Gt => (f + 1)%Z
  | Eq => if Z.even f then f else (f + 1)%Z
  end.

(** The binary exponent of a number that is not zero: the [e] with
    [2^e <= |x| < 2^(e+1)]. *)
Definition exponent (x : Q) : Z :=
  let e := (Z.log2 (Z.abs (Qnum x)) - Z.log2 (Z.pos (Qden x)))%Z in
  if Qle_bool (2 ^ e)%Q (Qabs x) then e else (e - 1)%Z.

(** The double nearest to [x], halves to the even mantissa: what a
    float operation returns whose exact result is [x].  The mantissa has
    53 bits; the exponent is not bounded, so overflow and subnormal
    numbers are left out. *)
Definition float_ (x : Q) : Q :=
  if Qeq_bool x 0 then 0%Q
  else let ulp := (2 ^ (exponent x - 52))%Q in
       (inject_Z (rint (x / ulp)%Q) * ulp)%Q.

(** [numpy.around(x, decimals)] on a double, for [decimals >= 0]:
    [rint(x * 10**decimals) / 10**decimals], the product and the
    quotient each rounded to a double. *)
Definition around (x : Q) (decimals : nat) : Q :=
  let scale := inject_Z (10 ^ Z.of_nat decimals) in
  float_ (inject_Z (rint (float_ (x * scale)%Q)) / scale)%Q.

(** [str.lower] on ASCII letters. *)
Definition lower_ascii (c : ascii) : ascii :=
  let n := nat_of_ascii c in
  if (Nat.leb 65 n && Nat.leb n 90)%bool then ascii_of_nat (n + 32) else c.

Fixpoint lower (s : string) : string :=
  match s with
  | EmptyString => EmptyString
  | String c s' => String (lower_ascii c) (lower s')
  end.

(** [s.rjust(width)]: pad with blanks on the left. *)
Fixpoint blanks (n : nat) : string :=
  match n with
  | O => ""
  | S n' => String " " (blanks n')
  end.

Definition rjust (s : string) (width : nat) : string :=
  blanks (width - String.length s) ++ s.

End Py.

(* ===================================================================== *)
(** * gwdetchar/scattering/core.py *)
(* ===================================================================== *)

Module Scattering.

Local Open Scope Q_scope.

(** The exceptions the libraries raise in these helpers. *)
Inductive Exception : Type :=
| ValueError (msg : string)
| UnitConversionError (msg : string).

(** What a call comes to: a value, or the exception that ended it. *)
Inductive Result (A : Type) : Type :=
| Returns (a : A)
| Raises (e : Exception).

Arguments Returns {A} a.
Arguments Raises {A} e.

(** A [gwpy] [TimeSeries]: the samples and the metadata the helpers read.
    Sample [i] is taken at [t0 + i * dt] and holds until the next one.
    The unit [""] is the dimensionless unit. *)
Record TimeSeries : Type := mkTimeSeries {
  value : list Q;
  t0 : Q;
  dt : Q;
  name : option string;
  unit_ : string
}.

(** [series.sample_rate.value] *)
Definition sample_rate (s : TimeSeries) : Q := 1 / dt s.

(** [type(series)(array)]: a new series around an array, default metadata. *)
Definition of_array (a : list Q) : TimeSeries :=
  mkTimeSeries a 0 1 None "".

(** [new.__array_finalize__(series)]: take the metadata of [series]. *)
Definition array_finalize (new series : TimeSeries) : TimeSeries :=
  mkTimeSeries (value new) (t0 series) (dt series) (name series)
               (unit_ series).

(** [k * series] and [series * k], sample by sample. *)
Definition scalar_mul (k : Q) (s : TimeSeries) : TimeSeries :=
  mkTimeSeries (map (fun v => k * v) (value s)) (t0 s) (dt s) (name s)
               (unit_ s).

Definition mul_scalar (s : TimeSeries) (k : Q) : TimeSeries :=
  mkTimeSeries (map (fun v => v * k) (value s)) (t0 s) (dt s) (name s)
               (unit_ s).

(** [numpy.abs(series)] *)
Definition abs_ (s : TimeSeries) : TimeSeries :=
  mkTimeSeries (map Qabs (value s)) (t0 s) (dt s) (name s) (unit_ s).

(** [series.override_unit(u)] *)
Definition override_unit (s : TimeSeries) (u : string) : TimeSeries :=
  mkTimeSeries (value s) (t0 s) (dt s) (name s) u.

(** The default of the keyword argument [multiplier=2.0]. *)
Definition default_multiplier : Q := 2.

Section Fringe.

(** The samples [scipy.signal.savgol_filter] computes when it returns,
    an external routine. *)
Variable savgol : list Q -> nat -> nat -> nat -> list Q.

(** [scipy.signal.savgol_filter(x, window_length, polyorder, deriv=)] in
    its default mode ['interp'], which refuses an input shorter than the
    window. *)
Definition savgol_filter (x : list Q) (window_length polyorder deriv : nat)
  : Result (list Q) :=
  if Nat.ltb (List.length x) window_length then
    Raises (ValueError
              ("If mode is 'interp', window_length must be less than or "
               ++ "equal to the size of x."))
  else Returns (savgol x window_length polyorder deriv).

(** [get_fringe_frequency(series, multiplier=2.0)]; [None] stands for a
    call that leaves [multiplier] out.  The product is grouped as Python
    groups it: [((multiplier * 2. / 1.064) * velocity) * rate]. *)
Definition get_fringe_frequency (series : TimeSeries)
    (multiplier : option Q) : Result TimeSeries :=
  let multiplier :=
    match multiplier with
    | Some m => m
    | None => default_multiplier
    end in
  match savgol_filter (value series) 5 2 1 with
  | Raises e => Raises e
  | Returns filtered =>
      let velocity := array_finalize (of_array filtered) series in
      let fringef :=
        abs_ (mul_scalar (scalar_mul (multiplier * 2 / 1.064) velocity)
                         (sample_rate velocity)) in
      Returns (override_unit fringef "Hz")
  end.

End Fringe.









(** ** Segment lists, after [ligo.segments] *)










(** ** Flags *)





Section Segments.

(** The name gwpy gives the result of [series > threshold]:
    ["{series.name} > {threshold}"]. *)
Variable comparison_name : option string -> Q -> option string.

(** astropy's conversion of a unit to the dimensionless unit: the factor
    to multiply by, [None] for a unit that has a dimension. *)
Variable to_dimensionless : string -> option Q.




End Segments.




End Scattering.

(* ===================================================================== *)
(** * gwdetchar/omega/__main__.py *)
(* ===================================================================== *)

Module Omega.

Local Open Scope Q_scope.

(** ** The command line *)

(** The namespace [parser.parse_args] returns, as [create_parser] lays it
    out.  [gpstime] is [float(args.gpstime)] already, a double. *)
Record Args : Type := mkArgs {
  gpstime : Q;
  ifo : option string;
  output_directory : option string;
  config_file : option (list string);
  disable_correlation : bool;
  disable_checkpoint : bool;
  ignore_state_flags : bool;
  far_threshold : Q;
  frequency_scaling : string;
  colormap : string;
  nproc : nat
}.

(** The defaults [create_parser] gives the optional arguments; that of
    [--nproc] is [cli.add_nproc_option]'s. *)
Definition default_args (gps : Q) : Args :=
  mkArgs gps None None None false false false
         (3171 # 100000000000) "log" "viridis" 8.

(** ** The configuration *)

(** An [OmegaChannel]: the attributes the driver reads. *)
Record OmegaChannel : Type := mkOmegaChannel {
  name : string;
  section : string
}.

(** An [OmegaChannelList], one contextual block of the configuration. *)
Record Block : Type := mkBlock {
  key : string;
  block_name : string;
  flag : option string;
  duration : Q;
  fftlength : Q;
  frametype : string;
  source : string;
  resample : Q;
  search : Q;
  dt : Q;
  channels : list OmegaChannel
}.

(** The [primary] block: one channel and its processing options. *)
Record Primary : Type := mkPrimary {
  primary_channel : OmegaChannel;
  primary_duration : Q;
  primary_fftlength : Q;
  primary_frametype : string;
  primary_source : string;
  primary_length : Q;
  primary_resample : Q;
  primary_flow : Q
}.

(** What the parsed configuration files hold: the [primary] section, when
    there is one, and the channel blocks in file order.  [blocks] is the
    ordered mapping [cp.get_channel_blocks()] as its list of values. *)
Record Config : Type := mkConfig {
  primary_section : option Primary;
  blocks : list Block
}.

(** [blocks[section]]: the block stored under a key. *)
Definition getitem_block (bs : list Block) (k : string) : option Block :=
  find (fun b => String.eqb (key b) k) bs.

(** ** The checkpoint record *)

(** An [astropy] table: column names and rows of cells. *)
Record Table : Type := mkTable {
  colnames : list string;
  rows : list (list string)
}.

(** One row of a table, each cell under its column name. *)
Definition Row : Type := list (string * string).

(** [record[colname]]: the cells of one column, [None] where the table
    raises [KeyError]. *)
Definition column (t : Table) (c : string) : option (list string) :=
  match Py.index c (colnames t) with
  | Some i => Some (map (fun r => nth i r "") (rows t))
  | None => None
  end.

(** [record[i]]: one row, [None] where the table raises [IndexError]. *)
Definition getitem_row (t : Table) (i : nat) : option Row :=
  option_map (fun r => combine (colnames t) r) (nth_error (rows t) i).

(** ** Exceptions, and computations that log events *)

Inductive Exc : Type :=
| ValueError (msg : string)
| KeyError (arg : string)
| IndexError (msg : string)
| AttributeError (msg : string)
| UnboundLocalError (var : string)
| OtherError (msg : string).

Inductive Outcome (A : Type) : Type :=
| Returned (a : A)
| Raised (e : Exc).

Arguments Returned {A} a.
Arguments Raised {A} e.

(** [except (ValueError, KeyError)] *)
Definition is_value_or_key_error (e : Exc) : bool :=
  match e with
  | ValueError _ | KeyError _ => true
  | _ => false
  end.

(** [type(exc)] and [str(exc)] as [str.format] prints them. *)
Definition exc_type_str (e : Exc) : string :=
  match e with
  | ValueError _ => "<class 'ValueError'>"
  | KeyError _ => "<class 'KeyError'>"
  | IndexError _ => "<class 'IndexError'>"
  | AttributeError _ => "<class 'AttributeError'>"
  | UnboundLocalError _ => "<class 'UnboundLocalError'>"
  | OtherError _ => "<class 'Exception'>"
  end.

Definition exc_str (e : Exc) : string :=
  match e with
  | KeyError k => "'" ++ k ++ "'"
  | ValueError m | IndexError m | AttributeError m | OtherError m => m
  | UnboundLocalError v =>
      "local variable '" ++ v ++ "' referenced before assignment"
  end.

(** The message of the [KeyError] the driver raises itself. *)
Definition no_correlation_msg : string :=
  "Cross-correlation is not available from this record, " ++
  "consider running without correlation or starting from " ++
  "scratch with --disable-checkpoint".

(** ** The external collaborators *)

(** [get_data] takes one channel name and returns a series, or a list of
    names and returns a dictionary of series. *)
Inductive ChannelArg : Type :=
| Single (name : string)
| Batch (names : list string).

(** Everything the driver asks of the outside: the file system, the
    configuration parser, data retrieval, the state-flag database and the
    transform library. *)
Record World : Type := mkWorld {
  Series : Type;
  Products : Type;
  Tiles : Type;
  Correlation : Type;
  (** how [str.format] prints a float *)
  float_str : Q -> string;
  (** [os.path.abspath], [os.path.expanduser], from the starting
      directory *)
  abspath : string -> string;
  expanduser : string -> string;
  (** [os.path.isdir] and [os.path.exists] of a path, seen from a
      working directory *)
  isdir : string -> string -> bool;
  path_exists : string -> string -> bool;
  (** [config.get_default_configuration(ifo, gps)] *)
  get_default_configuration : option string -> Q -> list string;
  (** [OmegaConfigParser(ifo=ifo)] after [read(files)] *)
  read_config : option string -> list string -> Config;
  (** [Table.read(path)], seen from a working directory *)
  table_read : string -> string -> Table;
  (** [get_data(name, start, end, frametype=, source=, nproc=)] *)
  get_series : string -> Q -> Q -> string -> string -> nat -> Series;
  (** [get_data(names, start, end, frametype=, source=, nproc=)] *)
  get_dict :
    list string -> Q -> Q -> string -> string -> nat ->
    list (string * Series);
  (** [series.astype('float64')] *)
  astype_float64 : Series -> Series;
  (** [check_flag(flag, gps, duration, pad=)] *)
  check_flag : string -> Q -> Q -> Q -> bool;
  (** [omega.primary(gps, length, data, fftlength, resample=, f_low=)] *)
  omega_primary : Q -> Q -> Series -> Q -> Q -> Q -> Series;
  (** [omega.scan(gps, channel, data, fftlength, resample=, fthresh=,
      search=, logf=)]: the scan products, [None], or an exception *)
  omega_scan :
    Q -> OmegaChannel -> Series -> Q -> Q -> Q -> Q -> bool ->
    Outcome (option Products);
  (** [series[2]] and [series[3]] of the scan products *)
  item2 : Products -> Series;
  item3 : Products -> Tiles;
  (** [omega.cross_correlate(whitened, matched_filter)] *)
  cross_correlate : Series -> Series -> Correlation
}.

Section Driver.

Variable W : World.

(** ** The table of contents *)

(** What [load_loudest_tile_features] and [save_loudest_tile_features]
    leave on a channel object. *)
Inductive Features : Type :=
| Loaded (row : Row) (correlated : bool)
| Saved (tiles : Tiles W) (correlation : option (Correlation W * Q * Q)).

(** A channel with its features, as the table of contents holds it. *)
Record Analyzed : Type := mkAnalyzed {
  channel : OmegaChannel;
  features : Features
}.

(** One section of the table of contents. *)
Record TocSection : Type := mkTocSection {
  toc_name : string;
  toc_channels : list Analyzed
}.

(** The dictionary [analyzed], in insertion order. *)
Definition Toc : Type := list (string * TocSection).

(** Modelled from the spec: [html.update_toc(toc, channel, name=)] is not
    among the source files.  It adds the channel to the table of contents:
    to the entry of the channel's section when there is one, otherwise to
    a new entry under [name], placed last. *)
Fixpoint update_toc (toc : Toc) (c : Analyzed) (nm : string) : Toc :=
  match toc with
  | [] => [(section (channel c), mkTocSection nm [c])]
  | (k, e) :: rest =>
      if String.eqb k (section (channel c))
      then (k, mkTocSection (toc_name e) (toc_channels e ++ [c])) :: rest
      else (k, e) :: update_toc rest c nm
  end.

(** All channels of a table of contents, section by section. *)
Definition listed (toc : Toc) : list Analyzed :=
  flat_map (fun e => toc_channels (snd e)) toc.

(** The keyword arguments [htmlv] of the report page. *)
Record HtmlVars : Type := mkHtmlVars {
  title : string;
  config : list string;
  refresh : bool;
  toc : option Toc;
  correlated : option bool;
  primary : option string
}.

Definition set_toc (h : HtmlVars) (t : Toc) : HtmlVars :=
  mkHtmlVars (title h) (config h) (refresh h) (Some t) (correlated h)
             (primary h).

Definition set_refresh (h : HtmlVars) (r : bool) : HtmlVars :=
  mkHtmlVars (title h) (config h) r (toc h) (correlated h) (primary h).

Definition set_correlated (h : HtmlVars) (nm : string) : HtmlVars :=
  mkHtmlVars (title h) (config h) (refresh h) (toc h) (Some true) (Some nm).

(** ** Events *)

Inductive Level : Type := Info | Warning.

(** The calls the driver makes to the outside, in program order.
    [LOGGER.debug] lines are left out. *)
Inductive Event : Type :=
| ELog (level : Level) (msg : string)
| EWarn (msg : string)
| EReadConfig (ifo : option string) (files : list string)
| EMakedirs (cwd path : string)
| EChdir (path : string)
| ETableRead (cwd path : string)
| EGetData (chans : ChannelArg) (start stop : Q) (frametype source : string)
           (nproc : nat) (verbose : string)
| EOmegaPrimary (gps length fftlength resample flow : Q)
| ETimeseriesPlot (gps length : Q) (name path ylabel : string)
| ECheckFlag (flag : string) (gps duration pad : Q)
| EScan (gps : Q) (chan : OmegaChannel) (fftlength resample fthresh search : Q)
        (logf : bool)
| EWriteQscanPlots (gps : Q) (chan : OmegaChannel) (fscale colormap : string)
| ECrossCorrelate (chan : OmegaChannel)
| EWriteQscanPage (ifo : option string) (gps : Q) (toc : Toc) (htmlv : HtmlVars)
| EWriteNullPage (ifo : option string) (gps : Q) (reason context : string).

(** A computation: the events it made and how it ended. *)
Definition M (A : Type) : Type := (list Event * Outcome A)%type.

Definition ret {A : Type} (a : A) : M A := ([], Returned a).

Definition bind {A B : Type} (m : M A) (f : A -> M B) : M B :=
  match m with
  | (t, Returned a) => let (t', o) := f a in (t ++ t', o)
  | (t, Raised e) => (t, Raised e)
  end.

Definition emit (e : Event) : M unit := ([e], Returned tt).

Definition raise {A : Type} (e : Exc) : M A := ([], Raised e).

(** [try: m  except <caught>: handler] *)
Definition try_except {A : Type} (m : M A) (caught : Exc -> bool)
    (handler : Exc -> M A) : M A :=
  match m with
  | (t, Returned a) => (t, Returned a)
  | (t, Raised e) =>
      if caught e then let (t', o) := handler e in (t ++ t', o)
      else (t, Raised e)
  end.

(** A value that must be there, or the exception Python raises. *)
Definition expect {A : Type} (o : option A) (e : Exc) : M A :=
  match o with
  | Some a => ret a
  | None => raise e
  end.

Definition trace {A : Type} (m : M A) : list Event := fst m.
Definition outcome {A : Type} (m : M A) : Outcome A := snd m.

Notation "x <- m ;; k" := (bind m (fun x => k))
  (at level 61, m at next level, right associativity).
Notation "m ;;; k" := (bind m (fun _ => k))
  (at level 61, right associativity).

(** ** The driver, [main] *)

(** The loop's variables that change from channel to channel: the table
    of contents [analyzed], the page variables [htmlv], and [data], which
    is unbound until a block has been read. *)
Record LoopState : Type := mkLoopState {
  analyzed : Toc;
  htmlv : HtmlVars;
  data : option (list (string * Series W))
}.

(** What the set-up leaves for the loop over the blocks. *)
Record Context : Type := mkContext {
  ctx_args : Args;
  ctx_ifo : option string;
  ctx_gps : Q;
  ctx_blocks : list Block;
  ctx_record : Table;
  ctx_completed : list string;
  (** the matched filter [correlate], [None] without cross-correlation *)
  ctx_correlate : option (Series W)
}.

(** Line 150: [ifo = 'Network' or args.ifo]. *)
Definition get_ifo (args : Args) : option string :=
  Py.or_ Py.opt_str_truthy (Some "Network") (ifo args).

(** Line 151: [gps = numpy.around(float(args.gpstime), 2)]. *)
Definition get_gps (args : Args) : Q := Py.around (gpstime args) 2.

(** Lines 155-158: the configuration files, the standard ones when none
    is given. *)
Definition get_config_files (args : Args) : list string :=
  let ifo := get_ifo args in
  let gps := get_gps args in
  map (abspath W)
      (match config_file args with
       | Some fs => if Py.list_truthy fs then fs
                    else get_default_configuration W ifo gps
       | None => get_default_configuration W ifo gps
       end).

(** Lines 196-201: the output directory. *)
Definition get_outdir (args : Args) : string :=
  let ifo := get_ifo args in
  let gps := get_gps args in
  abspath W
    (match output_directory args with
     | Some d => if Py.str_truthy d then d
                 else expanduser W ("~/public_html/wdq/" ++ Py.str_ ifo
                                    ++ "_" ++ float_str W gps)
     | None => expanduser W ("~/public_html/wdq/" ++ Py.str_ ifo
                             ++ "_" ++ float_str W gps)
     end).

(** [args.disable_correlation = value] *)
Definition set_disable_correlation (args : Args) (value : bool) : Args :=
  mkArgs (gpstime args) (ifo args) (output_directory args)
         (config_file args) value (disable_checkpoint args)
         (ignore_state_flags args) (far_threshold args)
         (frequency_scaling args) (colormap args) (nproc args).

(** Lines 167-176: the primary channel.  Returns [args], whose
    [disable_correlation] line 175 may have set, and [primary], unbound
    ([None]) when no primary was parsed. *)
Definition parse_primary (args : Args) (cp : Config)
  : M (Args * option Primary) :=
  if negb (disable_correlation args) then
    match primary_section cp with
    | Some p => ret (args, Some p)
    | None =>
        emit (ELog Warning
                ("No primary configured, continuing " ++
                 "without cross-correlation")) ;;;
        ret (set_disable_correlation args true, None)
    end
  else ret (args, None).

(** Lines 209-215: the subdirectories. *)
Fixpoint make_subdirectories (cwd : string) (ds : list string) : M unit :=
  match ds with
  | [] => ret tt
  | d :: ds' =>
      (if negb (isdir W cwd d) then emit (EMakedirs cwd d) else ret tt) ;;;
      make_subdirectories cwd ds'
  end.

(** [os.path.join(datadir, 'summary.csv')] *)
Definition summary_path : string := "data/summary.csv".

(** Lines 217-232: the checkpoint.  Returns [record] and [completed]. *)
Definition determine_checkpoints (args : Args) (outdir : string)
  : M (Table * list string) :=
  if (path_exists W outdir summary_path &&
      negb (disable_checkpoint args))%bool then
    emit (ETableRead outdir summary_path) ;;;
    let record := table_read W outdir summary_path in
    completed <- expect (column record "Channel") (KeyError "Channel") ;;
    if (negb (disable_correlation args) &&
        negb (Py.in_ "Standard Deviation" (colnames record)))%bool
    then raise (KeyError no_correlation_msg)
    else ret (record, completed)
  else ret (mkTable [] [], []).

(** Lines 241-263: the matched filter from the primary channel.  Returns
    [correlate] and the page variables. *)
Definition process_primary (args : Args) (gps : Q)
    (primary : option Primary) (h : HtmlVars)
  : M (option (Series W) * HtmlVars) :=
  if negb (disable_correlation args) then
    p <- expect primary (UnboundLocalError "primary") ;;
    let duration := primary_duration p in
    let fftlength := primary_fftlength p in
    let nm := name (primary_channel p) in
    let start := gps - duration / 2 - 1 in
    let stop := gps + duration / 2 + 1 in
    emit (EGetData (Single nm) start stop (primary_frametype p)
                   (primary_source p) (nproc args)
                   (Py.rjust "Reading primary:" 30)) ;;;
    let raw := get_series W nm start stop (primary_frametype p)
                          (primary_source p) (nproc args) in
    emit (EOmegaPrimary gps (primary_length p) fftlength
                        (primary_resample p) (primary_flow p)) ;;;
    let correlate := omega_primary W gps (primary_length p) raw fftlength
                                   (primary_resample p) (primary_flow p) in
    emit (ETimeseriesPlot gps (primary_length p) nm "plots/primary.png"
                          "Whitened Amplitude") ;;;
    ret (Some correlate, set_correlated h nm)
  else ret (None, h).

(** Lines 296-299 and 334-337: the channel enters the table of contents
    and the page is written again. *)
Definition report_channel (ctx : Context) (st : LoopState) (c : Analyzed)
  : M LoopState :=
  b <- expect (getitem_block (ctx_blocks ctx) (section (channel c)))
              (KeyError (section (channel c))) ;;
  let analyzed' := update_toc (analyzed st) c (block_name b) in
  let htmlv' := set_toc (htmlv st) analyzed' in
  emit (EWriteQscanPage (ctx_ifo ctx) (ctx_gps ctx) analyzed' htmlv') ;;;
  ret (mkLoopState analyzed' htmlv' (data st)).

(** Lines 304-308: the call to [omega.scan] with its arguments. *)
Definition scan_channel (ctx : Context) (block : Block) (st : LoopState)
    (c : OmegaChannel) : M (option (Products W)) :=
  d <- expect (data st) (UnboundLocalError "data") ;;
  s <- expect (option_map snd
                 (find (fun kv => String.eqb (fst kv) (name c)) d))
              (KeyError (name c)) ;;
  let logf := String.eqb (frequency_scaling (ctx_args ctx)) "log" in
  emit (EScan (ctx_gps ctx) c (fftlength block) (resample block)
              (far_threshold (ctx_args ctx)) (search block) logf) ;;;
  match omega_scan W (ctx_gps ctx) c (astype_float64 W s) (fftlength block)
                   (resample block) (far_threshold (ctx_args ctx))
                   (search block) logf with
  | Returned r => ret r
  | Raised e => raise e
  end.

(** Lines 289-337: one channel of a block.  [None] from the scan stage
    stands for [continue]. *)
Definition process_channel (ctx : Context) (block : Block) (st : LoopState)
    (c : OmegaChannel) : M LoopState :=
  if Py.in_ (name c) (ctx_completed ctx) then
    emit (ELog Info (" -- Checkpointing " ++ name c ++
                     " from a previous run")) ;;;
    cindex <- expect (Py.index (name c) (ctx_completed ctx))
                     (ValueError (name c ++ " is not in list")) ;;
    row <- expect (getitem_row (ctx_record ctx) cindex)
                  (IndexError "index out of range") ;;
    let loaded :=
      mkAnalyzed c (Loaded row (match ctx_correlate ctx with
                                | Some _ => true
                                | None => false
                                end)) in
    report_channel ctx st loaded
  else
    scanned <-
      try_except
        (emit (ELog Info (" -- Scanning channel " ++ name c)) ;;;
         series <- scan_channel ctx block st c ;;
         ret (Some series))
        is_value_or_key_error
        (fun exc =>
           emit (EWarn ("Skipping " ++ name c ++ ": [" ++ exc_type_str exc
                        ++ "] " ++ exc_str exc)) ;;;
           ret None) ;;
    match scanned with
    | None => ret st
    | Some None =>
        emit (ELog Warning
                (" -- Channel not significant at white noise false alarm "
                 ++ "rate " ++ float_str W (far_threshold (ctx_args ctx))
                 ++ " Hz")) ;;;
        ret st
    | Some (Some series) =>
        emit (ELog Info (" -- Plotting omega scan products for " ++ name c))
        ;;;
        emit (EWriteQscanPlots (ctx_gps ctx) c
                (frequency_scaling (ctx_args ctx))
                (colormap (ctx_args ctx))) ;;;
        saved <-
          match ctx_correlate ctx with
          | Some correlate =>
              emit (ELog Info (" -- Cross-correlating " ++ name c)) ;;;
              emit (ECrossCorrelate c) ;;;
              let correlation :=
                cross_correlate W (item2 W series) correlate in
              ret (mkAnalyzed c
                     (Saved (item3 W series)
                            (Some (correlation, ctx_gps ctx, dt block))))
          | None => ret (mkAnalyzed c (Saved (item3 W series) None))
          end ;;
        report_channel ctx st saved
    end.

(** Line 289: [for channel in block.channels]. *)
Fixpoint process_channels (ctx : Context) (block : Block) (st : LoopState)
    (cs : list OmegaChannel) : M LoopState :=
  match cs with
  | [] => ret st
  | c :: cs' =>
      st' <- process_channel ctx block st c ;;
      process_channels ctx block st' cs'
  end.

(** Lines 272-278: the block's state flag is defined, state flags are not
    ignored, and the flag has to be asked for. *)
Definition flag_checked (args : Args) (block : Block) : bool :=
  (Py.opt_str_truthy (flag block) && negb (ignore_state_flags args))%bool.

(** The block is skipped: its flag is asked for and is not active over
    the padded window. *)
Definition skipped (args : Args) (gps : Q) (block : Block) : bool :=
  (flag_checked args block &&
   negb (check_flag W (Py.str_ (flag block)) gps (duration block) 1))%bool.

(** Lines 279-286: the block's data, read unless every channel is
    completed. *)
Definition read_block (ctx : Context) (block : Block) (st : LoopState)
  : M LoopState :=
  let chans := map name (channels block) in
  if negb (Py.subset chans (ctx_completed ctx)) then
    let start := ctx_gps ctx - duration block / 2 - 1 in
    let stop := ctx_gps ctx + duration block / 2 + 1 in
    emit (EGetData (Batch chans) start stop (frametype block) (source block)
                   (nproc (ctx_args ctx)) (Py.rjust "Reading block:" 30)) ;;;
    ret (mkLoopState (analyzed st) (htmlv st)
           (Some (get_dict W chans start stop (frametype block)
                           (source block) (nproc (ctx_args ctx)))))
  else ret st.

(** Lines 267-337: one block. *)
Definition process_block (ctx : Context) (st : LoopState) (block : Block)
  : M LoopState :=
  let args := ctx_args ctx in
  let gps := ctx_gps ctx in
  (if flag_checked args block then
     emit (ELog Info (" -- Querying state flag " ++ Py.str_ (flag block)))
     ;;;
     emit (ECheckFlag (Py.str_ (flag block)) gps (duration block) 1)
   else ret tt) ;;;
  if skipped args gps block then
    emit (ELog Info (" -- " ++ Py.str_ (flag block)
                     ++ " not active, skipping block")) ;;;
    ret st
  else
    st' <- read_block ctx block st ;;
    process_channels ctx block st' (channels block).

(** Line 266: [for block in blocks.values()]. *)
Fixpoint process_blocks (ctx : Context) (st : LoopState) (bs : list Block)
  : M LoopState :=
  match bs with
  | [] => ret st
  | b :: bs' =>
      st' <- process_block ctx st b ;;
      process_blocks ctx st' bs'
  end.

(** Lines 339-350: the last page. *)
Definition finalize (ctx : Context) (st : LoopState) : M unit :=
  let h := set_refresh (htmlv st) false in
  (if Py.list_truthy (analyzed st) then
     emit (EWriteQscanPage (ctx_ifo ctx) (ctx_gps ctx) (analyzed st) h)
   else
     i <- expect (ctx_ifo ctx)
                 (AttributeError
                    "'NoneType' object has no attribute 'lower'") ;;
     emit (EWriteNullPage (ctx_ifo ctx) (ctx_gps ctx)
             ("No significant channels found " ++
              "during active analysis segments")
             (Py.lower i))) ;;;
  emit (ELog Info "-- index.html written, all done --").

(** What lines 149-232 leave behind: the values the rest of [main]
    reads. *)
Record Setup : Type := mkSetup {
  (** [args], as line 175 may have changed it *)
  su_args : Args;
  su_ifo : option string;
  su_gps : Q;
  su_blocks : list Block;
  (** [primary], unbound ([None]) when no primary was parsed *)
  su_primary : option Primary;
  su_htmlv : HtmlVars;
  su_record : Table;
  su_completed : list string
}.

(** Lines 149-232: everything before the first page is written. *)
Definition set_up (args : Args) : M Setup :=
  let ifo := get_ifo args in
  let gps := get_gps args in
  emit (ELog Info (Py.str_ ifo ++ " Omega Scan " ++ float_str W gps)) ;;;
  let files := get_config_files args in
  emit (EReadConfig ifo files) ;;;
  let cp := read_config W ifo files in
  pr <- parse_primary args cp ;;
  let h := mkHtmlVars (Py.str_ ifo ++ " Qscan | " ++ float_str W gps)
                      files true None None None in
  let outdir := get_outdir args in
  (if negb (isdir W "" outdir) then emit (EMakedirs "" outdir)
   else ret tt) ;;;
  emit (EChdir outdir) ;;;
  make_subdirectories outdir ["plots"; "about"; "data"] ;;;
  ck <- determine_checkpoints (fst pr) outdir ;;
  ret (mkSetup (fst pr) ifo gps (blocks cp) (snd pr) h (fst ck) (snd ck)).

(** The context of the loop over the blocks. *)
Definition context (s : Setup) (correlate : option (Series W)) : Context :=
  mkContext (su_args s) (su_ifo s) (su_gps s) (su_blocks s) (su_record s)
            (su_completed s) correlate.

(** Lines 234-350: the first page, the matched filter, the blocks and the
    last page. *)
Definition launch (s : Setup) : M unit :=
  emit (EWriteQscanPage (su_ifo s) (su_gps s) [] (su_htmlv s)) ;;;
  emit (ELog Info "Launching omega scans") ;;;
  ch <- process_primary (su_args s) (su_gps s) (su_primary s)
                        (su_htmlv s) ;;
  let ctx := context s (fst ch) in
  st <- process_blocks ctx (mkLoopState [] (snd ch) None) (su_blocks s) ;;
  finalize ctx st.

(** [main(args)] after the command line has been parsed. *)
Definition main (args : Args) : M unit :=
  s <- set_up args ;;
  launch s.

End Driver.

Arguments Loaded {W} row correlated.
Arguments Saved {W} tiles correlation.
Arguments mkAnalyzed {W} channel features.
Arguments channel {W} a.
Arguments features {W} a.
Arguments mkTocSection {W} toc_name toc_channels.
Arguments toc_name {W} t.
Arguments toc_channels {W} t.
Arguments update_toc {W} toc c nm.
Arguments listed {W} toc.
Arguments mkHtmlVars {W} title config refresh toc correlated primary.
Arguments title {W} h.
Arguments config {W} h.
Arguments refresh {W} h.
Arguments toc {W} h.
Arguments correlated {W} h.
Arguments primary {W} h.
Arguments set_toc {W} h t.
Arguments set_refresh {W} h r.
Arguments set_correlated {W} h nm.
Arguments ELog {W} level msg.
Arguments EWarn {W} msg.
Arguments EReadConfig {W} ifo files.
Arguments EMakedirs {W} cwd path.
Arguments EChdir {W} path.
Arguments ETableRead {W} cwd path.
Arguments EGetData {W} chans start stop frametype source nproc verbose.
Arguments EOmegaPrimary {W} gps length fftlength resample flow.
Arguments ETimeseriesPlot {W} gps length name path ylabel.
Arguments ECheckFlag {W} flag gps duration pad.
Arguments EScan {W} gps chan fftlength resample fthresh search logf.
Arguments EWriteQscanPlots {W} gps chan fscale colormap.
Arguments ECrossCorrelate {W} chan.
Arguments EWriteQscanPage {W} ifo gps toc htmlv.
Arguments EWriteNullPage {W} ifo gps reason context.
Arguments ret {W A} a.
Arguments bind {W A B} m f.
Arguments emit {W} e.
Arguments raise {W A} e.
Arguments try_except {W A} m caught handler.
Arguments expect {W A} o e.
Arguments trace {W A} m.
Arguments outcome {W A} m.
Arguments mkLoopState {W} analyzed htmlv data.
Arguments analyzed {W} l.
Arguments htmlv {W} l.
Arguments data {W} l.
Arguments mkContext {W} ctx_args ctx_ifo ctx_gps ctx_blocks ctx_record
  ctx_completed ctx_correlate.
Arguments ctx_args {W} c.
Arguments ctx_ifo {W} c.
Arguments ctx_gps {W} c.
Arguments ctx_blocks {W} c.
Arguments ctx_record {W} c.
Arguments ctx_completed {W} c.
Arguments ctx_correlate {W} c.
Arguments mkSetup {W} su_args su_ifo su_gps su_blocks su_primary su_htmlv
  su_record su_completed.
Arguments su_args {W} s.
Arguments su_ifo {W} s.
Arguments su_gps {W} s.
Arguments su_blocks {W} s.
Arguments su_primary {W} s.
Arguments su_htmlv {W} s.
Arguments su_record {W} s.
Arguments su_completed {W} s.

End Omega.

(* ===================================================================== *)
(** * A small world to run the driver in *)
(* ===================================================================== *)

Module Demo.

Import Omega.

Local Open Scope Q_scope.

(** A world whose data are labels: a series is named after its channel,
    directories exist, and the configuration, the checkpoint file, the
    state flags and the result of each channel's scan are given. *)
Definition world (cfg : Config) (summary : option Table)
    (flag_active : string -> bool)
    (scan : string -> Outcome (option string)) : World :=
  mkWorld string string string string
    (fun _ => "t")
    (fun p => p)
    (fun p => p)
    (fun _ _ => true)
    (fun _ _ => match summary with Some _ => true | None => false end)
    (fun _ _ => ["default.ini"])
    (fun _ _ => cfg)
    (fun _ _ => match summary with Some t => t | None => mkTable [] [] end)
    (fun nm _ _ _ _ _ => nm)
    (fun nms _ _ _ _ _ => map (fun n => (n, n)) nms)
    (fun s => s)
    (fun f _ _ _ => flag_active f)
    (fun _ _ raw _ _ _ => ("filter:" ++ raw)%string)
    (fun _ c _ _ _ _ _ _ => scan (name c))
    (fun p => ("whitened:" ++ p)%string)
    (fun p => ("tiles:" ++ p)%string)
    (fun a b => (a ++ "*" ++ b)%string).

Definition chan_a : OmegaChannel := mkOmegaChannel "X1:A" "AUX".
Definition chan_b : OmegaChannel := mkOmegaChannel "X1:B" "AUX".
Definition chan_c : OmegaChannel := mkOmegaChannel "X1:C" "PEM".

(** A block of two channels without a state flag, 64 s long. *)
Definition block_aux : Block :=
  mkBlock "AUX" "Auxiliary" None 64 2 "X1_R" "" 4096 (1 # 2) (1 # 10)
          [chan_a; chan_b].

(** A block of one channel behind a state flag, 8 s long. *)
Definition block_pem : Block :=
  mkBlock "PEM" "Environment" (Some "X1:LOCKED") 8 1 "X1_R" "" 256 (1 # 2)
          (1 # 10) [chan_c].

Definition primary_gw : Primary :=
  mkPrimary (mkOmegaChannel "X1:GW" "primary") 64 2 "X1_HOFT" "" 2 4096 4.

Definition cfg_full : Config := mkConfig (Some primary_gw) [block_aux; block_pem].
Definition cfg_no_primary : Config := mkConfig None [block_aux; block_pem].

(** A checkpoint that lists channel [X1:A] and [X1:C], with and without
    the column cross-correlation needs. *)
Definition summary_full : Table :=
  mkTable ["Channel"; "Energy"; "Standard Deviation"]
          [["X1:A"; "12"; "3"]; ["X1:C"; "7"; "1"]].

Definition summary_old : Table :=
  mkTable ["Channel"; "Energy"] [["X1:A"; "12"]; ["X1:C"; "7"]].

(** Every scan finds a significant signal. *)
Definition scan_all (nm : string) : Outcome (option string) :=
  Returned (Some nm).

(** [X1:A] fails with [ValueError], [X1:B] is not significant. *)
Definition scan_none (nm : string) : Outcome (option string) :=
  if String.eqb nm "X1:A" then Raised (ValueError "too short")
  else Returned None.

(** The defaults at the double of 1126259462.391. *)
Definition args0 : Args := default_args (4723874568144421 # 4194304).

(** A configuration with the flagged block only, and no primary. *)
Definition cfg_pem : Config := mkConfig None [block_pem].

(** The full configuration with a complete checkpoint; the flag is
    active. *)
Definition world_resume : World :=
  world cfg_full (Some summary_full) (fun _ => true) scan_all.

(** The full configuration with an old checkpoint. *)
Definition world_old : World :=
  world cfg_full (Some summary_old) (fun _ => true) scan_all.

(** The flagged block alone, its flag not active, with a checkpoint that
    lists its channel. *)
Definition world_inactive : World :=
  world cfg_pem (Some summary_full) (fun _ => false) scan_all.

(** The flagged block alone, its flag not active, without a checkpoint. *)
Definition world_fresh_inactive : World :=
  world cfg_pem None (fun _ => false) scan_all.

(** No primary, no checkpoint, and scans that fail or find nothing. *)
Definition world_quiet : World :=
  world cfg_no_primary None (fun _ => true) scan_none.

(** The loop's context and variables in [world_quiet] after the first
    block has been read. *)
Definition ctx_quiet : Context world_quiet :=
  mkContext args0 (Some "Network"%string) (get_gps args0)
            [block_aux; block_pem] (mkTable [] []) [] None.

Definition data_quiet : list (string * Series world_quiet) :=
  [("X1:A"%string, "X1:A"%string); ("X1:B"%string, "X1:B"%string)].

Definition st_quiet : LoopState world_quiet :=
  mkLoopState [] (mkHtmlVars "t"%string [] true None None None)
              (Some data_quiet).

(** The loop's context in [world_inactive]. *)
Definition ctx_inactive : Context world_inactive :=
  mkContext args0 (Some "Network"%string) (get_gps args0) [block_pem]
            summary_full ["X1:A"%string; "X1:C"%string] None.

Definition st_inactive : LoopState world_inactive :=
  mkLoopState [] (mkHtmlVars "t"%string [] true None None None) None.

End Demo.

(* ===================================================================== *)
(** * What the claims speak of: events, pages, channels handled *)
(* ===================================================================== *)

Module OmegaSpec.

Import Omega.

Local Open Scope Q_scope.



(** The event is not a data request. *)
Definition no_fetch {W : World} (e : Event W) : Prop :=
  match e with
  | EGetData _ _ _ _ _ _ _ => False
  | _ => True
  end.

(** The configuration [main] reads. *)
Definition config_of (W : World) (args : Args) : Config :=
  read_config W (get_ifo args) (get_config_files W args).

(** What lines 167-176 leave in [args] and [primary]. *)
Definition primary_result (args : Args) (cp : Config)
  : Args * option Primary :=
  if negb (disable_correlation args) then
    match primary_section cp with
    | Some p => (args, Some p)
    | None => (set_disable_correlation args true, None)
    end
  else (args, None).

(** Cross-correlation is enabled when the checkpoint is looked at:
    [args.disable_correlation] is false after lines 167-176. *)
Definition correlation_enabled (W : World) (args : Args) : bool :=
  negb (disable_correlation (fst (primary_result args (config_of W args)))).

(** The page variables before the loop. *)
Definition initial_htmlv (W : World) (args : Args) : HtmlVars W :=
  mkHtmlVars (Py.str_ (get_ifo args) ++ " Qscan | "
              ++ float_str W (get_gps args))
             (get_config_files W args) true None None None.


(** The event only prepares the run: it logs, reads the configuration or
    the checkpoint, makes a directory or enters one.  It scans nothing
    and writes no page, plot or record. *)
Definition prepares {W : World} (e : Event W) : Prop :=
  match e with
  | ELog _ _ | EReadConfig _ _ | EMakedirs _ _ | EChdir _
  | ETableRead _ _ => True
  | _ => False
  end.

(** What the call of [omega.scan] for a channel comes to, given the value
    of [data]: the scan products, [None], or an exception. *)
Definition scan_outcome {W : World} (ctx : Context W) (b : Block)
    (d : option (list (string * Series W))) (c : OmegaChannel)
  : Outcome (option (Products W)) :=
  match d with
  | None => Raised (UnboundLocalError "data")
  | Some d =>
      match find (fun kv => String.eqb (fst kv) (name c)) d with
      | None => Raised (KeyError (name c))
      | Some kv =>
          omega_scan W (ctx_gps ctx) c (astype_float64 W (snd kv))
                     (fftlength b) (resample b)
                     (far_threshold (ctx_args ctx)) (search b)
                     (String.eqb (frequency_scaling (ctx_args ctx)) "log")
      end
  end.

(** The channel as restored from row [row] of the checkpoint. *)
Definition loaded_channel {W : World} (ctx : Context W) (c : OmegaChannel)
    (row : Row) : Analyzed W :=
  mkAnalyzed c (Loaded row (match ctx_correlate ctx with
                            | Some _ => true
                            | None => false
                            end)).

(** The channel as saved after a significant scan: its loudest tile and,
    with a matched filter, the correlation against it. *)
Definition saved_channel {W : World} (ctx : Context W) (b : Block)
    (c : OmegaChannel) (series : Products W) : Analyzed W :=
  mkAnalyzed c
    (Saved (item3 W series)
           (match ctx_correlate ctx with
            | Some correlate =>
                Some (cross_correlate W (item2 W series) correlate,
                      ctx_gps ctx, dt b)
            | None => None
            end)).

(** The loop's variables after a channel entered the table of contents
    under the section name [nm]. *)
Definition reported {W : World} (st : LoopState W) (a : Analyzed W)
    (nm : string) : LoopState W :=
  let toc' := update_toc (analyzed st) a nm in
  mkLoopState toc' (set_toc (htmlv st) toc') (data st).

(** The channel as it enters the table of contents, with the name of its
    section: restored when its name is in the checkpoint, saved when its
    scan is significant; [None] when the channel is skipped (or when the
    step ends with an exception). *)
Definition handled {W : World} (ctx : Context W) (b : Block)
    (d : option (list (string * Series W))) (c : OmegaChannel)
  : option (Analyzed W * string) :=
  match getitem_block (ctx_blocks ctx) (section c) with
  | None => None
  | Some blk =>
      if Py.in_ (name c) (ctx_completed ctx) then
        match Py.index (name c) (ctx_completed ctx) with
        | None => None
        | Some i =>
            match getitem_row (ctx_record ctx) i with
            | None => None
            | Some row => Some (loaded_channel ctx c row, block_name blk)
            end
        end
      else
        match scan_outcome ctx b d c with
        | Returned (Some series) =>
            Some (saved_channel ctx b c series, block_name blk)
        | _ => None
        end
  end.

(** The event writes the report page. *)
Definition is_page {W : World} (e : Event W) : bool :=
  match e with
  | EWriteQscanPage _ _ _ _ => true
  | _ => false
  end.

(** The event calls [omega.scan]. *)
Definition is_scan {W : World} (e : Event W) : bool :=
  match e with
  | EScan _ _ _ _ _ _ _ => true
  | _ => false
  end.

(** The event is a warning, from the logger or from [warnings.warn]. *)
Definition is_warning {W : World} (e : Event W) : bool :=
  match e with
  | ELog Warning _ | EWarn _ => true
  | _ => false
  end.

(** The event asks for data. *)
Definition is_fetch {W : World} (e : Event W) : bool :=
  match e with
  | EGetData _ _ _ _ _ _ _ => true
  | _ => false
  end.

(** The events of the state-flag query, when the block's flag is asked
    for. *)
Definition flag_events {W : World} (ctx : Context W) (b : Block)
  : list (Event W) :=
  if flag_checked (ctx_args ctx) b then
    [ELog Info (" -- Querying state flag " ++ Py.str_ (flag b));
     ECheckFlag (Py.str_ (flag b)) (ctx_gps ctx) (duration b) 1]
  else [].

(** The one request for the data of all channels of a block. *)
Definition block_read {W : World} (ctx : Context W) (b : Block) : Event W :=
  EGetData (Batch (map name (channels b)))
           (ctx_gps ctx - duration b / 2 - 1)
           (ctx_gps ctx + duration b / 2 + 1)
           (frametype b) (source b) (nproc (ctx_args ctx))
           (Py.rjust "Reading block:" 30).

(** The value of [data] after the block has been read, when it is. *)
Definition block_data {W : World} (ctx : Context W) (b : Block)
    (d : option (list (string * Series W)))
  : option (list (string * Series W)) :=
  if negb (Py.subset (map name (channels b)) (ctx_completed ctx)) then
    Some (get_dict W (map name (channels b))
                   (ctx_gps ctx - duration b / 2 - 1)
                   (ctx_gps ctx + duration b / 2 + 1)
                   (frametype b) (source b) (nproc (ctx_args ctx)))
  else d.

(** The report pages a trace writes, in order: the table of contents and
    the page variables of each. *)
Fixpoint page_writes {W : World} (t : list (Event W))
  : list (Toc W * HtmlVars W) :=
  match t with
  | [] => []
  | EWriteQscanPage _ _ toc h :: t' => (toc, h) :: page_writes t'
  | _ :: t' => page_writes t'
  end.

(** The channels of a block that enter the table of contents, in order,
    given the value of [data]. *)
Fixpoint handled_channels {W : World} (ctx : Context W) (b : Block)
    (d : option (list (string * Series W))) (cs : list OmegaChannel)
  : list (Analyzed W * string) :=
  match cs with
  | [] => []
  | c :: cs' =>
      match handled ctx b d c with
      | Some x => x :: handled_channels ctx b d cs'
      | None => handled_channels ctx b d cs'
      end
  end.

(** The channels of a list of blocks that enter the table of contents, in
    order; [d] is the value of [data] before the first block. *)
Fixpoint handled_blocks {W : World} (ctx : Context W)
    (d : option (list (string * Series W))) (bs : list Block)
  : list (Analyzed W * string) :=
  match bs with
  | [] => []
  | b :: bs' =>
      if skipped W (ctx_args ctx) (ctx_gps ctx) b
      then handled_blocks ctx d bs'
      else (handled_channels ctx b (block_data ctx b d) (channels b)
            ++ handled_blocks ctx (block_data ctx b d) bs')%list
  end.

(** The value of [data] after a list of blocks. *)
Fixpoint data_after {W : World} (ctx : Context W)
    (d : option (list (string * Series W))) (bs : list Block)
  : option (list (string * Series W)) :=
  match bs with
  | [] => d
  | b :: bs' =>
      if skipped W (ctx_args ctx) (ctx_gps ctx) b
      then data_after ctx d bs'
      else data_after ctx (block_data ctx b d) bs'
  end.

(** The loop's variables after a list of channels entered the table of
    contents one by one. *)
Fixpoint reported_all {W : World} (st : LoopState W)
    (hs : list (Analyzed W * string)) : LoopState W :=
  match hs with
  | [] => st
  | (a, nm) :: hs' => reported_all (reported st a nm) hs'
  end.

(** The pages written while a list of channels enters the table of
    contents: one after each channel. *)
Fixpoint pages_after {W : World} (st : LoopState W)
    (hs : list (Analyzed W * string)) : list (Toc W * HtmlVars W) :=
  match hs with
  | [] => []
  | (a, nm) :: hs' =>
      (analyzed (reported st a nm), htmlv (reported st a nm))
      :: pages_after (reported st a nm) hs'
  end.

(** The loop's variables with another value of [data]. *)
Definition with_data {W : World} (st : LoopState W)
    (d : option (list (string * Series W))) : LoopState W :=
  mkLoopState (analyzed st) (htmlv st) d.

(** The non-empty prefixes of a list, shortest first. *)
Fixpoint prefixes {A : Type} (l : list A) : list (list A) :=
  match l with
  | [] => []
  | x :: l' => [x] :: map (cons x) (prefixes l')
  end.

(** The matched filter: the primary channel's data over its window,
    whitened by [omega.primary]. *)
Definition matched_filter (W : World) (args : Args) (gps : Q) (p : Primary)
  : Series W :=
  omega_primary W gps (primary_length p)
    (get_series W (name (primary_channel p))
                (gps - primary_duration p / 2 - 1)
                (gps + primary_duration p / 2 + 1)
                (primary_frametype p) (primary_source p) (nproc args))
    (primary_fftlength p) (primary_resample p) (primary_flow p).

(** The events of building the matched filter. *)
Definition primary_events {W : World} (args : Args) (gps : Q) (p : Primary)
  : list (Event W) :=
  [EGetData (Single (name (primary_channel p)))
            (gps - primary_duration p / 2 - 1)
            (gps + primary_duration p / 2 + 1)
            (primary_frametype p) (primary_source p) (nproc args)
            (Py.rjust "Reading primary:" 30);
   EOmegaPrimary gps (primary_length p) (primary_fftlength p)
                 (primary_resample p) (primary_flow p);
   ETimeseriesPlot gps (primary_length p) (name (primary_channel p))
                   "plots/primary.png" "Whitened Amplitude"].

(** The last page of a run: the report without auto-refresh when a
    channel was analyzed, the null page otherwise. *)
Definition final_page {W : World} (ctx : Context W) (st : LoopState W)
    (hs : list (Analyzed W * string)) : Event W :=
  match hs with
  | [] =>
      EWriteNullPage (ctx_ifo ctx) (ctx_gps ctx)
        "No significant channels found during active analysis segments"
        (Py.lower (Py.str_ (ctx_ifo ctx)))
  | _ :: _ =>
      EWriteQscanPage (ctx_ifo ctx) (ctx_gps ctx) (analyzed st)
                      (set_refresh (htmlv st) false)
  end.

(** The event calls [omega.cross_correlate]. *)
Definition is_correlate {W : World} (e : Event W) : bool :=
  match e with
  | ECrossCorrelate _ => true
  | _ => false
  end.

(** A scan is of a channel that the checkpoint does not list. *)
Definition scans_new {W : World} (completed : list string) (e : Event W)
  : Prop :=
  match e with
  | EScan _ c _ _ _ _ _ => Py.in_ (name c) completed = false
  | _ => True
  end.

(** The event calls [omega.primary]. *)
Definition is_primary_filter {W : World} (e : Event W) : bool :=
  match e with
  | EOmegaPrimary _ _ _ _ _ => true
  | _ => false
  end.

(** The warning of line 173. *)
Definition no_primary_warning {W : World} : Event W :=
  ELog Warning "No primary configured, continuing without cross-correlation".

End OmegaSpec.

(* ===================================================================== *)
(** * Further notions: kinds of events, the tables of the scattering module *)
(* ===================================================================== *)

Module MoreSpec.

Import Omega.
Import OmegaSpec.

Local Open Scope Q_scope.

(** The event asks the state-flag database. *)
Definition is_check_flag {W : World} (e : Event W) : bool :=
  match e with
  | ECheckFlag _ _ _ _ => true
  | _ => false
  end.

(** The event reads the checkpoint record. *)
Definition is_table_read {W : World} (e : Event W) : bool :=
  match e with
  | ETableRead _ _ => true
  | _ => false
  end.

(** A scan is of a channel of one of the blocks [bs], at the time [gps],
    with that block's FFT length, resampling rate and search window and
    with the threshold and the frequency scaling of the command line. *)
Definition scan_of_config {W : World} (args : Args) (gps : Q)
    (bs : list Block) (e : Event W) : Prop :=
  match e with
  | EScan t c fft res fthresh srch logf =>
      exists b, In b bs /\ In c (channels b) /\
                t = gps /\ fft = fftlength b /\ res = resample b /\
                fthresh = far_threshold args /\ srch = search b /\
                logf = String.eqb (frequency_scaling args) "log"
  | _ => True
  end.

(** A page that is written refreshes itself. *)
Definition page_refreshes {W : World} (e : Event W) : Prop :=
  match e with
  | EWriteQscanPage _ _ _ h => refresh h = true
  | _ => True
  end.

(** The features come from a scan of this run. *)
Definition is_saved {W : World} (a : Analyzed W) : bool :=
  match features a with
  | Saved _ _ => true
  | Loaded _ _ => false
  end.

(** The features carry no correlation. *)
Definition uncorrelated {W : World} (a : Analyzed W) : bool :=
  match features a with
  | Saved _ None => true
  | Saved _ (Some _) => false
  | Loaded _ correlated => negb correlated
  end.

(** An event of a run without cross-correlation: it is no request for
    the primary channel, no call of [omega.primary] or
    [omega.cross_correlate], no plot of the primary; a page it writes
    announces no correlation and lists only channels without one. *)
Definition without_correlation {W : World} (e : Event W) : Prop :=
  match e with
  | EGetData (Single _) _ _ _ _ _ _ => False
  | EOmegaPrimary _ _ _ _ _ => False
  | ETimeseriesPlot _ _ _ _ _ => False
  | ECrossCorrelate _ => False
  | EWriteQscanPage _ _ t h =>
      correlated h = None /\ primary h = None /\
      forallb uncorrelated (listed t) = true
  | _ => True
  end.

(** An event of a run without a checkpoint: the record is not read, and
    a page lists only channels scanned in this run. *)
Definition without_checkpoint {W : World} (e : Event W) : Prop :=
  match e with
  | ETableRead _ _ => False
  | EWriteQscanPage _ _ t _ => forallb is_saved (listed t) = true
  | _ => True
  end.

(** An event of the loop over the blocks other than a page: a log line
    or a warning, a scan and its plots, a state-flag query, the read of a
    block and, with a matched filter, a cross-correlation. *)
Definition loop_event {W : World} (correlate : option (Series W))
    (e : Event W) : Prop :=
  match e with
  | ELog _ _ | EWarn _ | EScan _ _ _ _ _ _ _ | EWriteQscanPlots _ _ _ _
  | ECheckFlag _ _ _ _ | EGetData (Batch _) _ _ _ _ _ _ => True
  | ECrossCorrelate _ => correlate <> None
  | _ => False
  end.

(** Every page lists only channels that satisfy [f] and has page
    variables that satisfy [H]; the other events satisfy [Q]. *)
Definition page_ok {W : World} (f : Analyzed W -> bool)
    (H : HtmlVars W -> Prop) (Q : Event W -> Prop) (e : Event W) : Prop :=
  match e with
  | EWriteQscanPage _ _ t h => forallb f (listed t) = true /\ H h
  | _ => Q e
  end.

(** The same of the loop's variables. *)
Definition state_ok {W : World} (f : Analyzed W -> bool)
    (H : HtmlVars W -> Prop) (st : LoopState W) : Prop :=
  forallb f (listed (analyzed st)) = true /\ H (htmlv st).

(** An event of a loop over blocks that are all completed: no data is
    read and nothing is scanned. *)
Definition restores_only {W : World} (e : Event W) : Prop :=
  is_fetch e = false /\ is_scan e = false.

(** All channels of all blocks are in the checkpoint. *)
Definition all_completed (bs : list Block) (completed : list string) : Prop :=
  forall b c, In b bs -> In c (channels b) ->
              Py.in_ (name c) completed = true.

(** The directories of a run and its record: a directory it makes did
    not exist, and is [outdir] itself or one of its three
    subdirectories; it enters [outdir] only; and the record it reads is
    [data/summary.csv] of [outdir], read only when that file exists and
    checkpoints are not disabled. *)
Definition inside_outdir (W : World) (args : Args) (outdir : string)
    (e : Event W) : Prop :=
  match e with
  | EMakedirs cwd d =>
      isdir W cwd d = false /\
      ((cwd = "" /\ d = outdir) \/
       (cwd = outdir /\ In d ["plots"; "about"; "data"]))
  | EChdir p => p = outdir
  | ETableRead cwd p =>
      cwd = outdir /\ p = "data/summary.csv" /\
      path_exists W outdir p = true /\ disable_checkpoint args = false
  | _ => True
  end.

(** The configuration read is that of the files [files], for the label
    [ifo], and every page carries the title [ttl] and these files. *)
Definition uses_config {W : World} (ifo : option string) (ttl : string)
    (files : list string) (e : Event W) : Prop :=
  match e with
  | EReadConfig i fs => i = ifo /\ fs = files
  | EWriteQscanPage _ _ _ h => title h = ttl /\ config h = files
  | _ => True
  end.

(** The exceptions a run can end with: the two [KeyError]s of the
    checkpoint, the [KeyError] of a channel whose section is no block of
    the configuration, and what [omega.scan] raises for a channel of a
    block when that is neither [ValueError] nor [KeyError]. *)
Definition run_exception (W : World) (args : Args) (e : Exc) : Prop :=
  let bs := blocks (config_of W args) in
  e = KeyError "Channel"
  \/ e = KeyError no_correlation_msg
  \/ (exists b c, In b bs /\ In c (channels b) /\
                  getitem_block bs (section c) = None /\
                  e = KeyError (section c))
  \/ (exists b c series,
         In b bs /\ In c (channels b) /\
         omega_scan W (get_gps args) c series (fftlength b) (resample b)
                    (far_threshold args) (search b)
                    (String.eqb (frequency_scaling args) "log")
         = Raised e /\
         is_value_or_key_error e = false).

(** The dictionary of series the read of a block returns. *)
Definition block_dict {W : World} (ctx : Context W) (b : Block)
  : list (string * Series W) :=
  get_dict W (map name (channels b))
           (ctx_gps ctx - duration b / 2 - 1)
           (ctx_gps ctx + duration b / 2 + 1)
           (frametype b) (source b) (nproc (ctx_args ctx)).

(** The loop's variables after the blocks [bs], the loop having begun in
    [st]: the channels handled in these blocks have entered the table of
    contents, in order. *)
Definition state_after {W : World} (ctx : Context W) (st : LoopState W)
    (bs : list Block) : LoopState W :=
  reported_all (with_data st (data_after ctx (data st) bs))
               (handled_blocks ctx (data st) bs).

(** The loop's variables inside block [b], which began in [st] and is not
    skipped, after the steps of its channels [cs]. *)
Definition state_before {W : World} (ctx : Context W) (st : LoopState W)
    (b : Block) (cs : list OmegaChannel) : LoopState W :=
  let d := block_data ctx b (data st) in
  reported_all (with_data st d) (handled_channels ctx b d cs).

(** The events of a block that is skipped. *)
Definition skip_events {W : World} (ctx : Context W) (b : Block)
  : list (Event W) :=
  [ELog Info (" -- Querying state flag " ++ Py.str_ (flag b));
   ECheckFlag (Py.str_ (flag b)) (ctx_gps ctx) (duration b) 1;
   ELog Info (" -- " ++ Py.str_ (flag b) ++ " not active, skipping block")].

(** The events with which a block that is not skipped begins: the query
    of its state flag, when it is asked for, and the request for its
    data, unless every channel is completed. *)
Definition block_opening {W : World} (ctx : Context W) (b : Block)
  : list (Event W) :=
  (flag_events ctx b
   ++ (if negb (Py.subset (map name (channels b)) (ctx_completed ctx))
       then [block_read ctx b] else []))%list.

(** The events of a run before the loop over the blocks. *)
Definition run_opening {W : World} (args : Args) (s : Setup W)
  : list (Event W) :=
  (trace (set_up W args)
   ++ EWriteQscanPage (su_ifo s) (su_gps s) [] (su_htmlv s)
   :: ELog Info "Launching omega scans"
   :: trace (process_primary W (su_args s) (su_gps s) (su_primary s)
                             (su_htmlv s)))%list.

(** [s.endswith(t)] *)
Definition endswith (s t : string) : bool :=
  let n := String.length s in
  let m := String.length t in
  (Nat.leb m n && String.eqb (substring (n - m) m s) t)%bool.

End MoreSpec.

(** ** The tables of gwdetchar/scattering/core.py *)

Module ScatteringTables.

Local Open Scope string_scope.

(** [OPTIC_MOTION_CHANNELS], in the order of the source. *)
Definition OPTIC_MOTION_CHANNELS : list (string * list string) :=
  [("BS", ["SUS-BS_M1_DAMP_L_IN1_DQ"; "SUS-BS_M2_WIT_L_DQ"]);
   ("ETMX", ["SUS-ETMX_M0_DAMP_L_IN1_DQ"; "SUS-ETMX_R0_DAMP_L_IN1_DQ";
             "SUS-ETMX_L2_WIT_L_DQ"]);
   ("ETMY", ["SUS-ETMY_M0_DAMP_L_IN1_DQ"; "SUS-ETMY_R0_DAMP_L_IN1_DQ";
             "SUS-ETMY_L2_WIT_L_DQ"]);
   ("IM1", ["SUS-IM1_M1_DAMP_L_IN1_DQ"]);
   ("IM2", ["SUS-IM2_M1_DAMP_L_IN1_DQ"]);
   ("IM3", ["SUS-IM3_M1_DAMP_L_IN1_DQ"]);
   ("IM4", ["SUS-IM4_M1_DAMP_L_IN1_DQ"]);
   ("ITMX", ["SUS-ITMX_M0_DAMP_L_IN1_DQ"; "SUS-ITMX_R0_DAMP_L_IN1_DQ";
             "SUS-ITMX_L2_WIT_L_DQ"]);
   ("ITMY", ["SUS-ITMY_M0_DAMP_L_IN1_DQ"; "SUS-ITMY_R0_DAMP_L_IN1_DQ";
             "SUS-ITMY_L1_WIT_L_DQ"]);
   ("MC1", ["SUS-MC1_M1_DAMP_L_IN1_DQ"; "SUS-MC1_M3_WIT_L_DQ"]);
   ("MC2", ["SUS-MC2_M1_DAMP_L_IN1_DQ"; "SUS-MC2_M3_WIT_L_DQ"]);
   ("MC3", ["SUS-MC3_M1_DAMP_L_IN1_DQ"; "SUS-MC3_M3_WIT_L_DQ"]);
   ("OM1", ["SUS-OM1_M1_DAMP_L_IN1_DQ"]);
   ("OM2", ["SUS-OM2_M1_DAMP_L_IN1_DQ"]);
   ("OM3", ["SUS-OM3_M1_DAMP_L_IN1_DQ"]);
   ("OMC", ["SUS-OMC_M1_DAMP_L_IN1_DQ"]);
   ("PR2", ["SUS-PR2_M1_DAMP_L_IN1_DQ"; "SUS-PR2_M3_WIT_L_DQ"]);
   ("PR3", ["SUS-PR3_M1_DAMP_L_IN1_DQ"; "SUS-PR3_M3_WIT_L_DQ"]);
   ("PRM", ["SUS-PRM_M1_DAMP_L_IN1_DQ"; "SUS-PRM_M3_WIT_L_DQ"]);
   ("RM1", ["SUS-RM1_M1_DAMP_L_IN1_DQ"]);
   ("RM2", ["SUS-RM2_M1_DAMP_L_IN1_DQ"]);
   ("ZM1", ["SUS-ZM1_M1_DAMP_L_IN1_DQ"]);
   ("ZM2", ["SUS-ZM2_M1_DAMP_L_IN1_DQ"]);
   ("OPO", ["SUS-OPO_M1_DAMP_L_IN1_DQ"]);
   ("OFI", ["SUS-OFI_M1_DAMP_L_IN1_DQ"; "SUS-OFI_M1_DAMP_T_IN1_DQ"]);
   ("SR2", ["SUS-SR2_M1_DAMP_L_IN1_DQ"; "SUS-SR2_M3_WIT_L_DQ"]);
   ("SR3", ["SUS-SR3_M1_DAMP_L_IN1_DQ"; "SUS-SR3_M3_WIT_L_DQ"]);
   ("SRM", ["SUS-SRM_M1_DAMP_L_IN1_DQ"; "SUS-SRM_M3_WIT_L_DQ"]);
   ("TMSX", ["SUS-TMSX_M1_DAMP_L_IN1_DQ"]);
   ("TMSY", ["SUS-TMSY_M1_DAMP_L_IN1_DQ"])].

(** [TRANSMON_CHANNELS] *)
Definition TRANSMON_CHANNELS : list string :=
  ["ASC-X_TR_B_NSUM_OUT_DQ"; "ASC-Y_TR_B_NSUM_OUT_DQ"].

(** [FREQUENCY_MULTIPLIERS = range(1, 5)] *)
Definition FREQUENCY_MULTIPLIERS : list Z :=
  map Z.of_nat (seq 1 (5 - 1)).

End ScatteringTables.

(** ** More small worlds *)

Module MoreDemo.

Import Omega.
Import Demo.

Local Open Scope Q_scope.

(** [X1:B] fails with an exception that is neither [ValueError] nor
    [KeyError]; every other scan finds a significant signal. *)
Definition scan_boom (nm : string) : Outcome (option string) :=
  if String.eqb nm "X1:B" then Raised (OtherError "boom")
  else Returned (Some nm).

(** No primary, no checkpoint, and the scan of [X1:B] fails. *)
Definition world_boom : World :=
  world cfg_no_primary None (fun _ => true) scan_boom.

(** A checkpoint that lists all three channels. *)
Definition summary_all : Table :=
  mkTable ["Channel"; "Energy"; "Standard Deviation"]
          [["X1:A"; "12"; "3"]; ["X1:B"; "9"; "2"]; ["X1:C"; "7"; "1"]].

(** The full configuration with the complete checkpoint. *)
Definition world_done : World :=
  world cfg_full (Some summary_all) (fun _ => true) scan_all.

(** The loop's context in [world_done]. *)
Definition ctx_done : Context world_done :=
  mkContext args0 (Some "Network"%string) (get_gps args0)
            [block_aux; block_pem] summary_all
            ["X1:A"%string; "X1:B"%string; "X1:C"%string] None.

Definition st_done : LoopState world_done :=
  mkLoopState [] (mkHtmlVars "t"%string [] true None None None) None.

(** The full configuration with a checkpoint, the flag of the second
    block not active. *)
Definition world_unlocked : World :=
  world cfg_full (Some summary_full) (fun _ => false) scan_all.

(** The command line with [--ignore-state-flags], with
    [--disable-checkpoint] and with [--disable-correlation]. *)
Definition args_ignore : Args :=
  mkArgs (4723874568144421 # 4194304) None None None false false true
         (3171 # 100000000000) "log" "viridis" 8.

Definition args_fresh : Args :=
  mkArgs (4723874568144421 # 4194304) None None None false true false
         (3171 # 100000000000) "log" "viridis" 8.

Definition args_alone : Args :=
  mkArgs (4723874568144421 # 4194304) None None None true false false
         (3171 # 100000000000) "log" "viridis" 8.



(** The loop's context and variables in [world_boom] before the first
    block. *)
Definition ctx_boom : Context world_boom :=
  mkContext args0 (Some "Network"%string) (get_gps args0)
            [block_aux; block_pem] (mkTable [] []) [] None.

Definition data_boom : list (string * Series world_boom) :=
  [("X1:A"%string, "X1:A"%string); ("X1:B"%string, "X1:B"%string)].

Definition st_boom : LoopState world_boom :=
  mkLoopState [] (mkHtmlVars "t"%string [] true None None None)
              (Some data_boom).

(** The first channel of [block_aux] alone. *)
Definition block_a : Block :=
  mkBlock "AUX" "Auxiliary" None 64 2 "X1_R" "" 4096 (1 # 2) (1 # 10)
          [chan_a].

Definition st_fresh : LoopState world_boom :=
  mkLoopState [] (mkHtmlVars "t"%string [] true None None None) None.

End MoreDemo.

(** ** Series for the scattering helpers *)

Module ScatDemo.
Import Scattering.
Local Open Scope Q_scope.




(** Five samples, and four. *)
Definition five_samples : Scattering.TimeSeries :=
  Scattering.mkTimeSeries [0; 1; 4; 9; 16] 0 (1 # 2)
                          (Some "X1:MOTION"%string) "m"%string.

Definition four_samples : Scattering.TimeSeries :=
  Scattering.mkTimeSeries [0; 1; 4; 9] 0 (1 # 2)
                          (Some "X1:MOTION"%string) "m"%string.

(** A stand-in for the samples of the filter: the differences of
    neighbours, the last one repeated. *)
Fixpoint differences (x : list Q) : list Q :=
  match x with
  | a :: ((b :: _) as x') => (b - a) :: differences x'
  | _ => []
  end.

Definition savgol_demo (x : list Q) (window_length polyorder deriv : nat)
  : list Q :=
  differences x ++ [last (differences x) 0].



End ScatDemo.

(* ===================================================================== *)
(** * Properties of the scattering helpers *)
(* ===================================================================== *)

Module ScatteringFacts.

Import Scattering.

Local Open Scope Q_scope.

Lemma Forall2_map_pointwise :
  forall (A : Type) (f g : A -> Q) (l : list A),
    (forall x, f x == g x) -> Forall2 Qeq (map f l) (map g l).
Proof.
  intros A f g l Hfg.
  induction l as [|x l IH]; simpl; constructor; auto.
Qed.

Lemma Forall_map_abs :
  forall (l : list Q), Forall (fun x => 0 <= x) (map Qabs l).
Proof.
  induction l as [|x l IH]; simpl; constructor; auto using Qabs_nonneg.
Qed.


(** ** The fringe frequency (C7) *)

(** C7, as amended.  For a series of at least five samples, sampled at
    a step that is not zero, [get_fringe_frequency] returns a series
    that is, sample by sample, the absolute value of
    [multiplier * (2 / 1.064) * sample_rate * derivative], where the
    derivative is the Savitzky-Golay filter with window 5, order 2 and
    [deriv=1]; its unit is [Hz] and its samples are not negative.  For a
    shorter series the filter, and so the call, raises [ValueError],
    whatever the multiplier.  A call without [multiplier] uses 2. *)
Theorem get_fringe_frequency_spec :
  forall (savgol : list Q -> nat -> nat -> nat -> list Q)
         (series : TimeSeries) (multiplier : Q),
    let derivative := savgol (value series) 5%nat 2%nat 1%nat in
    ((5 <= List.length (value series))%nat -> ~ dt series == 0 ->
     exists fringef,
       get_fringe_frequency savgol series (Some multiplier) = Returns fringef
       /\ Forall2 Qeq (value fringef)
            (map (fun v =>
                    Qabs (multiplier * (2 / 1.064) * sample_rate series * v))
                 derivative)
       /\ unit_ fringef = "Hz"%string
       /\ Forall (fun x => 0 <= x) (value fringef))
    /\ ((List.length (value series) < 5)%nat ->
        exists msg,
          forall m, get_fringe_frequency savgol series m
                    = Raises (ValueError msg))
    /\ get_fringe_frequency savgol series None
       = get_fringe_frequency savgol series (Some 2).
Proof.
  intros savgol series multiplier derivative. subst derivative.
  split; [|split].
  - intros Hlen _.
    unfold get_fringe_frequency, savgol_filter.
    assert (Hb : Nat.ltb (List.length (value series)) 5 = false)
      by (apply Nat.ltb_ge; exact Hlen).
    rewrite Hb. eexists. split; [reflexivity|].
    unfold override_unit, abs_, mul_scalar, scalar_mul, array_finalize,
      of_array, sample_rate.
    cbn [value unit_ dt t0 name]. repeat split.
    + rewrite !map_map. apply Forall2_map_pointwise.
      intro v. apply Qabs_wd. unfold Qdiv. ring.
    + apply Forall_map_abs.
  - intro Hlen. eexists. intro m.
    unfold get_fringe_frequency, savgol_filter.
    assert (Hb : Nat.ltb (List.length (value series)) 5 = true)
      by (apply Nat.ltb_lt; exact Hlen).
    rewrite Hb. reflexivity.
  - reflexivity.
Qed.

(** C7 on an instance: a series of five samples. *)
Lemma get_fringe_frequency_spec_witness :
  (5 <= List.length (value ScatDemo.five_samples))%nat
  /\ ~ dt ScatDemo.five_samples == 0
  /\ exists fringef,
       get_fringe_frequency ScatDemo.savgol_demo ScatDemo.five_samples
                            (Some 1)
       = Returns fringef
       /\ unit_ fringef = "Hz"%string
       /\ List.length (value fringef) = 5%nat.
Proof.
  assert (H1 : (5 <= List.length (value ScatDemo.five_samples))%nat)
    by (cbn; lia).
  assert (H2 : ~ dt ScatDemo.five_samples == 0) by discriminate.
  split; [exact H1|]. split; [exact H2|].
  destruct (proj1 (get_fringe_frequency_spec ScatDemo.savgol_demo
                     ScatDemo.five_samples 1) H1 H2)
    as [fringef [Heq [_ [Hu _]]]].
  exists fringef. split; [exact Heq|]. split; [exact Hu|].
  injection Heq as <-. reflexivity.
Defined.

(** C7 as stated fails: for a series of four samples the filter raises
    [ValueError], and so does [get_fringe_frequency]. *)
Lemma short_series_raises :
  List.length (value ScatDemo.four_samples) = 4%nat
  /\ ~ dt ScatDemo.four_samples == 0
  /\ (exists msg,
         get_fringe_frequency ScatDemo.savgol_demo ScatDemo.four_samples None
         = Raises (ValueError msg))
  /\ ~ (exists fringef,
           get_fringe_frequency ScatDemo.savgol_demo ScatDemo.four_samples
                                None
           = Returns fringef).
Proof.
  split; [reflexivity|]. split; [discriminate|]. split.
  - eexists. reflexivity.
  - intros [fringef H]. discriminate H.
Qed.

(** ** Runs of a boolean series *)


(** ** Sample times *)









(** ** Segment lists *)



















(** ** Segments above a threshold (C8) *)









End ScatteringFacts.

(* ===================================================================== *)
(** * Properties of the Omega scan driver *)
(* ===================================================================== *)

Module OmegaFacts.

Import Omega.
Import OmegaSpec.
Import MoreSpec.

Local Open Scope Q_scope.

Section Computations.

Context {W : World}.

Lemma trace_bind :
  forall (A B : Type) (m : M W A) (f : A -> M W B),
    trace (bind m f) =
    (trace m ++ match outcome m with
                | Returned a => trace (f a)
                | Raised _ => []
                end)%list.
Proof.
  intros A B [t [a|e]] f; unfold bind, trace, outcome; cbn [fst snd].
  - destruct (f a); reflexivity.
  - now rewrite app_nil_r.
Qed.

Lemma outcome_bind :
  forall (A B : Type) (m : M W A) (f : A -> M W B),
    outcome (bind m f) =
    match outcome m with
    | Returned a => outcome (f a)
    | Raised e => Raised e
    end.
Proof.
  intros A B [t [a|e]] f; unfold bind, outcome; cbn [fst snd].
  - destruct (f a); reflexivity.
  - reflexivity.
Qed.

Lemma bind_returned :
  forall (A B : Type) (m : M W A) (f : A -> M W B) (b : B),
    outcome (bind m f) = Returned b ->
    exists a, outcome m = Returned a /\ outcome (f a) = Returned b /\
              trace (bind m f) = (trace m ++ trace (f a))%list.
Proof.
  intros A B m f b H. rewrite outcome_bind in H. rewrite trace_bind.
  destruct (outcome m) as [a|e]; [|discriminate]. eauto.
Qed.


Lemma M_eta :
  forall (A : Type) (m : M W A), m = (trace m, outcome m).
Proof. intros A [t o]. reflexivity. Qed.

Lemma M_ext :
  forall (A : Type) (m m' : M W A),
    trace m = trace m' -> outcome m = outcome m' -> m = m'.
Proof.
  intros A [t o] [t' o']. unfold trace, outcome. cbn [fst snd].
  now intros -> ->.
Qed.

(** A property of every event carries over a sequence of two
    computations. *)
Lemma Forall_trace_bind :
  forall (A B : Type) (P : Event W -> Prop) (m : M W A) (f : A -> M W B),
    Forall P (trace m) ->
    (forall a, outcome m = Returned a -> Forall P (trace (f a))) ->
    Forall P (trace (bind m f)).
Proof.
  intros A B P m f Hm Hf. rewrite trace_bind. apply Forall_app. split.
  - exact Hm.
  - destruct (outcome m) as [a|e]; [now apply Hf|constructor].
Qed.

Lemma Forall_trace_emit :
  forall (P : Event W -> Prop) (e : Event W),
    P e -> Forall P (trace (emit e)).
Proof. intros P e H. repeat constructor. exact H. Qed.

Lemma Forall_trace_ret :
  forall (A : Type) (P : Event W -> Prop) (a : A),
    Forall P (trace (ret (W := W) a)).
Proof. intros. constructor. Qed.

Lemma Forall_trace_raise :
  forall (A : Type) (P : Event W -> Prop) (e : Exc),
    Forall P (trace (raise (W := W) (A := A) e)).
Proof. intros. constructor. Qed.

Lemma Forall_trace_expect :
  forall (A : Type) (P : Event W -> Prop) (o : option A) (e : Exc),
    Forall P (trace (expect (W := W) o e)).
Proof. intros A P [a|] e; constructor. Qed.

Lemma Forall_trace_try_except :
  forall (A : Type) (P : Event W -> Prop) (m : M W A)
         (caught : Exc -> bool) (handler : Exc -> M W A),
    Forall P (trace m) ->
    (forall e, Forall P (trace (handler e))) ->
    Forall P (trace (try_except m caught handler)).
Proof.
  intros A P [t [a|e]] caught handler Hm Hh; unfold try_except.
  - exact Hm.
  - destruct (caught e); [|exact Hm].
    specialize (Hh e). destruct (handler e) as [t' o].
    unfold trace in *. cbn [fst] in *. apply Forall_app. auto.
Qed.

End Computations.

(** Pushes [trace] and [outcome] through the sequencing of computations. *)
Ltac run_m :=
  repeat first
    [ rewrite outcome_bind
    | rewrite trace_bind
    | progress cbv beta iota
    | progress cbn [outcome trace emit ret raise fst snd] ].

(** Breaks a goal [Forall P (trace m)] down along the structure of [m]. *)
Ltac forall_trace :=
  repeat first
    [ apply Forall_trace_ret
    | apply Forall_trace_raise
    | apply Forall_trace_expect
    | apply Forall_trace_emit
    | apply Forall_trace_bind; [|intros ? ?]
    | apply Forall_trace_try_except; [|intros ?]
    | progress cbv beta zeta
    | match goal with
      | |- Forall _ (trace (if ?b then _ else _)) => destruct b
      | |- Forall _ (trace (match ?o with Some _ => _ | None => _ end)) =>
          destruct o
      | |- Forall _ (trace (match ?o with Returned _ => _ | Raised _ => _ end))
        => destruct o
      end ].

(** ** The data window (C2) *)

Section Window.

Context {W : World}.


Lemma process_channel_no_fetch :
  forall (ctx : Context W) (b : Block) (st : LoopState W) (c : OmegaChannel),
    Forall no_fetch (trace (process_channel W ctx b st c)).
Proof.
  intros ctx b st c. unfold process_channel, report_channel, scan_channel.
  forall_trace; exact I.
Qed.

Lemma process_channels_no_fetch :
  forall (ctx : Context W) (b : Block) (cs : list OmegaChannel)
         (st : LoopState W),
    Forall no_fetch (trace (process_channels W ctx b st cs)).
Proof.
  intros ctx b cs. induction cs as [|c cs IH]; intro st; cbn [process_channels].
  - constructor.
  - apply Forall_trace_bind; [apply process_channel_no_fetch|].
    intros st' _. apply IH.
Qed.



Lemma make_subdirectories_no_fetch :
  forall (cwd : string) (ds : list string),
    Forall no_fetch (trace (make_subdirectories W cwd ds)).
Proof.
  intros cwd ds. induction ds as [|d ds IH]; cbn [make_subdirectories].
  - constructor.
  - forall_trace; try exact I; exact IH.
Qed.

Lemma set_up_no_fetch :
  forall (args : Args), Forall no_fetch (trace (set_up W args)).
Proof.
  intro args. unfold set_up, parse_primary, determine_checkpoints.
  forall_trace; try exact I; apply make_subdirectories_no_fetch.
Qed.

End Window.

(** ** Rounding the GPS time *)








(** ** The set-up *)

Section SetUp.

Context {W : World}.

Lemma parse_primary_outcome :
  forall (args : Args) (cp : Config),
    outcome (parse_primary W args cp) = Returned (primary_result args cp).
Proof.
  intros args cp. unfold parse_primary, primary_result.
  destruct (negb (disable_correlation args)); [|reflexivity].
  destruct (primary_section cp); reflexivity.
Qed.

Lemma make_subdirectories_outcome :
  forall (cwd : string) (ds : list string),
    outcome (make_subdirectories W cwd ds) = Returned tt.
Proof.
  intros cwd ds. induction ds as [|d ds IH]; cbn [make_subdirectories].
  - reflexivity.
  - rewrite outcome_bind. destruct (negb (isdir W cwd d)); exact IH.
Qed.

Lemma set_up_outcome :
  forall (args : Args),
    outcome (set_up W args) =
    let pr := primary_result args (config_of W args) in
    match outcome (determine_checkpoints W (fst pr) (get_outdir W args)) with
    | Returned ck =>
        Returned (mkSetup (fst pr) (get_ifo args) (get_gps args)
                          (blocks (config_of W args)) (snd pr)
                          (initial_htmlv W args) (fst ck) (snd ck))
    | Raised e => Raised e
    end.
Proof.
  intro args. unfold set_up.
  run_m. rewrite parse_primary_outcome. run_m.
  destruct (negb (isdir W "" (get_outdir W args))); run_m;
    rewrite make_subdirectories_outcome; run_m;
    unfold config_of;
    destruct (outcome (determine_checkpoints W _ _)); reflexivity.
Qed.


Lemma set_up_returned :
  forall (args : Args) (s : Setup W),
    outcome (set_up W args) = Returned s ->
    su_args s = fst (primary_result args (config_of W args)) /\
    su_ifo s = get_ifo args /\
    su_gps s = get_gps args /\
    su_blocks s = blocks (config_of W args) /\
    su_primary s = snd (primary_result args (config_of W args)) /\
    su_htmlv s = initial_htmlv W args /\
    outcome (determine_checkpoints W (su_args s) (get_outdir W args))
    = Returned (su_record s, su_completed s).
Proof.
  intros args s H. rewrite set_up_outcome in H. cbv zeta in H.
  destruct (outcome (determine_checkpoints W _ _)) as [[rec comp]|e] eqn:Hck;
    [|discriminate].
  injection H as <-. cbn [su_args su_ifo su_gps su_blocks su_primary
                          su_htmlv su_record su_completed fst snd].
  repeat split; auto.
Qed.


Lemma finalize_no_fetch :
  forall (ctx : Context W) (st : LoopState W),
    Forall no_fetch (trace (finalize W ctx st)).
Proof.
  intros ctx st. unfold finalize. forall_trace; exact I.
Qed.

Lemma set_up_trace :
  forall (args : Args),
    let outdir := get_outdir W args in
    let cp := config_of W args in
    trace (set_up W args) =
    (ELog Info (Py.str_ (get_ifo args) ++ " Omega Scan "
                ++ float_str W (get_gps args))
     :: EReadConfig (get_ifo args) (get_config_files W args)
     :: trace (parse_primary W args cp)
     ++ (if negb (isdir W "" outdir) then [EMakedirs "" outdir] else [])
     ++ EChdir outdir
     :: trace (make_subdirectories W outdir ["plots"; "about"; "data"])
     ++ trace (determine_checkpoints W (fst (primary_result args cp))
                                     outdir))%list.
Proof.
  intros args outdir cp. subst outdir cp. unfold set_up.
  run_m. rewrite parse_primary_outcome. run_m.
  unfold config_of.
  destruct (negb (isdir W "" (get_outdir W args))); run_m;
    rewrite make_subdirectories_outcome; run_m;
    destruct (outcome (determine_checkpoints W _ _));
    cbn [app]; now rewrite ?app_nil_r.
Qed.

End SetUp.


(** ** The interferometer label (C9) *)

Section Label.

Context {W : World}.





End Label.


(** ** The checkpoint without the correlation column (C6) *)

Section Checkpoint.

Context {W : World}.

Lemma determine_checkpoints_spec :
  forall (args : Args) (outdir : string),
    let record := table_read W outdir summary_path in
    determine_checkpoints W args outdir =
    if (path_exists W outdir summary_path
        && negb (disable_checkpoint args))%bool then
      match column record "Channel" with
      | None => ([ETableRead outdir summary_path],
                 Raised (KeyError "Channel"))
      | Some completed =>
          if (negb (disable_correlation args)
              && negb (Py.in_ "Standard Deviation" (colnames record)))%bool
          then ([ETableRead outdir summary_path],
                Raised (KeyError no_correlation_msg))
          else ([ETableRead outdir summary_path],
                Returned (record, completed))
      end
    else ([], Returned (mkTable [] [], [])).
Proof.
  intros args outdir record. subst record. unfold determine_checkpoints.
  destruct (path_exists W outdir summary_path
            && negb (disable_checkpoint args))%bool; [|reflexivity].
  destruct (column (table_read W outdir summary_path) "Channel");
    [|reflexivity].
  cbn [expect bind emit ret app].
  destruct (negb (disable_correlation args)
            && negb (Py.in_ "Standard Deviation"
                       (colnames (table_read W outdir summary_path))))%bool;
    reflexivity.
Qed.

Lemma make_subdirectories_prepares :
  forall (cwd : string) (ds : list string),
    Forall prepares (trace (make_subdirectories W cwd ds)).
Proof.
  intros cwd ds. induction ds as [|d ds IH]; cbn [make_subdirectories].
  - constructor.
  - forall_trace; try exact I; exact IH.
Qed.

Lemma set_up_prepares :
  forall (args : Args), Forall prepares (trace (set_up W args)).
Proof.
  intro args. unfold set_up, parse_primary, determine_checkpoints.
  forall_trace; try exact I; apply make_subdirectories_prepares.
Qed.

Lemma key_error_channel_differs :
  forall (A : Type),
    @Raised A (KeyError "Channel") <> Raised (KeyError no_correlation_msg).
Proof. intros A H. vm_compute in H. discriminate H. Qed.

(** When the set-up ends with the driver's own [KeyError]. *)
Lemma set_up_no_correlation_error :
  forall (args : Args),
    let outdir := get_outdir W args in
    let record := table_read W outdir summary_path in
    outcome (set_up W args) = Raised (KeyError no_correlation_msg) <->
    (disable_correlation args = false /\
     primary_section (config_of W args) <> None /\
     path_exists W outdir summary_path = true /\
     disable_checkpoint args = false /\
     column record "Channel" <> None /\
     Py.in_ "Standard Deviation" (colnames record) = false).
Proof.
  intros args outdir record. subst outdir record.
  rewrite set_up_outcome. cbv zeta.
  rewrite determine_checkpoints_spec. cbv zeta.
  unfold primary_result.
  destruct (disable_correlation args) eqn:Hdc; cbn [negb fst snd].
  - rewrite Hdc.
    destruct (path_exists W _ _); destruct (disable_checkpoint args);
      cbn [andb negb outcome snd];
      try (split; [discriminate|intros [H _]; discriminate]).
    destruct (column _ _); cbn [andb negb outcome snd];
      (split; [intro H|intros [H _]; discriminate]).
    + discriminate H.
    + now apply key_error_channel_differs in H.
  - destruct (primary_section (config_of W args)) as [p|] eqn:Hp;
      cbn [fst snd disable_correlation disable_checkpoint
           set_disable_correlation].
    + rewrite Hdc.
      destruct (path_exists W _ _); destruct (disable_checkpoint args);
        cbn [andb negb outcome snd];
        try (split; [discriminate|intros [_ [_ [H1 [H2 _]]]]; discriminate]).
      destruct (column _ _) as [comp|]; cbn [andb negb outcome snd].
      * destruct (Py.in_ _ _); cbn [negb outcome snd].
        -- split; [discriminate|intros [_ [_ [_ [_ [_ H]]]]]; discriminate].
        -- split; [intros _|reflexivity].
           repeat split; auto; discriminate.
      * split.
        -- intro H. now apply key_error_channel_differs in H.
        -- intros [_ [_ [_ [_ [H _]]]]]. now contradiction H.
    + destruct (path_exists W _ _); destruct (disable_checkpoint args);
        cbn [andb negb outcome snd];
        try (split; [discriminate|intros [_ [H _]]; now contradiction H]).
      destruct (column _ _); cbn [andb negb outcome snd];
        (split; [intro H|intros [_ [H _]]; now contradiction H]).
      * discriminate H.
      * now apply key_error_channel_differs in H.
Qed.

End Checkpoint.

(** C6.  Cross-correlation is enabled at the checkpoint exactly when it
    is not disabled on the command line and a primary is configured.
    When it is, a checkpoint record that is read and has no
    ['Standard Deviation'] column ends the run with a [KeyError] -- the
    driver's own when the record has its ['Channel'] column -- after
    events that only prepare the run: nothing is scanned and no page,
    plot or record is written.  The set-up raises the driver's own
    [KeyError] in no other case; in particular not with correlation or
    checkpointing disabled. *)
Theorem correlation_column_guard :
  forall (W : World) (args : Args),
    let outdir := get_outdir W args in
    let record := table_read W outdir summary_path in
    let cp := config_of W args in
    (correlation_enabled W args = true <->
     disable_correlation args = false /\ primary_section cp <> None)
    /\ (correlation_enabled W args = true ->
        path_exists W outdir summary_path = true ->
        disable_checkpoint args = false ->
        Py.in_ "Standard Deviation" (colnames record) = false ->
        (exists k, outcome (main W args) = Raised (KeyError k))
        /\ (column record "Channel" <> None ->
            outcome (main W args) = Raised (KeyError no_correlation_msg))
        /\ Forall prepares (trace (main W args)))
    /\ (outcome (set_up W args) = Raised (KeyError no_correlation_msg) <->
        (correlation_enabled W args = true /\
         path_exists W outdir summary_path = true /\
         disable_checkpoint args = false /\
         column record "Channel" <> None /\
         Py.in_ "Standard Deviation" (colnames record) = false))
    /\ (correlation_enabled W args = false \/ disable_checkpoint args = true ->
        outcome (set_up W args) <> Raised (KeyError no_correlation_msg)).
Proof.
  intros W args outdir record cp.
  assert (Hen : correlation_enabled W args = true <->
                disable_correlation args = false /\
                primary_section cp <> None).
  { unfold correlation_enabled, primary_result. fold cp.
    destruct (disable_correlation args) eqn:Hdc; cbn [negb fst].
    - rewrite Hdc. split; [discriminate|]. intros [H _]. discriminate.
    - destruct (primary_section cp) as [p|];
        cbn [fst disable_correlation set_disable_correlation].
      + rewrite Hdc. split; [|reflexivity]. intros _.
        split; [reflexivity|discriminate].
      + split; [discriminate|]. intros [_ H]. now contradiction H. }
  split; [exact Hen|]. split; [|split].
  - intros Hon Hex Hck Hsd. apply Hen in Hon. destruct Hon as [Hdc Hp].
    assert (Hraise : exists k,
               outcome (set_up W args) = Raised (KeyError k) /\
               (column record "Channel" <> None -> k = no_correlation_msg)).
    { rewrite set_up_outcome. cbv zeta.
      rewrite determine_checkpoints_spec. cbv zeta.
      unfold primary_result. rewrite Hdc. cbn [negb].
      fold cp. destruct (primary_section cp) as [p|]; [|now contradiction Hp].
      cbn [fst snd]. fold outdir. rewrite Hex, Hck, Hdc. cbn [negb andb].
      fold record. rewrite Hsd. cbn [negb].
      destruct (column record "Channel") as [comp|]; cbn [outcome snd].
      - exists no_correlation_msg. auto.
      - exists "Channel"%string. split; [reflexivity|].
        intro H. now contradiction H. }
    destruct Hraise as [k [Hk Hmsg]].
    assert (Hmain : outcome (main W args) = Raised (KeyError k)).
    { unfold main. rewrite outcome_bind. now rewrite Hk. }
    split; [eauto|]. split.
    + intro Hc. rewrite Hmain. now rewrite (Hmsg Hc).
    + unfold main. rewrite trace_bind, Hk, app_nil_r.
      apply set_up_prepares.
  - rewrite (set_up_no_correlation_error args). cbv zeta.
    fold outdir record cp. rewrite Hen. tauto.
  - intros Hdis Hraised.
    apply set_up_no_correlation_error in Hraised.
    destruct Hraised as [Hdc [Hp [_ [Hck _]]]].
    destruct Hdis as [H|H]; [|congruence].
    assert (Hon : correlation_enabled W args = true)
      by (apply Hen; split; assumption).
    congruence.
Qed.

(** C6 on an instance: an old checkpoint, a primary channel and the
    default command line. *)
Lemma correlation_column_guard_witness :
  let W := Demo.world Demo.cfg_full (Some Demo.summary_old) (fun _ => true)
                      Demo.scan_all in
  outcome (main W Demo.args0) = Raised (KeyError no_correlation_msg)
  /\ Forall prepares (trace (main W Demo.args0)).
Proof.
  intro W.
  pose proof (proj1 (proj2 (correlation_column_guard W Demo.args0))) as H.
  cbv zeta in H.
  specialize (H eq_refl eq_refl eq_refl eq_refl).
  destruct H as [_ [Hmsg Hprep]].
  split; [apply Hmsg; discriminate|exact Hprep].
Defined.

(** ** One channel *)

Section Channel.

Context {W : World}.

Lemma scan_channel_outcome :
  forall (ctx : Context W) (b : Block) (st : LoopState W) (c : OmegaChannel),
    outcome (scan_channel W ctx b st c) = scan_outcome ctx b (data st) c.
Proof.
  intros ctx b st c. unfold scan_channel, scan_outcome.
  destruct (data st) as [d|]; [|reflexivity].
  cbn [expect]. run_m.
  destruct (find _ d) as [kv|]; cbn [option_map expect]; run_m;
    [|reflexivity].
  destruct (omega_scan W _ _ _ _ _ _ _ _); reflexivity.
Qed.

(** The trace of the call: the [omega.scan] event when the data are
    there, nothing otherwise. *)
Lemma scan_channel_trace :
  forall (ctx : Context W) (b : Block) (st : LoopState W) (c : OmegaChannel),
    trace (scan_channel W ctx b st c) = [] \/
    exists e, trace (scan_channel W ctx b st c) = [e] /\ is_scan e = true
              /\ is_page e = false.
Proof.
  intros ctx b st c. unfold scan_channel.
  destruct (data st) as [d|]; [|now left].
  cbn [expect]. run_m.
  destruct (find _ d) as [kv|]; cbn [option_map expect]; run_m;
    [|now left].
  right.
  destruct (omega_scan W _ _ _ _ _ _ _ _);
    (eexists; split; [reflexivity|split; reflexivity]).
Qed.

(** A channel of the checkpoint: logged, restored from its row, put into
    the table of contents, and the page written. *)
Lemma process_channel_checkpoint :
  forall (ctx : Context W) (b : Block) (st : LoopState W) (c : OmegaChannel)
         (i : nat) (row : Row) (blk : Block),
    Py.in_ (name c) (ctx_completed ctx) = true ->
    Py.index (name c) (ctx_completed ctx) = Some i ->
    getitem_row (ctx_record ctx) i = Some row ->
    getitem_block (ctx_blocks ctx) (section c) = Some blk ->
    let st' := reported st (loaded_channel ctx c row) (block_name blk) in
    process_channel W ctx b st c =
    ([ELog Info (" -- Checkpointing " ++ name c ++ " from a previous run");
      EWriteQscanPage (ctx_ifo ctx) (ctx_gps ctx) (analyzed st') (htmlv st')],
     Returned st').
Proof.
  intros ctx b st c i row blk Hin Hidx Hrow Hblk st'. subst st'.
  unfold process_channel, report_channel, loaded_channel.
  rewrite Hin.
  apply M_ext; run_m; rewrite Hidx; cbn [expect]; run_m;
    rewrite Hrow; cbn [expect]; run_m; cbn [channel];
    rewrite Hblk; reflexivity.
Qed.

(** A channel whose scan fails with a caught exception or finds nothing:
    a warning, and the loop's variables stay as they are. *)
Lemma process_channel_skip :
  forall (ctx : Context W) (b : Block) (st : LoopState W) (c : OmegaChannel),
    Py.in_ (name c) (ctx_completed ctx) = false ->
    (scan_outcome ctx b (data st) c = Returned None \/
     exists e, scan_outcome ctx b (data st) c = Raised e /\
               is_value_or_key_error e = true) ->
    exists w,
      is_warning w = true /\
      process_channel W ctx b st c =
      ((ELog Info (" -- Scanning channel " ++ name c)
        :: trace (scan_channel W ctx b st c)) ++ [w], Returned st).
Proof.
  intros ctx b st c Hin Hscan.
  rewrite <- scan_channel_outcome in Hscan.
  unfold process_channel. rewrite Hin.
  destruct (scan_channel W ctx b st c) as [ts [r|e]] eqn:Hsc;
    unfold outcome in Hscan; cbn [snd] in Hscan.
  - destruct Hscan as [->|[e [He _]]]; [|discriminate].
    exists (ELog Warning
              (" -- Channel not significant at white noise false alarm "
               ++ "rate " ++ float_str W (far_threshold (ctx_args ctx))
               ++ " Hz")).
    split; [reflexivity|]. cbn. now rewrite <- app_assoc.
  - destruct Hscan as [Hn|[e' [He Hcaught]]]; [discriminate|].
    injection He as <-.
    exists (EWarn ("Skipping " ++ name c ++ ": [" ++ exc_type_str e
                   ++ "] " ++ exc_str e)).
    split; [reflexivity|]. cbn. rewrite Hcaught. cbn.
    now rewrite <- app_assoc.
Qed.

(** A channel whose scan is significant: plotted, correlated against the
    matched filter when there is one, saved, put into the table of
    contents, and the page written. *)
Lemma process_channel_significant :
  forall (ctx : Context W) (b : Block) (st : LoopState W) (c : OmegaChannel)
         (series : Products W) (blk : Block),
    Py.in_ (name c) (ctx_completed ctx) = false ->
    scan_outcome ctx b (data st) c = Returned (Some series) ->
    getitem_block (ctx_blocks ctx) (section c) = Some blk ->
    let st' := reported st (saved_channel ctx b c series) (block_name blk) in
    process_channel W ctx b st c =
    ((ELog Info (" -- Scanning channel " ++ name c)
      :: trace (scan_channel W ctx b st c))
     ++ [ELog Info (" -- Plotting omega scan products for " ++ name c);
         EWriteQscanPlots (ctx_gps ctx) c (frequency_scaling (ctx_args ctx))
                          (colormap (ctx_args ctx))]
     ++ match ctx_correlate ctx with
        | Some _ => [ELog Info (" -- Cross-correlating " ++ name c);
                     ECrossCorrelate c]
        | None => []
        end
     ++ [EWriteQscanPage (ctx_ifo ctx) (ctx_gps ctx) (analyzed st')
                         (htmlv st')],
     Returned st').
Proof.
  intros ctx b st c series blk Hin Hscan Hblk st'. subst st'.
  rewrite <- scan_channel_outcome in Hscan.
  unfold process_channel, report_channel, saved_channel. rewrite Hin.
  destruct (scan_channel W ctx b st c) as [ts [r|e]] eqn:Hsc;
    unfold outcome in Hscan; cbn [snd] in Hscan; [|discriminate].
  injection Hscan as ->.
  destruct (ctx_correlate ctx) as [correlate|];
    cbn; rewrite Hblk; cbn; rewrite <- ?app_assoc; reflexivity.
Qed.

End Channel.

(** C10.  When the scan of a channel raises [ValueError] or [KeyError]
    or returns [None], the channel's step ends normally with a warning as
    its last event, writes no page and leaves the loop's variables -- the
    table of contents among them -- as they were; the loop goes on with
    the next channel from there. *)
Theorem scan_failure_skips_channel :
  forall (W : World) (ctx : Context W) (b : Block) (st : LoopState W)
         (c : OmegaChannel) (cs : list OmegaChannel),
    Py.in_ (name c) (ctx_completed ctx) = false ->
    (outcome (scan_channel W ctx b st c) = Returned None \/
     exists e, outcome (scan_channel W ctx b st c) = Raised e /\
               is_value_or_key_error e = true) ->
    (exists w,
        is_warning w = true /\
        trace (process_channel W ctx b st c) =
        (ELog Info (" -- Scanning channel " ++ name c)
         :: trace (scan_channel W ctx b st c)) ++ [w])
    /\ outcome (process_channel W ctx b st c) = Returned st
    /\ Forall (fun e => is_page e = false)
              (trace (process_channel W ctx b st c))
    /\ handled ctx b (data st) c = None
    /\ process_channels W ctx b st (c :: cs) =
       ((trace (process_channel W ctx b st c)
         ++ trace (process_channels W ctx b st cs))%list,
        outcome (process_channels W ctx b st cs)).
Proof.
  intros W ctx b st c cs Hin Hscan.
  rewrite scan_channel_outcome in Hscan.
  destruct (process_channel_skip ctx b st c Hin Hscan) as [w [Hw Heq]].
  assert (Hout : outcome (process_channel W ctx b st c) = Returned st)
    by now rewrite Heq.
  split; [|split; [|split; [|split]]].
  - exists w. split; [exact Hw|]. now rewrite Heq.
  - exact Hout.
  - rewrite Heq. cbn [trace fst].
    apply Forall_app. split.
    + constructor; [reflexivity|].
      destruct (scan_channel_trace ctx b st c) as [->|[e [-> [_ He]]]];
        repeat constructor. exact He.
    + repeat constructor. destruct w as [[]| | | | | | | | | | | | | |];
        try discriminate; reflexivity.
  - unfold handled. rewrite Hin.
    destruct (getitem_block _ _); [|reflexivity].
    destruct Hscan as [->|[e [-> _]]]; reflexivity.
  - cbn [process_channels]. apply M_ext.
    + rewrite trace_bind, Hout. reflexivity.
    + rewrite outcome_bind, Hout. reflexivity.
Qed.

(** ** One block (C5) *)

Section BlockFacts.

Context {W : World}.

Lemma no_fetch_filter :
  forall (t : list (Event W)), Forall no_fetch t -> filter is_fetch t = [].
Proof.
  induction t as [|e t IH]; intro H; [reflexivity|].
  inversion H as [|? ? He Ht]; subst. cbn [filter].
  destruct e; try contradiction; cbn [is_fetch]; auto.
Qed.

Lemma skipped_iff :
  forall (args : Args) (gps : Q) (b : Block),
    skipped W args gps b = true <->
    exists f, flag b = Some f /\ f <> ""%string /\
              ignore_state_flags args = false /\
              check_flag W f gps (duration b) 1 = false.
Proof.
  intros args gps b. unfold skipped, flag_checked, Py.opt_str_truthy.
  destruct (flag b) as [f|]; cbn [Py.str_ andb].
  - unfold Py.str_truthy.
    destruct (String.eqb_spec f ""); cbn [negb andb].
    + split; [discriminate|]. intros [f' [Hf [Hne _]]].
      injection Hf as <-. contradiction.
    + destruct (ignore_state_flags args); cbn [negb andb].
      * split; [discriminate|]. intros [f' [_ [_ [H _]]]]. discriminate.
      * destruct (check_flag W f gps (duration b) 1) eqn:Hc; cbn [negb].
        -- split; [discriminate|]. intros [f' [Hf [_ [_ H]]]].
           injection Hf as <-. congruence.
        -- split; [|reflexivity]. intros _. exists f. auto.
  - split; [discriminate|]. intros [f [Hf _]]. discriminate.
Qed.

Lemma read_block_spec :
  forall (ctx : Context W) (b : Block) (st : LoopState W),
    read_block W ctx b st =
    if negb (Py.subset (map name (channels b)) (ctx_completed ctx)) then
      ([block_read ctx b],
       Returned (mkLoopState (analyzed st) (htmlv st)
                             (block_data ctx b (data st))))
    else ([], Returned st).
Proof.
  intros ctx b st. unfold read_block, block_data, block_read.
  destruct (negb (Py.subset _ _)); reflexivity.
Qed.

Lemma process_block_skipped :
  forall (ctx : Context W) (st : LoopState W) (b : Block),
    skipped W (ctx_args ctx) (ctx_gps ctx) b = true ->
    process_block W ctx st b =
    ([ELog Info (" -- Querying state flag " ++ Py.str_ (flag b));
      ECheckFlag (Py.str_ (flag b)) (ctx_gps ctx) (duration b) 1;
      ELog Info (" -- " ++ Py.str_ (flag b) ++ " not active, skipping block")],
     Returned st).
Proof.
  intros ctx st b Hsk. unfold process_block. rewrite Hsk.
  unfold skipped in Hsk. apply andb_prop in Hsk. destruct Hsk as [Hfc _].
  rewrite Hfc. reflexivity.
Qed.

Lemma process_block_processed :
  forall (ctx : Context W) (st : LoopState W) (b : Block),
    skipped W (ctx_args ctx) (ctx_gps ctx) b = false ->
    let st1 := mkLoopState (analyzed st) (htmlv st)
                           (block_data ctx b (data st)) in
    process_block W ctx st b =
    ((flag_events ctx b
      ++ (if negb (Py.subset (map name (channels b)) (ctx_completed ctx))
          then [block_read ctx b] else [])
      ++ trace (process_channels W ctx b st1 (channels b)))%list,
     outcome (process_channels W ctx b st1 (channels b))).
Proof.
  intros ctx st b Hsk st1. subst st1.
  unfold process_block, flag_events. rewrite Hsk.
  rewrite read_block_spec. unfold block_data.
  destruct (negb (Py.subset _ _));
    destruct (flag_checked (ctx_args ctx) b);
    apply M_ext; run_m; try reflexivity;
    destruct st; reflexivity.
Qed.

End BlockFacts.

(** C5, as amended.  A block is skipped exactly when it defines a state
    flag, state flags are not ignored, and the flag is not active over
    the padded window; a skipped block only logs the query, so none of
    its channels is read, restored, scanned or reported.  A block that is
    not skipped and whose channels are not all completed is read once,
    all its channels in one request made before the first channel is
    processed; a block whose channels are all completed is not read. *)
Theorem block_processing :
  forall (W : World) (ctx : Context W) (st : LoopState W) (b : Block),
    let args := ctx_args ctx in
    let gps := ctx_gps ctx in
    let chans := map name (channels b) in
    let st1 := mkLoopState (analyzed st) (htmlv st)
                           (block_data ctx b (data st)) in
    (skipped W args gps b = true <->
     exists f, flag b = Some f /\ f <> ""%string /\
               ignore_state_flags args = false /\
               check_flag W f gps (duration b) 1 = false)
    /\ (skipped W args gps b = true ->
        process_block W ctx st b =
        ([ELog Info (" -- Querying state flag " ++ Py.str_ (flag b));
          ECheckFlag (Py.str_ (flag b)) gps (duration b) 1;
          ELog Info (" -- " ++ Py.str_ (flag b)
                     ++ " not active, skipping block")],
         Returned st))
    /\ (skipped W args gps b = false ->
        Py.subset chans (ctx_completed ctx) = false ->
        process_block W ctx st b =
        ((flag_events ctx b ++ block_read ctx b
          :: trace (process_channels W ctx b st1 (channels b)))%list,
         outcome (process_channels W ctx b st1 (channels b)))
        /\ filter is_fetch (trace (process_block W ctx st b))
           = [block_read ctx b])
    /\ (skipped W args gps b = false ->
        Py.subset chans (ctx_completed ctx) = true ->
        process_block W ctx st b =
        ((flag_events ctx b
          ++ trace (process_channels W ctx b st (channels b)))%list,
         outcome (process_channels W ctx b st (channels b)))
        /\ filter is_fetch (trace (process_block W ctx st b)) = []).
Proof.
  intros W ctx st b args gps chans st1.
  assert (Hflag : filter is_fetch (flag_events ctx b) = []).
  { unfold flag_events. destruct (flag_checked (ctx_args ctx) b);
      reflexivity. }
  split; [apply skipped_iff|]. split; [apply process_block_skipped|]. split.
  - intros Hsk Hsub.
    pose proof (process_block_processed ctx st b Hsk) as Heq.
    cbv zeta in Heq. fold chans in Heq. rewrite Hsub in Heq.
    cbn [negb app] in Heq. fold st1 in Heq.
    split; [exact Heq|].
    rewrite Heq. cbn [trace fst]. rewrite filter_app, Hflag.
    cbn [app filter block_read is_fetch].
    now rewrite (no_fetch_filter _ (process_channels_no_fetch ctx b _ st1)).
  - intros Hsk Hsub.
    pose proof (process_block_processed ctx st b Hsk) as Heq.
    cbv zeta in Heq. fold chans in Heq. unfold block_data in Heq.
    fold chans in Heq. rewrite Hsub in Heq. cbn [negb app] in Heq.
    assert (Hst : mkLoopState (analyzed st) (htmlv st) (data st) = st)
      by (destruct st; reflexivity).
    rewrite Hst in Heq.
    split; [exact Heq|].
    rewrite Heq. cbn [trace fst]. rewrite filter_app, Hflag.
    cbn [app].
    apply no_fetch_filter, process_channels_no_fetch.
Qed.

(** ** The pages of a run (C4) *)

Section Pages.

Context {W : World}.

Lemma page_writes_app :
  forall (t t' : list (Event W)),
    page_writes (t ++ t') = (page_writes t ++ page_writes t')%list.
Proof.
  induction t as [|e t IH]; intro t'; [reflexivity|].
  destruct e; cbn [app page_writes]; rewrite IH; reflexivity.
Qed.

Lemma page_writes_none :
  forall (t : list (Event W)),
    Forall (fun e => is_page e = false) t -> page_writes t = [].
Proof.
  induction t as [|e t IH]; intro H; [reflexivity|].
  inversion H as [|? ? He Ht]; subst.
  destruct e; try discriminate; cbn [page_writes]; auto.
Qed.

Lemma scan_channel_pages :
  forall (ctx : Context W) (b : Block) (st : LoopState W) (c : OmegaChannel),
    page_writes (trace (scan_channel W ctx b st c)) = [].
Proof.
  intros ctx b st c. apply page_writes_none.
  destruct (scan_channel_trace ctx b st c) as [->|[e [-> [_ He]]]];
    repeat constructor. exact He.
Qed.

(** How a channel's step ends, and the page it writes. *)
Lemma process_channel_returned :
  forall (ctx : Context W) (b : Block) (st st' : LoopState W)
         (c : OmegaChannel),
    outcome (process_channel W ctx b st c) = Returned st' ->
    match handled ctx b (data st) c with
    | Some (a, nm) =>
        st' = reported st a nm /\
        page_writes (trace (process_channel W ctx b st c))
        = [(analyzed st', htmlv st')]
    | None =>
        st' = st /\ page_writes (trace (process_channel W ctx b st c)) = []
    end.
Proof.
  intros ctx b st st' c Hret. unfold handled.
  destruct (Py.in_ (name c) (ctx_completed ctx)) eqn:Hin.
  - destruct (Py.index (name c) (ctx_completed ctx)) as [i|] eqn:Hidx.
    + destruct (getitem_row (ctx_record ctx) i) as [row|] eqn:Hrow.
      * destruct (getitem_block (ctx_blocks ctx) (section c)) as [blk|] eqn:Hb.
        -- pose proof (process_channel_checkpoint ctx b st c i row blk
                         Hin Hidx Hrow Hb) as Heq.
           cbv zeta in Heq. rewrite Heq in Hret |- *.
           injection Hret as <-. split; reflexivity.
        -- exfalso. revert Hret.
           unfold process_channel, report_channel. rewrite Hin.
           run_m. rewrite Hidx. cbn [expect]. run_m.
           rewrite Hrow. cbn [expect]. run_m. cbn [channel].
           rewrite Hb. discriminate.
      * exfalso. revert Hret.
        unfold process_channel. rewrite Hin.
        run_m. rewrite Hidx. cbn [expect]. run_m.
        rewrite Hrow. discriminate.
    + exfalso. revert Hret.
      unfold process_channel. rewrite Hin.
      run_m. rewrite Hidx. discriminate.
  - destruct (scan_outcome ctx b (data st) c) as [[series|]|e] eqn:Hscan.
    + destruct (getitem_block (ctx_blocks ctx) (section c)) as [blk|] eqn:Hb.
      * pose proof (process_channel_significant ctx b st c series blk
                      Hin Hscan Hb) as Heq.
        cbv zeta in Heq. rewrite Heq in Hret |- *.
        injection Hret as <-. split; [reflexivity|].
        cbn [trace fst]. rewrite !page_writes_app.
        cbn [app page_writes]. rewrite scan_channel_pages.
        destruct (ctx_correlate ctx); reflexivity.
      * exfalso. revert Hret.
        rewrite <- scan_channel_outcome in Hscan.
        unfold process_channel, report_channel. rewrite Hin.
        destruct (scan_channel W ctx b st c) as [ts [r|e]];
          unfold outcome in Hscan; cbn [snd] in Hscan; [|discriminate].
        injection Hscan as ->.
        destruct (ctx_correlate ctx); cbn; rewrite Hb; discriminate.
    + destruct (process_channel_skip ctx b st c Hin (or_introl Hscan))
        as [w [Hw Heq]].
      rewrite Heq in Hret |- *. injection Hret as <-.
      assert (Hnone : st = st /\
                page_writes
                  ((ELog Info (" -- Scanning channel " ++ name c)
                    :: trace (scan_channel W ctx b st c)) ++ [w]) = []).
      { split; [reflexivity|].
        rewrite page_writes_app. cbn [page_writes app].
        rewrite scan_channel_pages.
        destruct w as [[]| | | | | | | | | | | | | |];
          try discriminate; reflexivity. }
      destruct (getitem_block _ _); exact Hnone.
    + destruct (is_value_or_key_error e) eqn:Hc.
      * destruct (process_channel_skip ctx b st c Hin
                    (or_intror (ex_intro _ e (conj Hscan Hc))))
          as [w [Hw Heq]].
        rewrite Heq in Hret |- *. injection Hret as <-.
        assert (Hnone : st = st /\
                  page_writes
                    ((ELog Info (" -- Scanning channel " ++ name c)
                      :: trace (scan_channel W ctx b st c)) ++ [w]) = []).
        { split; [reflexivity|].
          rewrite page_writes_app. cbn [page_writes app].
          rewrite scan_channel_pages.
          destruct w as [[]| | | | | | | | | | | | | |];
            try discriminate; reflexivity. }
        destruct (getitem_block _ _); exact Hnone.
      * exfalso. revert Hret.
        rewrite <- scan_channel_outcome in Hscan.
        unfold process_channel. rewrite Hin.
        destruct (scan_channel W ctx b st c) as [ts [r|e']];
          unfold outcome in Hscan; cbn [snd] in Hscan; [discriminate|].
        injection Hscan as ->. cbn. rewrite Hc. discriminate.
Qed.

Lemma reported_data :
  forall (st : LoopState W) (a : Analyzed W) (nm : string),
    data (reported st a nm) = data st.
Proof. reflexivity. Qed.

Lemma reported_all_app :
  forall (hs hs' : list (Analyzed W * string)) (st : LoopState W),
    reported_all st (hs ++ hs') = reported_all (reported_all st hs) hs'.
Proof.
  induction hs as [|[a nm] hs IH]; intros hs' st; cbn [app reported_all].
  - reflexivity.
  - apply IH.
Qed.

Lemma pages_after_app :
  forall (hs hs' : list (Analyzed W * string)) (st : LoopState W),
    pages_after st (hs ++ hs')
    = (pages_after st hs ++ pages_after (reported_all st hs) hs')%list.
Proof.
  induction hs as [|[a nm] hs IH]; intros hs' st;
    cbn [app pages_after reported_all].
  - reflexivity.
  - now rewrite IH.
Qed.

Lemma reported_all_data :
  forall (hs : list (Analyzed W * string)) (st : LoopState W),
    data (reported_all st hs) = data st.
Proof.
  induction hs as [|[a nm] hs IH]; intro st; cbn [reported_all].
  - reflexivity.
  - now rewrite IH.
Qed.

Lemma with_data_same :
  forall (st : LoopState W), with_data st (data st) = st.
Proof. intros [t h d]. reflexivity. Qed.

Lemma reported_all_with_data :
  forall (hs : list (Analyzed W * string)) (st : LoopState W)
         (d : option (list (string * Series W))),
    reported_all (with_data st d) hs = with_data (reported_all st hs) d.
Proof.
  induction hs as [|[a nm] hs IH]; intros st d; cbn [reported_all].
  - reflexivity.
  - rewrite <- IH. reflexivity.
Qed.

(** The pages do not depend on the value of [data]. *)
Lemma pages_after_with_data :
  forall (hs : list (Analyzed W * string)) (st : LoopState W)
         (d : option (list (string * Series W))),
    pages_after (with_data st d) hs = pages_after st hs.
Proof.
  induction hs as [|[a nm] hs IH]; intros st d; cbn [pages_after].
  - reflexivity.
  - f_equal. rewrite <- (IH (reported st a nm) d). reflexivity.
Qed.

(** The loop over the channels of a block. *)
Lemma process_channels_returned :
  forall (ctx : Context W) (b : Block) (cs : list OmegaChannel)
         (st st' : LoopState W),
    outcome (process_channels W ctx b st cs) = Returned st' ->
    st' = reported_all st (handled_channels ctx b (data st) cs) /\
    page_writes (trace (process_channels W ctx b st cs))
    = pages_after st (handled_channels ctx b (data st) cs).
Proof.
  intros ctx b cs. induction cs as [|c cs IH]; intros st st' Hret;
    cbn [process_channels handled_channels] in *.
  - injection Hret as <-. split; reflexivity.
  - apply bind_returned in Hret.
    destruct Hret as [st1 [Hc [Hcs Htr]]].
    rewrite Htr, page_writes_app.
    pose proof (process_channel_returned ctx b st st1 c Hc) as Hstep.
    destruct (IH st1 st' Hcs) as [Hst' Hpages].
    destruct (handled ctx b (data st) c) as [[a nm]|].
    + destruct Hstep as [Hst1 Hpage].
      rewrite Hpage, Hpages, Hst'. subst st1.
      rewrite reported_data. cbn [reported_all pages_after app].
      split; reflexivity.
    + destruct Hstep as [-> Hpage].
      rewrite Hpage, Hpages, Hst'. split; reflexivity.
Qed.

(** One block. *)
Lemma process_block_returned :
  forall (ctx : Context W) (b : Block) (st st' : LoopState W),
    outcome (process_block W ctx st b) = Returned st' ->
    st' = reported_all (with_data st (data_after ctx (data st) [b]))
                       (handled_blocks ctx (data st) [b]) /\
    page_writes (trace (process_block W ctx st b))
    = pages_after st (handled_blocks ctx (data st) [b]).
Proof.
  intros ctx b st st' Hret. cbn [handled_blocks data_after].
  destruct (skipped W (ctx_args ctx) (ctx_gps ctx) b) eqn:Hsk.
  - rewrite (process_block_skipped ctx st b Hsk) in Hret |- *.
    injection Hret as <-. rewrite with_data_same. split; reflexivity.
  - pose proof (process_block_processed ctx st b Hsk) as Heq.
    cbv zeta in Heq. rewrite Heq in Hret |- *.
    unfold outcome in Hret. cbn [snd] in Hret. cbn [trace fst].
    apply process_channels_returned in Hret.
    cbn [data] in Hret. destruct Hret as [Hst' Hpages].
    rewrite app_nil_r. split; [exact Hst'|].
    rewrite !page_writes_app.
    replace (page_writes (flag_events ctx b)) with (@nil (Toc W * HtmlVars W))
      by (unfold flag_events;
          destruct (flag_checked (ctx_args ctx) b); reflexivity).
    replace (page_writes
               (if negb (Py.subset (map name (channels b))
                                   (ctx_completed ctx))
                then [block_read ctx b] else []))
      with (@nil (Toc W * HtmlVars W))
      by (destruct (negb (Py.subset _ _)); reflexivity).
    cbn [app]. fold (trace (process_channels W ctx b
                              (mkLoopState (analyzed st) (htmlv st)
                                           (block_data ctx b (data st)))
                              (channels b))).
    rewrite Hpages.
    apply (pages_after_with_data _ st).
Qed.

Lemma handled_blocks_cons :
  forall (ctx : Context W) (d : option (list (string * Series W)))
         (b : Block) (bs : list Block),
    handled_blocks ctx d (b :: bs)
    = (handled_blocks ctx d [b]
       ++ handled_blocks ctx (data_after ctx d [b]) bs)%list
    /\ data_after ctx d (b :: bs) = data_after ctx (data_after ctx d [b]) bs.
Proof.
  intros ctx d b bs. cbn [handled_blocks data_after].
  destruct (skipped W (ctx_args ctx) (ctx_gps ctx) b).
  - split; reflexivity.
  - rewrite app_nil_r. split; reflexivity.
Qed.

(** The loop over the blocks. *)
Lemma process_blocks_returned :
  forall (ctx : Context W) (bs : list Block) (st st' : LoopState W),
    outcome (process_blocks W ctx st bs) = Returned st' ->
    st' = reported_all (with_data st (data_after ctx (data st) bs))
                       (handled_blocks ctx (data st) bs) /\
    page_writes (trace (process_blocks W ctx st bs))
    = pages_after st (handled_blocks ctx (data st) bs).
Proof.
  intros ctx bs. induction bs as [|b bs IH]; intros st st' Hret.
  - cbn in Hret. injection Hret as <-. cbn [data_after handled_blocks].
    rewrite with_data_same. split; reflexivity.
  - cbn [process_blocks] in Hret |- *.
    apply bind_returned in Hret.
    destruct Hret as [st1 [Hb [Hbs Htr]]].
    rewrite Htr, page_writes_app.
    destruct (process_block_returned ctx b st st1 Hb) as [Hst1 Hpage].
    destruct (IH st1 st' Hbs) as [Hst' Hpages].
    destruct (handled_blocks_cons ctx (data st) b bs) as [-> ->].
    assert (Hd : data st1 = data_after ctx (data st) [b]).
    { rewrite Hst1. now rewrite reported_all_data. }
    rewrite Hpage, Hpages, Hst', Hd.
    rewrite reported_all_app, pages_after_app.
    rewrite Hst1 at 1 2.
    rewrite !reported_all_with_data, pages_after_with_data.
    split; reflexivity.
Qed.

(** [update_toc] adds the channel and keeps the others. *)
Lemma listed_update_toc :
  forall (t : Toc W) (a : Analyzed W) (nm : string),
    Permutation (listed (update_toc t a nm)) (listed t ++ [a]).
Proof.
  induction t as [|[k e] t IH]; intros a nm; cbn [update_toc].
  - apply Permutation_refl.
  - destruct (String.eqb k (section (channel a))).
    + unfold listed. cbn [flat_map snd toc_channels].
      rewrite <- !app_assoc. apply Permutation_app_head.
      apply Permutation_app_comm.
    + unfold listed in *. cbn [flat_map snd].
      rewrite <- app_assoc. apply Permutation_app_head. apply IH.
Qed.

Lemma update_toc_truthy :
  forall (t : Toc W) (a : Analyzed W) (nm : string),
    Py.list_truthy (update_toc t a nm) = true.
Proof.
  intros [|[k e] t] a nm; cbn [update_toc]; [reflexivity|].
  destruct (String.eqb k (section (channel a))); reflexivity.
Qed.

Lemma Forall2_map_right :
  forall (A B C : Type) (R : A -> C -> Prop) (f : B -> C)
         (l : list A) (l' : list B),
    Forall2 (fun x y => R x (f y)) l l' -> Forall2 R l (map f l').
Proof.
  intros A B C R f l l' H. induction H; cbn [map]; constructor; auto.
Qed.

(** The page written after each channel lists the channels so far, and
    keeps the page variables but for its table of contents. *)
Lemma pages_after_lists :
  forall (hs : list (Analyzed W * string)) (st : LoopState W),
    Forall2
      (fun page pre =>
         Permutation (listed (fst page))
                     (listed (analyzed st) ++ map fst pre)
         /\ toc (snd page) = Some (fst page)
         /\ refresh (snd page) = refresh (htmlv st))
      (pages_after st hs) (prefixes hs).
Proof.
  induction hs as [|[a nm] hs IH]; intro st; cbn [pages_after prefixes].
  - constructor.
  - constructor.
    + cbn [fst snd map]. unfold reported. cbn [analyzed htmlv].
      split; [apply listed_update_toc|]. split; reflexivity.
    + apply Forall2_map_right.
      eapply Forall2_impl; [|apply (IH (reported st a nm))].
      intros page pre [Hperm [Htoc Href]]. cbn [map fst].
      split; [|split; [exact Htoc|exact Href]].
      eapply Permutation_trans; [exact Hperm|].
      unfold reported. cbn [analyzed].
      change (listed (analyzed st) ++ a :: map fst pre)%list
        with (listed (analyzed st) ++ [a] ++ map fst pre)%list.
      rewrite app_assoc. apply Permutation_app_tail.
      apply listed_update_toc.
Qed.

Lemma reported_all_lists :
  forall (hs : list (Analyzed W * string)) (st : LoopState W),
    Permutation (listed (analyzed (reported_all st hs)))
                (listed (analyzed st) ++ map fst hs)
    /\ refresh (htmlv (reported_all st hs)) = refresh (htmlv st)
    /\ (hs <> [] -> Py.list_truthy (analyzed (reported_all st hs)) = true)
    /\ (hs = [] -> reported_all st hs = st).
Proof.
  induction hs as [|[a nm] hs IH]; intro st; cbn [reported_all map].
  - rewrite app_nil_r. repeat split; auto.
  - destruct (IH (reported st a nm)) as [Hperm [Href [Htruthy _]]].
    split; [|split; [|split]].
    + eapply Permutation_trans; [exact Hperm|].
      unfold reported. cbn [analyzed fst].
      change (listed (analyzed st) ++ a :: map fst hs)%list
        with (listed (analyzed st) ++ [a] ++ map fst hs)%list.
      rewrite app_assoc. apply Permutation_app_tail.
      apply listed_update_toc.
    + rewrite Href. reflexivity.
    + intros _. destruct hs as [|x hs'].
      * cbn [reported_all]. unfold reported. cbn [analyzed].
        apply update_toc_truthy.
      * apply Htruthy. discriminate.
    + discriminate.
Qed.

End Pages.

(** ** The matched filter and the whole run *)

Section Run.

Context {W : World}.

Lemma process_primary_spec :
  forall (args : Args) (gps : Q) (prim : option Primary) (h : HtmlVars W),
    process_primary W args gps prim h =
    if negb (disable_correlation args) then
      match prim with
      | Some p =>
          (primary_events args gps p,
           Returned (Some (matched_filter W args gps p),
                     set_correlated h (name (primary_channel p))))
      | None => ([], Raised (UnboundLocalError "primary"))
      end
    else ([], Returned (None, h)).
Proof.
  intros args gps prim h. unfold process_primary.
  destruct (negb (disable_correlation args)); [|reflexivity].
  destruct prim as [p|]; reflexivity.
Qed.

Lemma process_primary_refresh :
  forall (args : Args) (gps : Q) (prim : option Primary) (h : HtmlVars W)
         (correlate : option (Series W)) (h1 : HtmlVars W),
    outcome (process_primary W args gps prim h) = Returned (correlate, h1) ->
    refresh h1 = refresh h.
Proof.
  intros args gps prim h correlate h1. rewrite process_primary_spec.
  destruct (negb (disable_correlation args)).
  - destruct prim; [|discriminate]. intro H. injection H as _ <-.
    reflexivity.
  - intro H. injection H as _ <-. reflexivity.
Qed.

Lemma launch_trace :
  forall (s : Setup W),
    trace (launch W s) =
    (EWriteQscanPage (su_ifo s) (su_gps s) [] (su_htmlv s)
     :: ELog Info "Launching omega scans"
     :: trace (process_primary W (su_args s) (su_gps s) (su_primary s)
                               (su_htmlv s))
     ++ match outcome (process_primary W (su_args s) (su_gps s)
                                       (su_primary s) (su_htmlv s)) with
        | Returned ch =>
            trace (process_blocks W (context W s (fst ch))
                                  (mkLoopState [] (snd ch) None)
                                  (su_blocks s))
            ++ match outcome (process_blocks W (context W s (fst ch))
                                (mkLoopState [] (snd ch) None)
                                (su_blocks s)) with
               | Returned st => trace (finalize W (context W s (fst ch)) st)
               | Raised _ => []
               end
        | Raised _ => []
        end)%list.
Proof.
  intro s. unfold launch. run_m.
  destruct (outcome (process_primary W _ _ _ _)); run_m; reflexivity.
Qed.

Lemma launch_outcome :
  forall (s : Setup W),
    outcome (launch W s) =
    match outcome (process_primary W (su_args s) (su_gps s)
                                   (su_primary s) (su_htmlv s)) with
    | Returned ch =>
        match outcome (process_blocks W (context W s (fst ch))
                         (mkLoopState [] (snd ch) None) (su_blocks s)) with
        | Returned st => outcome (finalize W (context W s (fst ch)) st)
        | Raised e => Raised e
        end
    | Raised e => Raised e
    end.
Proof.
  intro s. unfold launch. run_m.
  destruct (outcome (process_primary W _ _ _ _)); run_m; reflexivity.
Qed.

Lemma finalize_spec :
  forall (ctx : Context W) (st : LoopState W),
    finalize W ctx st =
    if Py.list_truthy (analyzed st) then
      ([EWriteQscanPage (ctx_ifo ctx) (ctx_gps ctx) (analyzed st)
                        (set_refresh (htmlv st) false);
        ELog Info "-- index.html written, all done --"], Returned tt)
    else
      match ctx_ifo ctx with
      | Some i =>
          ([EWriteNullPage (ctx_ifo ctx) (ctx_gps ctx)
              "No significant channels found during active analysis segments"
              (Py.lower i);
            ELog Info "-- index.html written, all done --"], Returned tt)
      | None =>
          ([], Raised (AttributeError
                         "'NoneType' object has no attribute 'lower'"))
      end.
Proof.
  intros ctx st. unfold finalize.
  destruct (Py.list_truthy (analyzed st)); [reflexivity|].
  destruct (ctx_ifo ctx); reflexivity.
Qed.

End Run.

(** C4.  In a run that completes, one page is written after each channel
    that is restored from the checkpoint or scanned as significant, and
    at no other point of the loop: the page after the [k]-th such channel
    lists exactly the first [k] of them, carries that table of contents
    in its variables and still refreshes itself.  After the last block
    comes one more page: the report with every analyzed channel and
    auto-refresh off or, when no channel was analyzed, the null page. *)
Theorem report_follows_channels :
  forall (W : World) (args : Args),
    outcome (main W args) = Returned tt ->
    exists (s : Setup W) (correlate : option (Series W)) (h1 : HtmlVars W)
           (st' : LoopState W),
      outcome (set_up W args) = Returned s
      /\ outcome (process_primary W (su_args s) (su_gps s) (su_primary s)
                                  (su_htmlv s))
         = Returned (correlate, h1)
      /\ let ctx := context W s correlate in
         let st0 := mkLoopState [] h1 None in
         let hs := handled_blocks ctx None (su_blocks s) in
         outcome (process_blocks W ctx st0 (su_blocks s)) = Returned st'
         /\ page_writes (trace (process_blocks W ctx st0 (su_blocks s)))
            = pages_after st0 hs
         /\ Forall2
              (fun page pre =>
                 Permutation (listed (fst page)) (map fst pre)
                 /\ toc (snd page) = Some (fst page)
                 /\ refresh (snd page) = true)
              (pages_after st0 hs) (prefixes hs)
         /\ Permutation (listed (analyzed st')) (map fst hs)
         /\ trace (finalize W ctx st')
            = [final_page ctx st' hs;
               ELog Info "-- index.html written, all done --"]
         /\ trace (main W args)
            = (trace (set_up W args)
               ++ EWriteQscanPage (su_ifo s) (su_gps s) [] (su_htmlv s)
               :: ELog Info "Launching omega scans"
               :: trace (process_primary W (su_args s) (su_gps s)
                                         (su_primary s) (su_htmlv s))
               ++ trace (process_blocks W ctx st0 (su_blocks s))
               ++ trace (finalize W ctx st'))%list.
Proof.
  intros W args Hmain. unfold main in Hmain.
  apply bind_returned in Hmain. destruct Hmain as [s [Hs [Hl Htr]]].
  pose proof (launch_trace s) as Hlt.
  rewrite launch_outcome in Hl.
  destruct (outcome (process_primary W (su_args s) (su_gps s) (su_primary s)
                                     (su_htmlv s)))
    as [[correlate h1]|e] eqn:Hprim; [|discriminate].
  cbn [fst snd] in Hl, Hlt.
  destruct (outcome (process_blocks W (context W s correlate)
                       (mkLoopState [] h1 None) (su_blocks s)))
    as [st'|e] eqn:Hloop; [|discriminate].
  exists s, correlate, h1, st'.
  split; [exact Hs|]. split; [exact Hprim|]. cbv zeta.
  destruct (process_blocks_returned _ _ _ _ Hloop) as [Hst' Hpages].
  cbn [data] in Hst', Hpages.
  set (ctx := context W s correlate) in *.
  set (st0 := mkLoopState [] h1 None) in *.
  set (hs := handled_blocks ctx None (su_blocks s)) in *.
  assert (Href : refresh h1 = true).
  { rewrite (process_primary_refresh _ _ _ _ _ _ Hprim).
    apply set_up_returned in Hs.
    destruct Hs as [_ [_ [_ [_ [_ [-> _]]]]]]. reflexivity. }
  assert (Hifo : ctx_ifo ctx = Some "Network"%string).
  { apply set_up_returned in Hs.
    destruct Hs as [_ [Hi _]]. subst ctx. unfold context.
    cbn [ctx_ifo]. rewrite Hi. reflexivity. }
  destruct (reported_all_lists hs (with_data st0 (data_after ctx None
                                                     (su_blocks s))))
    as [Hperm [_ [Htruthy Hnil]]].
  rewrite <- Hst' in Hperm, Htruthy, Hnil.
  split; [exact Hloop|]. split; [exact Hpages|]. split; [|split; [|split]].
  - eapply Forall2_impl; [|apply (pages_after_lists hs st0)].
    intros page pre [Hp [Ht Hr]]. cbn [analyzed st0 listed app htmlv] in *.
    unfold listed in Hp. cbn [flat_map app] in Hp.
    repeat split; auto. rewrite Hr. exact Href.
  - exact Hperm.
  - rewrite finalize_spec. unfold final_page. rewrite Hifo.
    destruct hs as [|x hs'] eqn:Hhs.
    + rewrite (Hnil eq_refl). reflexivity.
    + rewrite Htruthy by discriminate. reflexivity.
  - unfold main. rewrite Htr, Hlt. reflexivity.
Qed.

(** ** Properties of every event of a run *)

Section Everywhere.

Context {W : World}.

Variable P : Event W -> Prop.

(** [P] holds of every event that is neither a scan nor a
    cross-correlation. *)
Hypothesis P_other :
  forall e, is_scan e = false -> is_correlate e = false -> P e.

Lemma Forall_process_channels :
  forall (ctx : Context W) (b : Block),
    (forall st c, Forall P (trace (process_channel W ctx b st c))) ->
    forall cs st, Forall P (trace (process_channels W ctx b st cs)).
Proof.
  intros ctx b Hstep cs. induction cs as [|c cs IH]; intro st;
    cbn [process_channels].
  - constructor.
  - apply Forall_trace_bind; [apply Hstep|]. intros st' _. apply IH.
Qed.

Lemma Forall_process_blocks :
  forall (ctx : Context W),
    (forall b st c, Forall P (trace (process_channel W ctx b st c))) ->
    forall bs st, Forall P (trace (process_blocks W ctx st bs)).
Proof.
  intros ctx Hstep bs. induction bs as [|b bs IH]; intro st;
    cbn [process_blocks].
  - constructor.
  - apply Forall_trace_bind; [|intros st' _; apply IH].
    unfold process_block, read_block.
    forall_trace; try (apply P_other; reflexivity).
    apply Forall_process_channels. apply Hstep.
Qed.

Lemma Forall_make_subdirectories :
  forall (cwd : string) (ds : list string),
    Forall P (trace (make_subdirectories W cwd ds)).
Proof.
  intros cwd ds. induction ds as [|d ds IH]; cbn [make_subdirectories].
  - constructor.
  - forall_trace; try (apply P_other; reflexivity). exact IH.
Qed.

Lemma Forall_set_up :
  forall (args : Args), Forall P (trace (set_up W args)).
Proof.
  intro args. unfold set_up, parse_primary, determine_checkpoints.
  forall_trace; apply P_other; reflexivity.
Qed.

Lemma Forall_process_primary :
  forall (args : Args) (gps : Q) (prim : option Primary) (h : HtmlVars W),
    Forall P (trace (process_primary W args gps prim h)).
Proof.
  intros args gps prim h. unfold process_primary.
  forall_trace; apply P_other; reflexivity.
Qed.

Lemma Forall_main :
  forall (args : Args),
    (forall s correlate h b st c,
        outcome (set_up W args) = Returned s ->
        outcome (process_primary W (su_args s) (su_gps s) (su_primary s)
                                 (su_htmlv s)) = Returned (correlate, h) ->
        Forall P (trace (process_channel W (context W s correlate) b st c)))
    ->
    Forall P (trace (main W args)).
Proof.
  intros args Hstep. unfold main.
  apply Forall_trace_bind; [apply Forall_set_up|].
  intros s Hs. unfold launch.
  apply Forall_trace_bind; [apply Forall_trace_emit, P_other; reflexivity|].
  intros _ _.
  apply Forall_trace_bind; [apply Forall_trace_emit, P_other; reflexivity|].
  intros _ _.
  apply Forall_trace_bind; [apply Forall_process_primary|].
  intros [correlate h] Hprim. cbn [fst snd].
  apply Forall_trace_bind.
  - apply Forall_process_blocks. intros b st c. now apply (Hstep s correlate h).
  - intros st' _. unfold finalize.
    forall_trace; apply P_other; reflexivity.
Qed.

End Everywhere.

Section Resume.

Context {W : World}.

Lemma process_channel_scans_new :
  forall (ctx : Context W) (b : Block) (st : LoopState W) (c : OmegaChannel),
    Forall (scans_new (ctx_completed ctx))
           (trace (process_channel W ctx b st c)).
Proof.
  intros ctx b st c. unfold process_channel, report_channel, scan_channel.
  destruct (Py.in_ (name c) (ctx_completed ctx)) eqn:Hin;
    forall_trace; try exact I. exact Hin.
Qed.

Lemma in_index :
  forall (x : string) (l : list string),
    Py.in_ x l = true ->
    exists i, Py.index x l = Some i /\ nth_error l i = Some x /\
              forall j, (j < i)%nat -> nth_error l j <> Some x.
Proof.
  intros x l. induction l as [|y l IH]; cbn [Py.in_ existsb Py.index].
  - discriminate.
  - rewrite String.eqb_sym.
    destruct (String.eqb_spec y x) as [->|Hne]; cbn [orb].
    + intros _. exists O. repeat split; auto. intros j Hj. lia.
    + intro Hin. destruct (IH Hin) as [i [Hidx [Hnth Hfirst]]].
      exists (S i). rewrite Hidx. repeat split; auto.
      intros [|j] Hj; cbn [nth_error].
      * intro H. injection H as H. contradiction.
      * apply Hfirst. lia.
Qed.

(** Row [i] of a table whose ['Channel'] column has [x] at position
    [i]. *)
Lemma column_row :
  forall (t : Table) (comp : list string) (i : nat) (x : string),
    column t "Channel" = Some comp ->
    nth_error comp i = Some x ->
    exists r ci,
      Py.index "Channel" (colnames t) = Some ci /\
      nth_error (rows t) i = Some r /\
      nth ci r ""%string = x /\
      getitem_row t i = Some (combine (colnames t) r).
Proof.
  intros t comp i x Hcol Hnth. unfold column in Hcol.
  destruct (Py.index "Channel" (colnames t)) as [ci|]; [|discriminate].
  injection Hcol as <-. rewrite nth_error_map in Hnth.
  destruct (nth_error (rows t) i) as [r|] eqn:Hr; [|discriminate].
  injection Hnth as Hx. exists r, ci. unfold getitem_row. rewrite Hr.
  repeat split; auto.
Qed.

(** What the set-up leaves of a checkpoint that is read. *)
Lemma checkpoint_read :
  forall (args : Args) (s : Setup W),
    outcome (set_up W args) = Returned s ->
    path_exists W (get_outdir W args) summary_path = true ->
    disable_checkpoint args = false ->
    su_record s = table_read W (get_outdir W args) summary_path /\
    column (su_record s) "Channel" = Some (su_completed s).
Proof.
  intros args s Hs Hex Hck.
  apply set_up_returned in Hs.
  destruct Hs as [Hargs [_ [_ [_ [_ [_ Hdc]]]]]].
  rewrite determine_checkpoints_spec in Hdc. cbv zeta in Hdc.
  assert (Hck' : disable_checkpoint (su_args s) = false).
  { rewrite Hargs. unfold primary_result.
    destruct (negb (disable_correlation args)); [|exact Hck].
    destruct (primary_section _); exact Hck. }
  rewrite Hex, Hck' in Hdc. cbn [negb andb] in Hdc.
  destruct (column _ "Channel") as [comp|] eqn:Hcol; [|discriminate].
  destruct (negb (disable_correlation (su_args s)) && _)%bool;
    [discriminate|].
  unfold outcome in Hdc. cbn [snd] in Hdc.
  injection Hdc as Hrec Hcomp. rewrite <- Hrec. split; [reflexivity|].
  rewrite Hcol. now rewrite Hcomp.
Qed.

(** A step for a channel of the checkpoint that ends normally found the
    channel's block. *)
Lemma process_channel_returned_block :
  forall (ctx : Context W) (b : Block) (st st' : LoopState W)
         (c : OmegaChannel),
    outcome (process_channel W ctx b st c) = Returned st' ->
    Py.in_ (name c) (ctx_completed ctx) = true ->
    exists blk, getitem_block (ctx_blocks ctx) (section c) = Some blk.
Proof.
  intros ctx b st st' c Hret Hin.
  destruct (getitem_block (ctx_blocks ctx) (section c)) as [blk|] eqn:Hb;
    [eauto|].
  exfalso. revert Hret.
  unfold process_channel, report_channel. rewrite Hin. run_m.
  destruct (Py.index _ _); [|discriminate]. cbn [expect]. run_m.
  destruct (getitem_row _ _); [|discriminate]. cbn [expect]. run_m.
  cbn [channel]. rewrite Hb. discriminate.
Qed.

End Resume.

(** ** The run, block by block and channel by channel *)

Section Positions.

Context {W : World}.

Lemma process_channels_app :
  forall (ctx : Context W) (b : Block) (l1 l2 : list OmegaChannel)
         (st st' : LoopState W),
    outcome (process_channels W ctx b st (l1 ++ l2)) = Returned st' ->
    exists st1,
      outcome (process_channels W ctx b st l1) = Returned st1
      /\ outcome (process_channels W ctx b st1 l2) = Returned st'
      /\ trace (process_channels W ctx b st (l1 ++ l2))
         = (trace (process_channels W ctx b st l1)
            ++ trace (process_channels W ctx b st1 l2))%list.
Proof.
  intros ctx b l1. induction l1 as [|c l1 IH]; intros l2 st st' Hret.
  - exists st. cbn. auto.
  - cbn [app process_channels] in Hret |- *.
    apply bind_returned in Hret. destruct Hret as [sta [Hc [Hrest Htr]]].
    destruct (IH l2 sta st' Hrest) as [st1 [H1 [H2 Ht]]].
    exists st1. rewrite outcome_bind, Hc. split; [exact H1|].
    split; [exact H2|].
    rewrite Htr, Ht, (trace_bind _ _ (process_channel W ctx b st c)), Hc.
    now rewrite app_assoc.
Qed.

Lemma process_channels_one :
  forall (ctx : Context W) (b : Block) (c : OmegaChannel)
         (st st' : LoopState W),
    outcome (process_channels W ctx b st [c]) = Returned st' ->
    outcome (process_channel W ctx b st c) = Returned st'
    /\ trace (process_channels W ctx b st [c])
       = trace (process_channel W ctx b st c).
Proof.
  intros ctx b c st st' Hret. cbn [process_channels] in Hret |- *.
  apply bind_returned in Hret. destruct Hret as [sta [Hc [Hrest Htr]]].
  cbn in Hrest. injection Hrest as ->. split; [exact Hc|].
  rewrite Htr. cbn. apply app_nil_r.
Qed.

Lemma process_blocks_app :
  forall (ctx : Context W) (l1 l2 : list Block) (st st' : LoopState W),
    outcome (process_blocks W ctx st (l1 ++ l2)) = Returned st' ->
    exists st1,
      outcome (process_blocks W ctx st l1) = Returned st1
      /\ outcome (process_blocks W ctx st1 l2) = Returned st'
      /\ trace (process_blocks W ctx st (l1 ++ l2))
         = (trace (process_blocks W ctx st l1)
            ++ trace (process_blocks W ctx st1 l2))%list.
Proof.
  intros ctx l1. induction l1 as [|b l1 IH]; intros l2 st st' Hret.
  - exists st. cbn. auto.
  - cbn [app process_blocks] in Hret |- *.
    apply bind_returned in Hret. destruct Hret as [sta [Hb [Hrest Htr]]].
    destruct (IH l2 sta st' Hrest) as [st1 [H1 [H2 Ht]]].
    exists st1. rewrite outcome_bind, Hb. split; [exact H1|].
    split; [exact H2|].
    rewrite Htr, Ht, (trace_bind _ _ (process_block W ctx st b)), Hb.
    now rewrite app_assoc.
Qed.

Lemma process_blocks_one :
  forall (ctx : Context W) (b : Block) (st st' : LoopState W),
    outcome (process_blocks W ctx st [b]) = Returned st' ->
    outcome (process_block W ctx st b) = Returned st'
    /\ trace (process_blocks W ctx st [b])
       = trace (process_block W ctx st b).
Proof.
  intros ctx b st st' Hret. cbn [process_blocks] in Hret |- *.
  apply bind_returned in Hret. destruct Hret as [sta [Hb [Hrest Htr]]].
  cbn in Hrest. injection Hrest as ->. split; [exact Hb|].
  rewrite Htr. cbn. apply app_nil_r.
Qed.

(** The loop's variables after some blocks. *)
Lemma process_blocks_state :
  forall (ctx : Context W) (bs : list Block) (st st' : LoopState W),
    outcome (process_blocks W ctx st bs) = Returned st' ->
    st' = state_after ctx st bs.
Proof.
  intros ctx bs st st' Hret.
  now destruct (process_blocks_returned ctx bs st st' Hret).
Qed.

(** The loop's variables after some channels of a block. *)
Lemma process_channels_state :
  forall (ctx : Context W) (b : Block) (cs : list OmegaChannel)
         (st st' : LoopState W),
    outcome (process_channels W ctx b (state_before ctx st b []) cs)
    = Returned st' ->
    st' = state_before ctx st b cs.
Proof.
  intros ctx b cs st st' Hret.
  destruct (process_channels_returned ctx b cs _ st' Hret) as [-> _].
  reflexivity.
Qed.

Lemma state_before_data :
  forall (ctx : Context W) (st : LoopState W) (b : Block)
         (cs : list OmegaChannel),
    data (state_before ctx st b cs) = block_data ctx b (data st).
Proof.
  intros ctx st b cs. unfold state_before. cbv zeta.
  now rewrite reported_all_data.
Qed.

(** The data of a block with a channel that is not completed are read. *)
Lemma block_data_read :
  forall (ctx : Context W) (b : Block) (c : OmegaChannel)
         (d : option (list (string * Series W))),
    In c (channels b) ->
    Py.in_ (name c) (ctx_completed ctx) = false ->
    block_data ctx b d = Some (block_dict ctx b).
Proof.
  intros ctx b c d Hc Hin. unfold block_data, block_dict.
  assert (Hsub : Py.subset (map name (channels b)) (ctx_completed ctx)
                 = false).
  { unfold Py.subset.
    destruct (forallb (fun x => Py.in_ x (ctx_completed ctx))
                      (map name (channels b))) eqn:Hall; [|reflexivity].
    rewrite forallb_forall in Hall.
    rewrite (Hall (name c) (in_map name _ c Hc)) in Hin.
    discriminate Hin. }
  now rewrite Hsub.
Qed.

(** How the step of a channel outside the checkpoint can end normally. *)
Lemma process_channel_scanned :
  forall (ctx : Context W) (b : Block) (st st' : LoopState W)
         (c : OmegaChannel),
    Py.in_ (name c) (ctx_completed ctx) = false ->
    outcome (process_channel W ctx b st c) = Returned st' ->
    (exists series blk,
        scan_outcome ctx b (data st) c = Returned (Some series)
        /\ getitem_block (ctx_blocks ctx) (section c) = Some blk)
    \/ scan_outcome ctx b (data st) c = Returned None
    \/ (exists e, scan_outcome ctx b (data st) c = Raised e
                  /\ is_value_or_key_error e = true).
Proof.
  intros ctx b st st' c Hin. rewrite <- scan_channel_outcome.
  unfold process_channel, report_channel. rewrite Hin.
  destruct (scan_channel W ctx b st c) as [ts [[series|]|e]].
  - destruct (getitem_block (ctx_blocks ctx) (section c)) as [blk|] eqn:Hb.
    + intros _. left. exists series, blk. split; reflexivity.
    + destruct (ctx_correlate ctx); cbn; rewrite Hb; cbn; discriminate.
  - intros _. right. left. reflexivity.
  - destruct (is_value_or_key_error e) eqn:Hc.
    + intros _. right. right. exists e. split; [reflexivity|exact Hc].
    + cbn. rewrite Hc. cbn. discriminate.
Qed.

(** A run that completes: its parts. *)
Lemma main_parts :
  forall (args : Args),
    outcome (main W args) = Returned tt ->
    exists (s : Setup W) (correlate : option (Series W)) (h : HtmlVars W),
      let ctx := context W s correlate in
      let st0 := mkLoopState [] h None in
      outcome (set_up W args) = Returned s
      /\ outcome (process_primary W (su_args s) (su_gps s) (su_primary s)
                                  (su_htmlv s))
         = Returned (correlate, h)
      /\ outcome (process_blocks W ctx st0 (su_blocks s))
         = Returned (state_after ctx st0 (su_blocks s))
      /\ trace (main W args)
         = (run_opening args s
            ++ trace (process_blocks W ctx st0 (su_blocks s))
            ++ trace (finalize W ctx (state_after ctx st0 (su_blocks s))))%list.
Proof.
  intros args Hmain. unfold main in Hmain |- *.
  apply bind_returned in Hmain. destruct Hmain as [s [Hs [Hl Htr]]].
  pose proof (launch_trace s) as Hlt.
  rewrite launch_outcome in Hl.
  destruct (outcome (process_primary W (su_args s) (su_gps s) (su_primary s)
                                     (su_htmlv s)))
    as [[correlate h]|e] eqn:Hprim; [|discriminate].
  cbn [fst snd] in Hl, Hlt.
  destruct (outcome (process_blocks W (context W s correlate)
                       (mkLoopState [] h None) (su_blocks s)))
    as [st'|e] eqn:Hloop; [|discriminate].
  exists s, correlate, h. cbv zeta.
  pose proof (process_blocks_state _ _ _ _ Hloop) as Hst.
  split; [exact Hs|]. split; [exact Hprim|]. split.
  - rewrite Hloop. now rewrite <- Hst.
  - rewrite Htr, Hlt, <- Hst. unfold run_opening.
    repeat rewrite <- app_assoc. cbn [app]. reflexivity.
Qed.

(** The place of a block in the loop. *)
Lemma block_position :
  forall (ctx : Context W) (st0 st_end : LoopState W)
         (bpre bpost : list Block) (b : Block),
    outcome (process_blocks W ctx st0 (bpre ++ b :: bpost)) = Returned st_end ->
    let st := state_after ctx st0 bpre in
    let st' := state_after ctx st0 (bpre ++ [b]) in
    outcome (process_block W ctx st b) = Returned st'
    /\ trace (process_blocks W ctx st0 (bpre ++ b :: bpost))
       = (trace (process_blocks W ctx st0 bpre)
          ++ trace (process_block W ctx st b)
          ++ trace (process_blocks W ctx st' bpost))%list.
Proof.
  intros ctx st0 st_end bpre bpost b Hret st st'. subst st st'.
  assert (Hlist : (bpre ++ b :: bpost = (bpre ++ [b]) ++ bpost)%list)
    by (rewrite <- app_assoc; reflexivity).
  rewrite Hlist in Hret |- *.
  destruct (process_blocks_app ctx _ _ _ _ Hret) as [st2 [H12 [Hpost Ht]]].
  destruct (process_blocks_app ctx _ _ _ _ H12) as [st1 [H1 [Hb Ht1]]].
  destruct (process_blocks_one ctx _ _ _ Hb) as [Hb1 Htb].
  rewrite (process_blocks_state _ _ _ _ H12) in *.
  rewrite (process_blocks_state _ _ _ _ H1) in *.
  split; [exact Hb1|].
  rewrite Ht, Ht1, Htb. now rewrite <- app_assoc.
Qed.

(** The place of a channel in its block. *)
Lemma channel_position :
  forall (ctx : Context W) (st st' : LoopState W) (b : Block)
         (cpre cpost : list OmegaChannel) (c : OmegaChannel),
    skipped W (ctx_args ctx) (ctx_gps ctx) b = false ->
    channels b = (cpre ++ c :: cpost)%list ->
    outcome (process_block W ctx st b) = Returned st' ->
    let st_c := state_before ctx st b cpre in
    let st_c' := state_before ctx st b (cpre ++ [c]) in
    outcome (process_channel W ctx b st_c c) = Returned st_c'
    /\ trace (process_block W ctx st b)
       = (block_opening ctx b
          ++ trace (process_channels W ctx b (state_before ctx st b []) cpre)
          ++ trace (process_channel W ctx b st_c c)
          ++ trace (process_channels W ctx b st_c' cpost))%list.
Proof.
  intros ctx st st' b cpre cpost c Hsk Hcs Hret st_c st_c'.
  subst st_c st_c'.
  pose proof (process_block_processed ctx st b Hsk) as Heq.
  cbv zeta in Heq. rewrite Heq in Hret |- *.
  unfold outcome in Hret. cbn [snd] in Hret. cbn [trace fst].
  change (mkLoopState (analyzed st) (htmlv st) (block_data ctx b (data st)))
    with (state_before ctx st b []) in *.
  fold (outcome (process_channels W ctx b (state_before ctx st b [])
                   (channels b))) in Hret.
  fold (trace (process_channels W ctx b (state_before ctx st b [])
                 (channels b))).
  assert (Hlist : (cpre ++ c :: cpost = (cpre ++ [c]) ++ cpost)%list)
    by (rewrite <- app_assoc; reflexivity).
  assert (Hall : process_channels W ctx b (state_before ctx st b [])
                                  (channels b)
                 = process_channels W ctx b (state_before ctx st b [])
                                    ((cpre ++ [c]) ++ cpost))
    by (rewrite <- Hlist, <- Hcs; reflexivity).
  rewrite Hall in Hret |- *.
  destruct (process_channels_app ctx b _ _ _ _ Hret) as [st2 [H12 [Hpost Ht]]].
  destruct (process_channels_app ctx b _ _ _ _ H12) as [st1 [H1 [Hc Ht1]]].
  destruct (process_channels_one ctx b _ _ _ Hc) as [Hc1 Htc].
  rewrite (process_channels_state _ _ _ _ _ H12) in *.
  rewrite (process_channels_state _ _ _ _ _ H1) in *.
  split; [exact Hc1|].
  rewrite Ht, Ht1, Htc. unfold block_opening.
  repeat rewrite <- app_assoc. reflexivity.
Qed.

End Positions.

(** C1, as amended.  When the checkpoint file exists, checkpointing is
    not disabled and the run completes: the record read is that file and
    the completed channels are its ['Channel'] column; no channel of that
    column is ever scanned; and the run is its opening, the loop over the
    blocks and the last page, where, for the block at each position of
    the configuration --
    a block that is skipped for its state flag contributes the query of
    the flag and the message that it is skipped, and nothing else: the
    loop goes on with the variables it had, so the channels of the block
    are neither restored nor scanned;
    a block that is not skipped contributes its opening and the steps of
    its channels in order, and for its channel at each position: if the
    channel's name is in the column, the step logs the checkpoint,
    restores the channel from the first row that names it, adds it to
    the table of contents under its block's name and writes the page,
    and is nothing else; otherwise the step is a scan of the channel in
    the data read for this block: the scan is logged and called, and
    either it is significant, and the channel is plotted,
    cross-correlated when there is a matched filter, added to the table
    of contents and the page written, or it finds nothing or fails with
    [ValueError] or [KeyError], and the step ends with one warning and
    the loop's variables as they were. *)
Theorem checkpoint_resume :
  forall (W : World) (args : Args),
    outcome (main W args) = Returned tt ->
    path_exists W (get_outdir W args) summary_path = true ->
    disable_checkpoint args = false ->
    exists (s : Setup W) (correlate : option (Series W)) (h : HtmlVars W),
      let ctx := context W s correlate in
      let st0 := mkLoopState [] h None in
      outcome (set_up W args) = Returned s
      /\ outcome (process_primary W (su_args s) (su_gps s) (su_primary s)
                                  (su_htmlv s))
         = Returned (correlate, h)
      /\ su_record s = table_read W (get_outdir W args) summary_path
      /\ column (su_record s) "Channel" = Some (su_completed s)
      /\ Forall (scans_new (su_completed s)) (trace (main W args))
      /\ trace (main W args)
         = (run_opening args s
            ++ trace (process_blocks W ctx st0 (su_blocks s))
            ++ trace (finalize W ctx (state_after ctx st0 (su_blocks s))))%list
      /\ forall bpre b bpost,
           su_blocks s = (bpre ++ b :: bpost)%list ->
           let st := state_after ctx st0 bpre in
           (skipped W (su_args s) (su_gps s) b = true ->
            trace (process_blocks W ctx st0 (su_blocks s))
            = (trace (process_blocks W ctx st0 bpre)
               ++ skip_events ctx b
               ++ trace (process_blocks W ctx st bpost))%list)
           /\ (skipped W (su_args s) (su_gps s) b = false ->
               forall cpre c cpost,
                 channels b = (cpre ++ c :: cpost)%list ->
                 let st_c := state_before ctx st b cpre in
                 let st_c' := state_before ctx st b (cpre ++ [c]) in
                 trace (process_blocks W ctx st0 (su_blocks s))
                 = (trace (process_blocks W ctx st0 bpre)
                    ++ block_opening ctx b
                    ++ trace (process_channels W ctx b
                                (state_before ctx st b []) cpre)
                    ++ trace (process_channel W ctx b st_c c)
                    ++ trace (process_channels W ctx b st_c' cpost)
                    ++ trace (process_blocks W ctx
                                (state_after ctx st0 (bpre ++ [b])) bpost))%list
                 /\ (Py.in_ (name c) (su_completed s) = true ->
                     exists i r ci blk,
                       Py.index (name c) (su_completed s) = Some i
                       /\ nth_error (rows (su_record s)) i = Some r
                       /\ Py.index "Channel" (colnames (su_record s)) = Some ci
                       /\ nth ci r ""%string = name c
                       /\ (forall j r',
                              (j < i)%nat ->
                              nth_error (rows (su_record s)) j = Some r' ->
                              nth ci r' ""%string <> name c)
                       /\ getitem_block (su_blocks s) (section c) = Some blk
                       /\ let loaded :=
                            loaded_channel ctx c
                              (combine (colnames (su_record s)) r) in
                          st_c' = reported st_c loaded (block_name blk)
                          /\ process_channel W ctx b st_c c
                             = ([ELog Info (" -- Checkpointing " ++ name c
                                            ++ " from a previous run");
                                 EWriteQscanPage (su_ifo s) (su_gps s)
                                                 (analyzed st_c')
                                                 (htmlv st_c')],
                                Returned st_c')
                          /\ In loaded (listed (analyzed st_c')))
                 /\ (Py.in_ (name c) (su_completed s) = false ->
                     data st_c = Some (block_dict ctx b)
                     /\ ((exists series blk,
                             scan_outcome ctx b (Some (block_dict ctx b)) c
                             = Returned (Some series)
                             /\ getitem_block (su_blocks s) (section c)
                                = Some blk
                             /\ st_c' = reported st_c
                                          (saved_channel ctx b c series)
                                          (block_name blk)
                             /\ process_channel W ctx b st_c c
                                = (((ELog Info (" -- Scanning channel "
                                                ++ name c)
                                     :: trace (scan_channel W ctx b st_c c))
                                    ++ [ELog Info
                                          (" -- Plotting omega scan products for "
                                           ++ name c);
                                        EWriteQscanPlots
                                          (su_gps s) c
                                          (frequency_scaling (su_args s))
                                          (colormap (su_args s))]
                                    ++ match correlate with
                                       | Some _ =>
                                           [ELog Info
                                              (" -- Cross-correlating "
                                               ++ name c);
                                            ECrossCorrelate c]
                                       | None => []
                                       end
                                    ++ [EWriteQscanPage
                                          (su_ifo s) (su_gps s)
                                          (analyzed st_c') (htmlv st_c')])%list,
                                   Returned st_c'))
                         \/ (exists w,
                                (scan_outcome ctx b (Some (block_dict ctx b)) c
                                 = Returned None
                                 \/ exists e,
                                     scan_outcome ctx b
                                       (Some (block_dict ctx b)) c
                                     = Raised e
                                     /\ is_value_or_key_error e = true)
                                /\ is_warning w = true
                                /\ st_c' = st_c
                                /\ process_channel W ctx b st_c c
                                   = (((ELog Info (" -- Scanning channel "
                                                   ++ name c)
                                        :: trace (scan_channel W ctx b st_c c))
                                       ++ [w])%list,
                                      Returned st_c))))).
Proof.
  intros W args Hmain Hex Hck.
  destruct (main_parts args Hmain) as [s [correlate [h Hparts]]].
  cbv zeta in Hparts. destruct Hparts as [Hs [Hprim [Hloop Htrace]]].
  destruct (checkpoint_read args s Hs Hex Hck) as [Hrec Hcol].
  exists s, correlate, h. cbv zeta.
  set (ctx := context W s correlate) in *.
  set (st0 := mkLoopState [] h None) in *.
  split; [exact Hs|]. split; [exact Hprim|]. split; [exact Hrec|].
  split; [exact Hcol|]. split; [|split; [exact Htrace|]].
  - apply Forall_main.
    + intros [] Hscan Hcorr; try exact I. discriminate.
    + intros s0 correlate0 h0 b st c Hs0 _.
      assert (s0 = s) as -> by congruence.
      apply (process_channel_scans_new (context W s correlate0)).
  - intros bpre b bpost Hbs.
    rewrite Hbs in Hloop.
    destruct (block_position ctx st0 _ bpre bpost b Hloop) as [Hb Htb].
    rewrite <- Hbs in Htb.
    set (st := state_after ctx st0 bpre) in *.
    split.
    + intro Hsk.
      pose proof (process_block_skipped ctx st b Hsk) as Heq.
      rewrite Heq in Hb, Htb. cbn [trace fst] in Htb.
      unfold outcome in Hb. cbn [snd] in Hb. injection Hb as Hb.
      rewrite <- Hb in Htb. exact Htb.
    + intros Hsk cpre c cpost Hcs.
      destruct (channel_position ctx st _ b cpre cpost c Hsk Hcs Hb)
        as [Hc Htc].
      set (st_c := state_before ctx st b cpre) in *.
      set (st_c' := state_before ctx st b (cpre ++ [c])) in *.
      split; [|split].
      * rewrite Htb, Htc. repeat rewrite <- app_assoc. reflexivity.
      * intro Hin.
        destruct (in_index _ _ Hin) as [i [Hidx [Hnth Hfirst]]].
        destruct (column_row _ _ _ _ Hcol Hnth)
          as [r [ci [Hci [Hr [Hcell Hrow]]]]].
        destruct (process_channel_returned_block ctx b st_c st_c' c Hc Hin)
          as [blk Hblk].
        exists i, r, ci, blk.
        split; [exact Hidx|]. split; [exact Hr|]. split; [exact Hci|].
        split; [exact Hcell|]. split; [|split; [exact Hblk|]].
        -- intros j r' Hj Hr' Hcell'.
           apply (Hfirst j Hj).
           unfold column in Hcol. rewrite Hci in Hcol.
           injection Hcol as <-.
           rewrite nth_error_map, Hr'. cbn [option_map]. now rewrite Hcell'.
        -- cbv zeta.
           pose proof (process_channel_checkpoint ctx b st_c c i _ blk
                         Hin Hidx Hrow Hblk) as Heq.
           cbv zeta in Heq.
           assert (Hst : st_c'
                         = reported st_c
                             (loaded_channel ctx c
                                (combine (colnames (su_record s)) r))
                             (block_name blk)).
           { rewrite Heq in Hc. unfold outcome in Hc. cbn [snd] in Hc.
             now injection Hc as <-. }
           split; [exact Hst|]. split.
           ++ rewrite Heq, <- Hst. reflexivity.
           ++ rewrite Hst. unfold reported. cbn [analyzed].
              eapply Permutation_in;
                [apply Permutation_sym, listed_update_toc|].
              apply in_or_app. right. now left.
      * intro Hin.
        assert (Hc_in : In c (channels b))
          by (rewrite Hcs; apply in_or_app; right; now left).
        assert (Hdata : data st_c = Some (block_dict ctx b)).
        { subst st_c. rewrite state_before_data.
          exact (block_data_read ctx b c _ Hc_in Hin). }
        split; [exact Hdata|].
        destruct (process_channel_scanned ctx b st_c st_c' c Hin Hc)
          as [[series [blk [Hscan Hblk]]]|Hskip].
        -- left. exists series, blk.
           pose proof (process_channel_significant ctx b st_c c series blk
                         Hin Hscan Hblk) as Heq.
           cbv zeta in Heq.
           assert (Hst : st_c'
                         = reported st_c (saved_channel ctx b c series)
                                    (block_name blk)).
           { rewrite Heq in Hc. unfold outcome in Hc. cbn [snd] in Hc.
             now injection Hc as <-. }
           rewrite Hdata in Hscan.
           split; [exact Hscan|]. split; [exact Hblk|].
           split; [exact Hst|].
           rewrite Heq, <- Hst. reflexivity.
        -- right.
           assert (Hskip' :
                     scan_outcome ctx b (data st_c) c = Returned None \/
                     exists e, scan_outcome ctx b (data st_c) c = Raised e /\
                               is_value_or_key_error e = true)
             by exact Hskip.
           destruct (process_channel_skip ctx b st_c c Hin Hskip')
             as [w [Hw Heq]].
           exists w. rewrite Hdata in Hskip'.
           split; [exact Hskip'|]. split; [exact Hw|]. split; [|exact Heq].
           rewrite Heq in Hc. unfold outcome in Hc. cbn [snd] in Hc.
           now injection Hc as <-.
Qed.

(** ** Cross-correlation (C3) *)

Section Correlation.

Context {W : World}.

Lemma process_channel_no_correlate :
  forall (ctx : Context W) (b : Block) (st : LoopState W) (c : OmegaChannel),
    ctx_correlate ctx = None ->
    Forall (fun e => is_correlate e = false)
           (trace (process_channel W ctx b st c)).
Proof.
  intros ctx b st c Hnone.
  unfold process_channel, report_channel, scan_channel. rewrite Hnone.
  forall_trace; reflexivity.
Qed.

(** A significant scan with a matched filter: the channel is plotted,
    cross-correlated and saved with the correlation, then reported. *)
Lemma process_channel_correlated :
  forall (ctx : Context W) (b : Block) (st : LoopState W) (c : OmegaChannel)
         (series : Products W) (correlate : Series W),
    ctx_correlate ctx = Some correlate ->
    Py.in_ (name c) (ctx_completed ctx) = false ->
    outcome (scan_channel W ctx b st c) = Returned (Some series) ->
    let saved :=
      mkAnalyzed c
        (Saved (item3 W series)
               (Some (cross_correlate W (item2 W series) correlate,
                      ctx_gps ctx, dt b))) in
    process_channel W ctx b st c =
    (((ELog Info (" -- Scanning channel " ++ name c)
       :: trace (scan_channel W ctx b st c))
      ++ [ELog Info (" -- Plotting omega scan products for " ++ name c);
          EWriteQscanPlots (ctx_gps ctx) c
                           (frequency_scaling (ctx_args ctx))
                           (colormap (ctx_args ctx));
          ELog Info (" -- Cross-correlating " ++ name c);
          ECrossCorrelate c]
      ++ trace (report_channel W ctx st saved))%list,
     outcome (report_channel W ctx st saved)).
Proof.
  intros ctx b st c series correlate Hcorr Hin Hscan saved. subst saved.
  unfold process_channel. rewrite Hin, Hcorr.
  destruct (scan_channel W ctx b st c) as [ts [r|e]];
    unfold outcome in Hscan; cbn [snd] in Hscan; [|discriminate].
  injection Hscan as ->.
  cbn [try_except bind emit ret trace fst snd app outcome].
  destruct (report_channel W ctx st _) as [t' o'].
  cbn [trace outcome fst snd app].
  rewrite app_nil_r. reflexivity.
Qed.

End Correlation.

(** C3, as amended.  With correlation not disabled and a primary
    configured, once the set-up has returned (the checkpoint did not stop
    the run): the first page and the launch message are followed by the
    primary channel's data request, [omega.primary] and its plot; the
    loop runs with that matched filter; and every channel outside the
    checkpoint whose scan is significant is plotted, cross-correlated
    against the filter and reported with its loudest tile and that
    correlation.  Without a primary: the set-up warns, the run is the run
    of [--disable-correlation] with that one warning added, and no
    channel is cross-correlated. *)
Theorem cross_correlation :
  forall (W : World) (args : Args),
    let cp := config_of W args in
    let gps := get_gps args in
    (forall (p : Primary) (s : Setup W),
        disable_correlation args = false ->
        primary_section cp = Some p ->
        outcome (set_up W args) = Returned s ->
        let correlate := matched_filter W args gps p in
        let ctx := context W s (Some correlate) in
        let st0 :=
          mkLoopState [] (set_correlated (su_htmlv s)
                                         (name (primary_channel p))) None in
        trace (launch W s)
        = (EWriteQscanPage (su_ifo s) gps [] (su_htmlv s)
           :: ELog Info "Launching omega scans"
           :: primary_events args gps p
           ++ trace (bind (process_blocks W ctx st0 (su_blocks s))
                          (finalize W ctx)))%list
        /\ forall b st c series,
             Py.in_ (name c) (su_completed s) = false ->
             outcome (scan_channel W ctx b st c) = Returned (Some series) ->
             let saved :=
               mkAnalyzed c
                 (Saved (item3 W series)
                        (Some (cross_correlate W (item2 W series) correlate,
                               gps, dt b))) in
             process_channel W ctx b st c =
             (((ELog Info (" -- Scanning channel " ++ name c)
                :: trace (scan_channel W ctx b st c))
               ++ [ELog Info (" -- Plotting omega scan products for "
                              ++ name c);
                   EWriteQscanPlots gps c (frequency_scaling args)
                                    (colormap args);
                   ELog Info (" -- Cross-correlating " ++ name c);
                   ECrossCorrelate c]
               ++ trace (report_channel W ctx st saved))%list,
              outcome (report_channel W ctx st saved)))
    /\ (disable_correlation args = false ->
        primary_section cp = None ->
        trace (parse_primary W args cp) = [no_primary_warning]
        /\ (exists pre post,
               trace (main W args) = (pre ++ no_primary_warning :: post)%list
               /\ trace (main W (set_disable_correlation args true))
                  = (pre ++ post)%list)
        /\ outcome (main W args)
           = outcome (main W (set_disable_correlation args true))
        /\ Forall (fun e => is_correlate e = false) (trace (main W args))).
Proof.
  intros W args cp gps. split.
  - intros p s Hdc Hp Hs correlate ctx st0.
    apply set_up_returned in Hs.
    destruct Hs as [Hargs [Hifo [Hgps [Hbs [Hprim [Hh Hck]]]]]].
    assert (Hres : primary_result args cp = (args, Some p)).
    { unfold primary_result. rewrite Hdc. cbn [negb]. fold cp.
      now rewrite Hp. }
    fold cp in Hargs, Hprim. rewrite Hres in Hargs, Hprim.
    cbn [fst snd] in Hargs, Hprim.
    split.
    + unfold launch. run_m.
      rewrite process_primary_spec. rewrite Hargs, Hprim, Hgps, Hdc.
      cbn [negb]. run_m. fold gps. cbn [app]. reflexivity.
    + intros b st c series Hin Hscan saved.
      pose proof (process_channel_correlated ctx b st c series correlate
                    eq_refl Hin Hscan) as Heq.
      cbv zeta in Heq. subst saved.
      assert (Hg : ctx_gps ctx = gps) by (subst ctx; exact Hgps).
      assert (Ha : ctx_args ctx = args) by (subst ctx; exact Hargs).
      rewrite Hg, Ha in Heq. exact Heq.
  - intros Hdc Hp.
    assert (Hres : primary_result args cp
                   = (set_disable_correlation args true, None)).
    { unfold primary_result. rewrite Hdc. cbn [negb]. fold cp.
      now rewrite Hp. }
    assert (Hres2 : primary_result (set_disable_correlation args true) cp
                    = (set_disable_correlation args true, None))
      by reflexivity.
    assert (Hwarn : trace (parse_primary W args cp) = [no_primary_warning]).
    { unfold parse_primary. rewrite Hdc. cbn [negb]. fold cp.
      now rewrite Hp. }
    assert (Hout : outcome (set_up W args)
                   = outcome (set_up W (set_disable_correlation args true))).
    { rewrite !set_up_outcome. cbv zeta.
      change (config_of W (set_disable_correlation args true))
        with (config_of W args).
      fold cp. rewrite Hres, Hres2. reflexivity. }
    split; [exact Hwarn|]. split; [|split].
    + unfold main. rewrite !trace_bind, <- Hout.
      rewrite !set_up_trace. cbv zeta.
      change (config_of W (set_disable_correlation args true))
        with (config_of W args).
      fold cp. rewrite Hres, Hres2, Hwarn.
      replace (trace (parse_primary W (set_disable_correlation args true) cp))
        with (@nil (Event W)) by reflexivity.
      eexists [_; _], _. cbn [app fst]. split; reflexivity.
    + unfold main. rewrite !outcome_bind, <- Hout. reflexivity.
    + apply Forall_main.
      * intros e _ He. exact He.
      * intros s correlate h b st c Hs Hprim.
        apply set_up_returned in Hs.
        destruct Hs as [Hargs [_ [_ [_ [Hsp _]]]]].
        fold cp in Hargs, Hsp. rewrite Hres in Hargs, Hsp.
        cbn [fst snd] in Hargs, Hsp.
        rewrite process_primary_spec, Hargs in Hprim.
        cbn [disable_correlation set_disable_correlation negb] in Hprim.
        unfold outcome in Hprim. cbn [snd] in Hprim.
        injection Hprim as <- _.
        now apply process_channel_no_correlate.
Qed.

(** ** The claims on concrete runs *)

(** C1 on an instance: the run of [world_resume] completes with its
    checkpoint read. *)
Lemma checkpoint_resume_witness :
  outcome (main Demo.world_resume Demo.args0) = Returned tt
  /\ path_exists Demo.world_resume
                 (get_outdir Demo.world_resume Demo.args0) summary_path
     = true
  /\ disable_checkpoint Demo.args0 = false
  /\ exists s,
       outcome (set_up Demo.world_resume Demo.args0) = Returned s
       /\ column (su_record s) "Channel" = Some (su_completed s)
       /\ Forall (scans_new (su_completed s))
                 (trace (main Demo.world_resume Demo.args0)).
Proof.
  assert (H1 : outcome (main Demo.world_resume Demo.args0) = Returned tt)
    by (vm_compute; reflexivity).
  assert (H2 : path_exists Demo.world_resume
                 (get_outdir Demo.world_resume Demo.args0) summary_path
               = true) by reflexivity.
  assert (H3 : disable_checkpoint Demo.args0 = false) by reflexivity.
  split; [exact H1|]. split; [exact H2|]. split; [exact H3|].
  destruct (checkpoint_resume Demo.world_resume Demo.args0 H1 H2 H3)
    as [s [correlate [h Hall]]].
  cbv zeta in Hall. destruct Hall as [Hs [_ [_ [Hcol [Hscan _]]]]].
  exists s. auto.
Defined.

(** C1 as stated fails twice.  In [world_inactive] the checkpoint lists
    [X1:C], a channel of the configured block, yet the block's flag is
    not active: the run completes and the only page it writes has an
    empty table of contents.  In [world_old] the checkpoint lists [X1:A],
    a channel of a block without a flag, yet the run ends with the
    [KeyError] of C6 and writes no page. *)
Lemma checkpoint_not_always_restored :
  (column (table_read Demo.world_inactive
                      (get_outdir Demo.world_inactive Demo.args0)
                      summary_path) "Channel"
   = Some ["X1:A"%string; "X1:C"%string]
   /\ In Demo.chan_c (channels Demo.block_pem)
   /\ blocks (config_of Demo.world_inactive Demo.args0) = [Demo.block_pem]
   /\ outcome (main Demo.world_inactive Demo.args0) = Returned tt
   /\ map fst (page_writes (trace (main Demo.world_inactive Demo.args0)))
      = [[]])
  /\ (column (table_read Demo.world_old
                         (get_outdir Demo.world_old Demo.args0)
                         summary_path) "Channel"
      = Some ["X1:A"%string; "X1:C"%string]
      /\ In Demo.chan_a (channels Demo.block_aux)
      /\ flag Demo.block_aux = None
      /\ outcome (main Demo.world_old Demo.args0)
         = Raised (KeyError no_correlation_msg)
      /\ page_writes (trace (main Demo.world_old Demo.args0)) = []).
Proof.
  split.
  - split; [reflexivity|]. split; [now left|]. split; [reflexivity|].
    split; vm_compute; reflexivity.
  - split; [reflexivity|]. split; [now left|]. split; [reflexivity|].
    split; vm_compute; reflexivity.
Qed.

(** C3 on an instance: in [world_resume] the set-up returns and the
    matched filter is built first. *)
Lemma cross_correlation_witness :
  disable_correlation Demo.args0 = false
  /\ primary_section (config_of Demo.world_resume Demo.args0)
     = Some Demo.primary_gw
  /\ exists s,
       outcome (set_up Demo.world_resume Demo.args0) = Returned s
       /\ exists rest,
            trace (launch Demo.world_resume s)
            = (EWriteQscanPage (su_ifo s) (get_gps Demo.args0) []
                               (su_htmlv s)
               :: ELog Info "Launching omega scans"
               :: primary_events Demo.args0 (get_gps Demo.args0)
                                 Demo.primary_gw
               ++ rest)%list.
Proof.
  split; [reflexivity|]. split; [reflexivity|].
  destruct (outcome (set_up Demo.world_resume Demo.args0)) as [s|e] eqn:Hs;
    [|vm_compute in Hs; discriminate Hs].
  exists s. split; [reflexivity|].
  pose proof (proj1 (cross_correlation Demo.world_resume Demo.args0)
                Demo.primary_gw s eq_refl eq_refl Hs) as H.
  cbv zeta in H. destruct H as [H _].
  eexists. exact H.
Defined.

(** C3 as stated fails: in [world_old] correlation is not disabled and a
    primary is configured, yet the run ends with the [KeyError] of C6
    before any data is requested or [omega.primary] is called. *)
Lemma matched_filter_not_always_built :
  disable_correlation Demo.args0 = false
  /\ primary_section (config_of Demo.world_old Demo.args0)
     = Some Demo.primary_gw
  /\ outcome (main Demo.world_old Demo.args0)
     = Raised (KeyError no_correlation_msg)
  /\ filter is_primary_filter (trace (main Demo.world_old Demo.args0)) = []
  /\ filter is_fetch (trace (main Demo.world_old Demo.args0)) = [].
Proof.
  split; [reflexivity|]. split; [reflexivity|].
  repeat split; vm_compute; reflexivity.
Qed.

(** C4 on an instance: the run of [world_resume] completes; its pages
    list no channel, then [X1:A], then [X1:B] too, then [X1:C] too, and
    the last page lists all three again. *)
Lemma report_follows_channels_witness :
  outcome (main Demo.world_resume Demo.args0) = Returned tt
  /\ (exists s, outcome (set_up Demo.world_resume Demo.args0) = Returned s)
  /\ map (fun page => map (fun a => name (channel a)) (listed (fst page)))
         (page_writes (trace (main Demo.world_resume Demo.args0)))
     = [[]; ["X1:A"]; ["X1:A"; "X1:B"]; ["X1:A"; "X1:B"; "X1:C"];
        ["X1:A"; "X1:B"; "X1:C"]]%string
  /\ map (fun page => refresh (snd page))
         (page_writes (trace (main Demo.world_resume Demo.args0)))
     = [true; true; true; true; false].
Proof.
  assert (H : outcome (main Demo.world_resume Demo.args0) = Returned tt)
    by (vm_compute; reflexivity).
  split; [exact H|]. split; [|split; vm_compute; reflexivity].
  destruct (report_follows_channels Demo.world_resume Demo.args0 H)
    as [s [_ [_ [_ [Hs _]]]]].
  exists s. exact Hs.
Defined.

(** C5 on an instance: a block whose flag is not active. *)
Lemma block_processing_witness :
  skipped Demo.world_inactive (ctx_args Demo.ctx_inactive)
          (ctx_gps Demo.ctx_inactive) Demo.block_pem = true
  /\ outcome (process_block Demo.world_inactive Demo.ctx_inactive
                            Demo.st_inactive Demo.block_pem)
     = Returned Demo.st_inactive.
Proof.
  assert (H : skipped Demo.world_inactive (ctx_args Demo.ctx_inactive)
                      (ctx_gps Demo.ctx_inactive) Demo.block_pem = true)
    by reflexivity.
  split; [exact H|].
  rewrite (proj1 (proj2 (block_processing Demo.world_inactive
                           Demo.ctx_inactive Demo.st_inactive
                           Demo.block_pem)) H).
  reflexivity.
Defined.

(** C5 as stated fails: in [world_fresh_inactive] nothing is completed,
    so the channels of the configured block are not all completed, yet
    the block's flag is not active and the run requests no data. *)
Lemma skipped_block_is_not_read :
  blocks (config_of Demo.world_fresh_inactive Demo.args0) = [Demo.block_pem]
  /\ Py.subset (map name (channels Demo.block_pem)) [] = false
  /\ outcome (main Demo.world_fresh_inactive Demo.args0) = Returned tt
  /\ filter is_fetch (trace (main Demo.world_fresh_inactive Demo.args0))
     = [].
Proof.
  split; [reflexivity|]. split; [reflexivity|].
  split; vm_compute; reflexivity.
Qed.

(** C10 on an instance: the scan of [X1:A] raises [ValueError]. *)
Lemma scan_failure_skips_channel_witness :
  Py.in_ (name Demo.chan_a) (ctx_completed Demo.ctx_quiet) = false
  /\ outcome (scan_channel Demo.world_quiet Demo.ctx_quiet Demo.block_aux
                           Demo.st_quiet Demo.chan_a)
     = Raised (ValueError "too short")
  /\ outcome (process_channel Demo.world_quiet Demo.ctx_quiet Demo.block_aux
                              Demo.st_quiet Demo.chan_a)
     = Returned Demo.st_quiet.
Proof.
  assert (H1 : Py.in_ (name Demo.chan_a) (ctx_completed Demo.ctx_quiet)
               = false) by reflexivity.
  assert (H2 : outcome (scan_channel Demo.world_quiet Demo.ctx_quiet
                          Demo.block_aux Demo.st_quiet Demo.chan_a)
               = Raised (ValueError "too short")) by reflexivity.
  split; [exact H1|]. split; [exact H2|].
  exact (proj1 (proj2
    (scan_failure_skips_channel Demo.world_quiet Demo.ctx_quiet
       Demo.block_aux Demo.st_quiet Demo.chan_a [Demo.chan_b] H1
       (or_intror (ex_intro _ (ValueError "too short")
                            (conj H2 eq_refl)))))).
Defined.


(** The rounding of C2 is done in doubles and can leave the nearest
    hundredth.  The double that prints as 1126259462.395,
    2361937284080599 / 2^21, lies just below that number and within
    0.005 of 1126259462.39; its product with 100 rounds to the double
    112625946239.5, whose nearest even integer is 112625946240: [t] is
    the double of 1126259462.4, a little more than 0.005 away. *)
Lemma around_in_doubles :
  let args := default_args (2361937284080599 # 2097152) in
  Py.float_ (gpstime args) == gpstime args
  /\ Py.float_ (gpstime args * 100) == 225251892479 # 2
  /\ get_gps args == 2361937284091085 # 2097152
  /\ get_gps args == Py.float_ (112625946240 # 100)
  /\ Qabs ((112625946239 # 100) - gpstime args) < 1 # 200
  /\ (1 # 200) < Qabs (get_gps args - gpstime args).
Proof.
  cbv zeta. repeat split; vm_compute; reflexivity.
Qed.


End OmegaFacts.

(* ===================================================================== *)
(** * Further properties of the Omega scan driver *)
(* ===================================================================== *)

Module MoreOmegaFacts.

Import Omega.
Import OmegaSpec.
Import MoreSpec.
Import OmegaFacts.

Local Open Scope Q_scope.

(** ** Invariants of the loop over the blocks *)

Section Loop.

Context {W : World}.

Variable ctx : Context W.
Variable bs0 : list Block.

(** [I] holds of the loop's variables between two blocks, [J b] inside
    the block [b]; [P] holds of every event and [R] of the exception that
    ends the loop, if one does. *)
Variable I : LoopState W -> Prop.
Variable J : Block -> LoopState W -> Prop.
Variable P : Event W -> Prop.
Variable R : Exc -> Prop.

Hypothesis enter :
  forall b st,
    In b bs0 -> skipped W (ctx_args ctx) (ctx_gps ctx) b = false -> I st ->
    J b (with_data st (block_data ctx b (data st))).

Hypothesis leave : forall b st, In b bs0 -> J b st -> I st.

Hypothesis step :
  forall b c st,
    In b bs0 -> skipped W (ctx_args ctx) (ctx_gps ctx) b = false ->
    In c (channels b) -> J b st ->
    Forall P (trace (process_channel W ctx b st c)) /\
    match outcome (process_channel W ctx b st c) with
    | Returned st' => J b st'
    | Raised e => R e
    end.

Hypothesis P_flag : forall b, In b bs0 -> Forall P (flag_events ctx b).

Hypothesis P_skip :
  forall b,
    In b bs0 -> skipped W (ctx_args ctx) (ctx_gps ctx) b = true ->
    P (ELog Info (" -- " ++ Py.str_ (flag b) ++ " not active, skipping block")).

Hypothesis P_read :
  forall b,
    In b bs0 -> skipped W (ctx_args ctx) (ctx_gps ctx) b = false ->
    Py.subset (map name (channels b)) (ctx_completed ctx) = false ->
    P (block_read ctx b).

Lemma loop_channels :
  forall (b : Block),
    In b bs0 -> skipped W (ctx_args ctx) (ctx_gps ctx) b = false ->
    forall (cs : list OmegaChannel),
      incl cs (channels b) ->
      forall (st : LoopState W),
        J b st ->
        Forall P (trace (process_channels W ctx b st cs)) /\
        match outcome (process_channels W ctx b st cs) with
        | Returned st' => J b st'
        | Raised e => R e
        end.
Proof.
  intros b Hb Hsk cs. induction cs as [|c cs IH]; intros Hincl st HJ.
  - split; [constructor|exact HJ].
  - cbn [process_channels].
    destruct (step b c st Hb Hsk (Hincl c (or_introl eq_refl)) HJ)
      as [HP Ho].
    rewrite trace_bind, outcome_bind.
    destruct (outcome (process_channel W ctx b st c)) as [st'|e].
    + destruct (IH (fun x Hx => Hincl x (or_intror Hx)) st' Ho)
        as [HP' Ho'].
      split; [|exact Ho']. apply Forall_app. split; assumption.
    + split; [|exact Ho]. now rewrite app_nil_r.
Qed.

Lemma loop_block :
  forall (b : Block) (st : LoopState W),
    In b bs0 -> I st ->
    Forall P (trace (process_block W ctx st b)) /\
    match outcome (process_block W ctx st b) with
    | Returned st' => I st'
    | Raised e => R e
    end.
Proof.
  intros b st Hb HI.
  destruct (skipped W (ctx_args ctx) (ctx_gps ctx) b) eqn:Hsk.
  - rewrite (process_block_skipped ctx st b Hsk).
    cbn [trace outcome fst snd]. split; [|exact HI].
    pose proof (P_flag b Hb) as Hf. unfold flag_events in Hf.
    assert (Hc : flag_checked (ctx_args ctx) b = true).
    { unfold skipped in Hsk. now apply andb_true_iff in Hsk. }
    rewrite Hc in Hf.
    change (Forall P ([ELog Info (" -- Querying state flag "
                                  ++ Py.str_ (flag b));
                       ECheckFlag (Py.str_ (flag b)) (ctx_gps ctx)
                                  (duration b) 1]
                      ++ [ELog Info (" -- " ++ Py.str_ (flag b)
                                     ++ " not active, skipping block")])).
    apply Forall_app. split; [exact Hf|].
    constructor; [|constructor]. now apply P_skip.
  - pose proof (process_block_processed ctx st b Hsk) as Heq.
    cbv zeta in Heq. rewrite Heq. cbn [trace outcome fst snd].
    destruct (loop_channels b Hb Hsk (channels b) (incl_refl _)
                (with_data st (block_data ctx b (data st)))
                (enter b st Hb Hsk HI)) as [HP Ho].
    unfold with_data in HP, Ho. split.
    + apply Forall_app. split; [now apply P_flag|].
      apply Forall_app. split; [|exact HP].
      destruct (Py.subset (map name (channels b)) (ctx_completed ctx))
        eqn:Hsub; cbn [negb]; constructor; [|constructor].
      now apply P_read.
    + destruct (outcome (process_channels W ctx b _ (channels b)));
        [|exact Ho].
      now apply (leave b).
Qed.

Lemma loop_blocks :
  forall (l : list Block),
    incl l bs0 ->
    forall (st : LoopState W),
      I st ->
      Forall P (trace (process_blocks W ctx st l)) /\
      match outcome (process_blocks W ctx st l) with
      | Returned st' => I st'
      | Raised e => R e
      end.
Proof.
  induction l as [|b l IH]; intros Hincl st HI.
  - split; [constructor|exact HI].
  - cbn [process_blocks].
    destruct (loop_block b st (Hincl b (or_introl eq_refl)) HI) as [HP Ho].
    rewrite trace_bind, outcome_bind.
    destruct (outcome (process_block W ctx st b)) as [st'|e].
    + destruct (IH (fun x Hx => Hincl x (or_intror Hx)) st' Ho)
        as [HP' Ho'].
      split; [|exact Ho']. apply Forall_app. split; assumption.
    + split; [|exact Ho]. now rewrite app_nil_r.
Qed.

End Loop.

(** ** The run as a whole *)

Section Whole.

Context {W : World}.

Lemma main_trace :
  forall (args : Args),
    trace (main W args) =
    trace (set_up W args)
    ++ match outcome (set_up W args) with
       | Returned s => trace (launch W s)
       | Raised _ => []
       end.
Proof. intro args. unfold main. apply trace_bind. Qed.

Lemma main_outcome :
  forall (args : Args),
    outcome (main W args) =
    match outcome (set_up W args) with
    | Returned s => outcome (launch W s)
    | Raised e => Raised e
    end.
Proof. intro args. unfold main. apply outcome_bind. Qed.

(** Lines 167-176 change nothing of the command line but
    [disable_correlation]. *)
Lemma primary_result_options :
  forall (args : Args) (cp : Config),
    let a := fst (primary_result args cp) in
    gpstime a = gpstime args /\
    disable_checkpoint a = disable_checkpoint args /\
    ignore_state_flags a = ignore_state_flags args /\
    far_threshold a = far_threshold args /\
    frequency_scaling a = frequency_scaling args /\
    colormap a = colormap args /\
    nproc a = nproc args.
Proof.
  intros args cp. unfold primary_result.
  destruct (disable_correlation args), (primary_section cp);
    cbn; repeat split.
Qed.

(** A property of the events of every part of a run holds of the run. *)
Lemma Forall_launch :
  forall (P : Event W -> Prop) (s : Setup W),
    P (EWriteQscanPage (su_ifo s) (su_gps s) [] (su_htmlv s)) ->
    P (ELog Info "Launching omega scans") ->
    Forall P (trace (process_primary W (su_args s) (su_gps s) (su_primary s)
                                     (su_htmlv s))) ->
    (forall correlate h,
        outcome (process_primary W (su_args s) (su_gps s) (su_primary s)
                                 (su_htmlv s)) = Returned (correlate, h) ->
        Forall P (trace (process_blocks W (context W s correlate)
                           (mkLoopState [] h None) (su_blocks s)))
        /\ forall st,
             outcome (process_blocks W (context W s correlate)
                        (mkLoopState [] h None) (su_blocks s))
             = Returned st ->
             Forall P (trace (finalize W (context W s correlate) st))) ->
    Forall P (trace (launch W s)).
Proof.
  intros P s Hpage Hlog Hprim Hloop. rewrite launch_trace.
  constructor; [exact Hpage|]. constructor; [exact Hlog|].
  apply Forall_app. split; [exact Hprim|].
  destruct (outcome (process_primary W (su_args s) (su_gps s) (su_primary s)
                                     (su_htmlv s))) as [[correlate h]|e];
    [|constructor].
  cbn [fst snd]. destruct (Hloop correlate h eq_refl) as [Hb Hf].
  apply Forall_app. split; [exact Hb|].
  destruct (outcome (process_blocks W (context W s correlate)
                       (mkLoopState [] h None) (su_blocks s))) as [st|e];
    [|constructor].
  now apply Hf.
Qed.

Lemma Forall_main_parts :
  forall (P : Event W -> Prop) (args : Args),
    Forall P (trace (set_up W args)) ->
    (forall s, outcome (set_up W args) = Returned s ->
               Forall P (trace (launch W s))) ->
    Forall P (trace (main W args)).
Proof.
  intros P args Hs Hl. rewrite main_trace. apply Forall_app.
  split; [exact Hs|].
  destruct (outcome (set_up W args)) as [s|e]; [|constructor].
  now apply Hl.
Qed.

End Whole.

(** ** What every page of the loop keeps *)

Section PageInvariant.

Context {W : World}.

Variable ctx : Context W.
Variable f : Analyzed W -> bool.
Variable H : HtmlVars W -> Prop.
Variable Q : Event W -> Prop.

Hypothesis H_toc : forall h t, H h -> H (set_toc h t).
Hypothesis Q_loop : forall e, loop_event (ctx_correlate ctx) e -> Q e.
Hypothesis f_loaded :
  forall c row,
    Py.in_ (name c) (ctx_completed ctx) = true ->
    f (loaded_channel ctx c row) = true.
Hypothesis f_saved :
  forall b c series,
    Py.in_ (name c) (ctx_completed ctx) = false ->
    f (saved_channel ctx b c series) = true.

Lemma forallb_update_toc :
  forall (t : Toc W) (a : Analyzed W) (nm : string),
    forallb f (listed t) = true -> f a = true ->
    forallb f (listed (update_toc t a nm)) = true.
Proof.
  intros t a nm Ht Ha. apply forallb_forall. intros x Hx.
  apply (Permutation_in _ (listed_update_toc t a nm)) in Hx.
  apply in_app_or in Hx. destruct Hx as [Hx|[<-|[]]]; [|exact Ha].
  now apply (proj1 (forallb_forall f (listed t)) Ht).
Qed.

Lemma state_ok_reported :
  forall (st : LoopState W) (a : Analyzed W) (nm : string),
    state_ok f H st -> f a = true -> state_ok f H (reported st a nm).
Proof.
  intros st a nm [Hl Hh] Ha. split; cbn [reported analyzed htmlv].
  - now apply forallb_update_toc.
  - now apply H_toc.
Qed.

Lemma handled_ok :
  forall (b : Block) (d : option (list (string * Series W)))
         (c : OmegaChannel) (a : Analyzed W) (nm : string),
    handled ctx b d c = Some (a, nm) -> f a = true.
Proof.
  intros b d c a nm. unfold handled.
  destruct (getitem_block (ctx_blocks ctx) (section c)); [|discriminate].
  destruct (Py.in_ (name c) (ctx_completed ctx)) eqn:Hin.
  - destruct (Py.index (name c) (ctx_completed ctx)); [|discriminate].
    destruct (getitem_row (ctx_record ctx) n); [|discriminate].
    intro Heq. injection Heq as <- _. now apply f_loaded.
  - destruct (scan_outcome ctx b d c) as [[series|]|e]; try discriminate.
    intro Heq. injection Heq as <- _. now apply f_saved.
Qed.

Lemma process_channel_ok :
  forall (b : Block) (st : LoopState W) (c : OmegaChannel),
    state_ok f H st ->
    Forall (page_ok f H Q) (trace (process_channel W ctx b st c)) /\
    match outcome (process_channel W ctx b st c) with
    | Returned st' => state_ok f H st'
    | Raised _ => True
    end.
Proof.
  intros b st c Hst. split.
  - destruct Hst as [Hl Hh].
    pose proof (f_loaded c) as Hfl. pose proof (f_saved b c) as Hfs.
    unfold loaded_channel in Hfl. unfold saved_channel in Hfs.
    unfold process_channel, report_channel, scan_channel.
    destruct (Py.in_ (name c) (ctx_completed ctx)) eqn:Hin;
      destruct (ctx_correlate ctx) eqn:Hc; cbv iota;
      forall_trace;
      try (apply Q_loop; cbn [loop_event];
           first [exact Logic.I | discriminate]);
      (split; [|now apply H_toc]);
      apply forallb_update_toc; try exact Hl.
    all: first
      [ now apply Hfl
      | match goal with
        | Hx : outcome _ = Returned ?a |- f ?a = true =>
            unfold outcome in Hx; cbn [bind emit ret snd] in Hx;
            injection Hx as <-; now apply Hfs
        end ].
  - destruct (outcome (process_channel W ctx b st c)) as [st'|e] eqn:Ho;
      [|exact Logic.I].
    apply process_channel_returned in Ho.
    destruct (handled ctx b (data st) c) as [[a nm]|] eqn:Hh.
    + destruct Ho as [-> _]. apply state_ok_reported; [exact Hst|].
      exact (handled_ok _ _ _ _ _ Hh).
    + destruct Ho as [-> _]. exact Hst.
Qed.

Lemma process_blocks_ok :
  forall (bs : list Block) (st : LoopState W),
    state_ok f H st ->
    Forall (page_ok f H Q) (trace (process_blocks W ctx st bs)) /\
    match outcome (process_blocks W ctx st bs) with
    | Returned st' => state_ok f H st'
    | Raised _ => True
    end.
Proof.
  intros bs st Hst.
  apply (loop_blocks ctx bs (state_ok f H) (fun _ => state_ok f H)
           (page_ok f H Q) (fun _ => True)); try assumption.
  - intros b st0 _ _ Hst0. exact Hst0.
  - intros b st0 _ Hst0. exact Hst0.
  - intros b c st0 _ _ _ Hst0. now apply process_channel_ok.
  - intros b _. unfold flag_events.
    destruct (flag_checked (ctx_args ctx) b); repeat constructor;
      apply Q_loop; exact Logic.I.
  - intros b _ _. apply Q_loop. exact Logic.I.
  - intros b _ _ _. apply Q_loop. exact Logic.I.
  - apply incl_refl.
Qed.

End PageInvariant.

(** ** The parts of the set-up *)

Section SetUpParts.

Context {W : World}.

Lemma Forall_set_up_prepares :
  forall (P : Event W -> Prop) (args : Args),
    (forall e, prepares e -> P e) -> Forall P (trace (set_up W args)).
Proof.
  intros P args HP. eapply Forall_impl; [exact HP|apply set_up_prepares].
Qed.

Lemma make_subdirectories_events :
  forall (P : Event W -> Prop) (cwd : string) (ds : list string),
    (forall e, prepares e -> is_table_read e = false -> P e) ->
    Forall P (trace (make_subdirectories W cwd ds)).
Proof.
  intros P cwd ds HP. induction ds as [|d ds IH]; cbn [make_subdirectories].
  - constructor.
  - forall_trace; try (apply HP; [exact I|reflexivity]). exact IH.
Qed.

(** The set-up without the reading of the checkpoint. *)
Lemma Forall_set_up_parts :
  forall (P : Event W -> Prop) (args : Args),
    (forall e, prepares e -> is_table_read e = false -> P e) ->
    Forall P (trace (determine_checkpoints W
                       (fst (primary_result args (config_of W args)))
                       (get_outdir W args))) ->
    Forall P (trace (set_up W args)).
Proof.
  intros P args HP Hck. rewrite set_up_trace. cbv zeta.
  constructor; [apply HP; [exact I|reflexivity]|].
  constructor; [apply HP; [exact I|reflexivity]|].
  apply Forall_app. split.
  { unfold parse_primary.
    destruct (negb (disable_correlation args)); [|constructor].
    destruct (primary_section (config_of W args)); [constructor|].
    constructor; [|constructor]. apply HP; [exact I|reflexivity]. }
  apply Forall_app. split.
  { destruct (negb (isdir W "" (get_outdir W args))); constructor;
      [|constructor]. apply HP; [exact I|reflexivity]. }
  constructor; [apply HP; [exact I|reflexivity]|].
  apply Forall_app. split; [|exact Hck].
  now apply make_subdirectories_events.
Qed.

Lemma get_ifo_network :
  forall (args : Args), get_ifo args = Some "Network".
Proof. reflexivity. Qed.

(** The last page is always written: [ifo] is never [None]. *)
Lemma finalize_returns :
  forall (s : Setup W) (args : Args) (correlate : option (Series W))
         (st : LoopState W),
    outcome (set_up W args) = Returned s ->
    outcome (finalize W (context W s correlate) st) = Returned tt.
Proof.
  intros s args correlate st Hs.
  apply set_up_returned in Hs. destruct Hs as [_ [Hifo _]].
  rewrite finalize_spec. cbn [context ctx_ifo]. rewrite Hifo, get_ifo_network.
  destruct (Py.list_truthy (analyzed st)); reflexivity.
Qed.

End SetUpParts.

(** ** [--ignore-state-flags] *)

Section StateFlags.

Context {W : World}.

Lemma process_channel_no_flag_query :
  forall (ctx : Context W) (b : Block) (st : LoopState W) (c : OmegaChannel),
    Forall (fun e => is_check_flag e = false)
           (trace (process_channel W ctx b st c)).
Proof.
  intros ctx b st c. unfold process_channel, report_channel, scan_channel.
  forall_trace; reflexivity.
Qed.

Lemma flags_ignored :
  forall (args : Args) (gps : Q) (b : Block),
    ignore_state_flags args = true ->
    flag_checked args b = false /\ skipped W args gps b = false.
Proof.
  intros args gps b Hig. unfold skipped, flag_checked. rewrite Hig.
  now rewrite andb_false_r.
Qed.

End StateFlags.

(** X1.  With [--ignore-state-flags] the state-flag database is never
    asked and no block is skipped, whatever flags the blocks define. *)
Theorem state_flags_ignored :
  forall (W : World) (args : Args),
    ignore_state_flags args = true ->
    Forall (fun e => is_check_flag e = false) (trace (main W args))
    /\ forall s b,
         outcome (set_up W args) = Returned s ->
         skipped W (su_args s) (su_gps s) b = false.
Proof.
  intros W args Hig.
  assert (Hs : forall s, outcome (set_up W args) = Returned s ->
                         ignore_state_flags (su_args s) = true).
  { intros s Hs. apply set_up_returned in Hs. destruct Hs as [-> _].
    destruct (primary_result_options args (config_of W args))
      as [_ [_ [-> _]]]. exact Hig. }
  split.
  - apply Forall_main_parts.
    + apply Forall_set_up_prepares. intros [] He; try reflexivity.
      destruct He.
    + intros s Hret. apply Forall_launch; try reflexivity.
      * rewrite process_primary_spec.
        destruct (negb (disable_correlation (su_args s))); [|constructor].
        destruct (su_primary s); repeat constructor.
      * intros correlate h _. split.
        -- apply (loop_blocks (context W s correlate) (su_blocks s)
                    (fun _ => True) (fun _ _ => True)
                    (fun e => is_check_flag e = false) (fun _ => True));
             try (intros; exact I); try reflexivity;
             try apply incl_refl.
           ++ intros b c st _ _ _ _. split.
              ** apply process_channel_no_flag_query.
              ** destruct (outcome (process_channel W _ b st c)); exact I.
           ++ intros b _. unfold flag_events. cbn [context ctx_args].
              destruct (flags_ignored (W := W) (su_args s) (su_gps s) b
                          (Hs s Hret)) as [-> _].
              constructor.
        -- intros st _. unfold finalize. forall_trace; reflexivity.
  - intros s b Hret.
    exact (proj2 (flags_ignored (W := W) (su_args s) (su_gps s) b (Hs s Hret))).
Qed.

(** X1 on an instance: the flag of the second block is not active, yet
    with [--ignore-state-flags] its channel is restored; without the
    option the flag is asked and the block skipped. *)
Lemma state_flags_ignored_witness :
  ignore_state_flags MoreDemo.args_ignore = true
  /\ Forall (fun e => is_check_flag e = false)
            (trace (main MoreDemo.world_unlocked MoreDemo.args_ignore))
  /\ map (fun page => map (fun a => name (channel a)) (listed (fst page)))
         (page_writes (trace (main MoreDemo.world_unlocked
                                   MoreDemo.args_ignore)))
     = [[]; ["X1:A"]; ["X1:A"; "X1:B"]; ["X1:A"; "X1:B"; "X1:C"];
        ["X1:A"; "X1:B"; "X1:C"]]
  /\ filter is_check_flag (trace (main MoreDemo.world_unlocked Demo.args0))
     = [ECheckFlag "X1:LOCKED" (get_gps Demo.args0) 8 1].
Proof.
  split; [reflexivity|]. split.
  - exact (proj1 (state_flags_ignored MoreDemo.world_unlocked
                    MoreDemo.args_ignore eq_refl)).
  - split; vm_compute; reflexivity.
Defined.

(** ** Runs without a checkpoint *)

Section NoCheckpoint.

Context {W : World}.

Lemma no_checkpoint_read :
  forall (args : Args),
    disable_checkpoint args = true \/
    path_exists W (get_outdir W args) summary_path = false ->
    determine_checkpoints W (fst (primary_result args (config_of W args)))
                          (get_outdir W args)
    = ([], Returned (mkTable [] [], [])).
Proof.
  intros args Hno. rewrite determine_checkpoints_spec. cbv zeta.
  destruct (primary_result_options args (config_of W args))
    as [_ [-> _]].
  destruct Hno as [-> | ->]; [|reflexivity].
  now rewrite andb_false_r.
Qed.

Lemma loop_without_checkpoint :
  forall (e : Event W) (correlate : option (Series W)),
    loop_event correlate e -> without_checkpoint e.
Proof. intros [] correlate He; try exact I; destruct He. Qed.

Lemma page_ok_without_checkpoint :
  forall (e : Event W),
    page_ok is_saved (fun _ => True) without_checkpoint e ->
    without_checkpoint e.
Proof. intros [] He; try exact He. exact (proj1 He). Qed.

End NoCheckpoint.

(** X2.  With [--disable-checkpoint], or when the output directory has
    no [data/summary.csv], the set-up returns with an empty record and no
    completed channel, the record file is never read, and every channel
    a page lists was scanned in this run. *)
Theorem checkpoint_not_used :
  forall (W : World) (args : Args),
    disable_checkpoint args = true \/
    path_exists W (get_outdir W args) summary_path = false ->
    (exists s, outcome (set_up W args) = Returned s
               /\ su_record s = mkTable [] [] /\ su_completed s = [])
    /\ Forall without_checkpoint (trace (main W args)).
Proof.
  intros W args Hno.
  pose proof (no_checkpoint_read args Hno) as Hck.
  assert (Hs : forall s, outcome (set_up W args) = Returned s ->
                         su_record s = mkTable [] [] /\ su_completed s = []).
  { intros s Hs. apply set_up_returned in Hs.
    destruct Hs as [Ha [_ [_ [_ [_ [_ Hd]]]]]].
    rewrite Ha, Hck in Hd. unfold outcome in Hd. cbn [snd] in Hd.
    injection Hd as <- <-. split; reflexivity. }
  split.
  - pose proof (set_up_outcome (W := W) args) as Ho. cbv zeta in Ho.
    rewrite Hck in Ho. cbn [outcome snd fst] in Ho.
    eexists. split; [exact Ho|]. split; reflexivity.
  - apply Forall_main_parts.
    + apply Forall_set_up_parts.
      * intros [] He Ht; try exact I; try destruct He. discriminate Ht.
      * rewrite Hck. constructor.
    + intros s Hret. destruct (Hs s Hret) as [_ Hcomp].
      apply Forall_launch; try exact I; try reflexivity.
      * rewrite process_primary_spec.
        destruct (negb (disable_correlation (su_args s))); [|constructor].
        destruct (su_primary s); repeat constructor.
      * intros correlate h _.
        destruct (process_blocks_ok (context W s correlate) is_saved
                    (fun _ => True) without_checkpoint) with
          (bs := su_blocks s) (st := mkLoopState (W := W) [] h None)
          as [HP Ho].
        -- intros; exact I.
        -- intros e He. exact (loop_without_checkpoint e _ He).
        -- intros c row. cbn [context ctx_completed]. rewrite Hcomp.
           discriminate.
        -- reflexivity.
        -- split; [reflexivity|exact I].
        -- split.
           ++ eapply Forall_impl; [|exact HP].
              apply page_ok_without_checkpoint.
           ++ intros st Hst. rewrite Hst in Ho. destruct Ho as [Hl _].
              rewrite finalize_spec.
              destruct (Py.list_truthy (analyzed st)).
              ** constructor; [exact Hl|]. constructor; [exact I|constructor].
              ** cbn [context ctx_ifo]. destruct (su_ifo s);
                   repeat constructor.
Qed.

(** X2 on an instance: the checkpoint of [world_resume] is left unread
    with [--disable-checkpoint]; all three channels are scanned. *)
Lemma checkpoint_not_used_witness :
  (disable_checkpoint MoreDemo.args_fresh = true \/
   path_exists Demo.world_resume
     (get_outdir Demo.world_resume MoreDemo.args_fresh) summary_path = false)
  /\ Forall without_checkpoint
            (trace (main Demo.world_resume MoreDemo.args_fresh))
  /\ map (fun e => match e with
                   | EScan _ c _ _ _ _ _ => name c
                   | _ => ""
                   end)
         (filter is_scan (trace (main Demo.world_resume MoreDemo.args_fresh)))
     = ["X1:A"; "X1:B"; "X1:C"].
Proof.
  split; [left; reflexivity|]. split.
  - exact (proj2 (checkpoint_not_used Demo.world_resume MoreDemo.args_fresh
                    (or_introl eq_refl))).
  - vm_compute. reflexivity.
Defined.

(** ** Runs without cross-correlation *)

Section NoCorrelation.

Context {W : World}.

Lemma loop_without_correlation :
  forall (e : Event W), loop_event None e -> without_correlation e.
Proof.
  intros [] He; cbn [loop_event without_correlation] in *;
    try exact I; try contradiction.
  destruct chans; [contradiction|exact I].
Qed.

Lemma page_ok_without_correlation :
  forall (e : Event W),
    page_ok uncorrelated
            (fun h => correlated h = None /\ primary h = None)
            without_correlation e ->
    without_correlation e.
Proof.
  intros [] He; try exact He.
  destruct He as [Hl [Hc Hp]]. repeat split; assumption.
Qed.

Lemma correlation_disabled :
  forall (args : Args),
    disable_correlation args = true \/
    primary_section (config_of W args) = None ->
    disable_correlation (fst (primary_result args (config_of W args)))
    = true.
Proof.
  intros args Hno. unfold primary_result.
  destruct (disable_correlation args) eqn:Hd; [exact Hd|].
  destruct Hno as [Hno|Hno]; [discriminate Hno|].
  rewrite Hno. reflexivity.
Qed.

End NoCorrelation.

(** X3.  With [--disable-correlation], or without a [primary] section,
    the run never asks for the data of a primary channel, never calls
    [omega.primary] or [omega.cross_correlate] and plots no matched
    filter; every page it writes announces no correlation and lists only
    channels that carry none. *)
Theorem correlation_not_used :
  forall (W : World) (args : Args),
    disable_correlation args = true \/
    primary_section (config_of W args) = None ->
    Forall without_correlation (trace (main W args)).
Proof.
  intros W args Hno.
  pose proof (correlation_disabled args Hno) as Hdis.
  apply Forall_main_parts.
  - apply Forall_set_up_prepares. intros [] He; try exact I; destruct He.
  - intros s Hret. apply set_up_returned in Hret.
    destruct Hret as [Ha [_ [_ [_ [_ [Hh _]]]]]].
    assert (Hprim : process_primary W (su_args s) (su_gps s) (su_primary s)
                                    (su_htmlv s)
                    = ([], Returned (None, su_htmlv s))).
    { rewrite process_primary_spec, Ha, Hdis. reflexivity. }
    apply Forall_launch.
    + rewrite Hh. repeat split.
    + exact I.
    + rewrite Hprim. constructor.
    + intros correlate h Hch. rewrite Hprim in Hch.
      unfold outcome in Hch. cbn [snd] in Hch. injection Hch as <- <-.
      destruct (process_blocks_ok (context W s None) uncorrelated
                  (fun h => correlated h = None /\ primary h = None)
                  without_correlation) with
        (bs := su_blocks s)
        (st := mkLoopState (W := W) [] (su_htmlv s) None)
        as [HP Ho].
      * intros h t Hc. exact Hc.
      * intros e He. exact (loop_without_correlation e He).
      * reflexivity.
      * reflexivity.
      * split; [reflexivity|]. rewrite Hh. split; reflexivity.
      * split.
        -- eapply Forall_impl; [|exact HP].
           apply page_ok_without_correlation.
        -- intros st Hst. rewrite Hst in Ho. destruct Ho as [Hl [Hc Hp]].
           rewrite finalize_spec.
           destruct (Py.list_truthy (analyzed st)).
           ++ constructor; [|constructor; [exact I|constructor]].
              repeat split; assumption.
           ++ cbn [context ctx_ifo]. destruct (su_ifo s);
                repeat constructor.
Qed.

(** X3 on an instance: [world_resume] has a primary channel, and with
    [--disable-correlation] asks for the data of the first block only. *)
Lemma correlation_not_used_witness :
  (disable_correlation MoreDemo.args_alone = true \/
   primary_section (config_of Demo.world_resume MoreDemo.args_alone) = None)
  /\ Forall without_correlation
            (trace (main Demo.world_resume MoreDemo.args_alone))
  /\ map (fun e => match e with
                   | EGetData chans _ _ _ _ _ _ => chans
                   | _ => Single ""
                   end)
         (filter is_fetch (trace (main Demo.world_resume MoreDemo.args_alone)))
     = [Batch ["X1:A"; "X1:B"]].
Proof.
  split; [left; reflexivity|]. split.
  - exact (correlation_not_used Demo.world_resume MoreDemo.args_alone
             (or_introl eq_refl)).
  - vm_compute. reflexivity.
Defined.

(** ** Runs that end with an exception *)

Section Refresh.

Context {W : World}.

Lemma page_ok_refreshes :
  forall (e : Event W),
    page_ok (fun _ => true) (fun h => refresh h = true) page_refreshes e ->
    page_refreshes e.
Proof. intros [] He; try exact He. exact (proj2 He). Qed.

End Refresh.

(** X4.  A run that ends with an exception has written no page without
    auto-refresh: the page left behind, if any, keeps reloading. *)
Theorem aborted_run_keeps_refreshing :
  forall (W : World) (args : Args) (e : Exc),
    outcome (main W args) = Raised e ->
    Forall page_refreshes (trace (main W args)).
Proof.
  intros W args e Hraised. rewrite main_outcome in Hraised.
  rewrite main_trace. apply Forall_app. split.
  { apply Forall_set_up_prepares. intros [] He; try exact I; destruct He. }
  destruct (outcome (set_up W args)) as [s|e0] eqn:Hs; [|constructor].
  pose proof (set_up_returned args s Hs) as [_ [_ [_ [_ [_ [Hh _]]]]]].
  rewrite launch_outcome in Hraised. rewrite launch_trace.
  constructor; [rewrite Hh; reflexivity|]. constructor; [exact I|].
  apply Forall_app. split.
  { rewrite process_primary_spec.
    destruct (negb (disable_correlation (su_args s))); [|constructor].
    destruct (su_primary s); repeat constructor. }
  destruct (outcome (process_primary W (su_args s) (su_gps s) (su_primary s)
                                     (su_htmlv s)))
    as [[correlate h]|e1] eqn:Hprim; [|constructor].
  cbn [fst snd] in Hraised |- *.
  destruct (process_blocks_ok (context W s correlate) (fun _ => true)
              (fun h => refresh h = true) page_refreshes) with
    (bs := su_blocks s) (st := mkLoopState (W := W) [] h None)
    as [HP Ho].
  - intros h0 t Hr. exact Hr.
  - intros [] He; try exact I; destruct He.
  - reflexivity.
  - reflexivity.
  - split; [reflexivity|]. cbn [htmlv].
    rewrite (process_primary_refresh _ _ _ _ _ _ Hprim), Hh. reflexivity.
  - apply Forall_app. split.
    + eapply Forall_impl; [|exact HP]. apply page_ok_refreshes.
    + destruct (outcome (process_blocks W (context W s correlate)
                           (mkLoopState [] h None) (su_blocks s)))
        as [st|e2]; [|constructor].
      rewrite (finalize_returns s args correlate st Hs) in Hraised.
      discriminate Hraised.
Qed.

(** X4 on an instance: in [world_boom] the scan of [X1:B] ends the run;
    the two pages written refresh themselves. *)
Lemma aborted_run_keeps_refreshing_witness :
  outcome (main MoreDemo.world_boom Demo.args0) = Raised (OtherError "boom")
  /\ Forall page_refreshes (trace (main MoreDemo.world_boom Demo.args0))
  /\ map (fun page => refresh (snd page))
         (page_writes (trace (main MoreDemo.world_boom Demo.args0)))
     = [true; true].
Proof.
  assert (H : outcome (main MoreDemo.world_boom Demo.args0)
              = Raised (OtherError "boom")) by (vm_compute; reflexivity).
  split; [exact H|]. split.
  - exact (aborted_run_keeps_refreshing MoreDemo.world_boom Demo.args0 _ H).
  - vm_compute. reflexivity.
Defined.

(** ** How many requests and scans a run makes *)

Section Counting.

Context {W : World}.

Lemma filter_none :
  forall (f : Event W -> bool) (t : list (Event W)),
    Forall (fun e => f e = false) t -> filter f t = [].
Proof.
  intros f t Ht. induction Ht as [|e t He _ IH]; cbn [filter].
  - reflexivity.
  - now rewrite He.
Qed.

Lemma count_app :
  forall (f : Event W -> bool) (t t' : list (Event W)),
    List.length (filter f (t ++ t'))
    = (List.length (filter f t) + List.length (filter f t'))%nat.
Proof. intros f t t'. now rewrite filter_app, length_app. Qed.

Lemma process_block_fetches :
  forall (ctx : Context W) (st : LoopState W) (b : Block),
    (List.length (filter is_fetch (trace (process_block W ctx st b))) <= 1)%nat.
Proof.
  intros ctx st b.
  destruct (skipped W (ctx_args ctx) (ctx_gps ctx) b) eqn:Hsk.
  - rewrite (process_block_skipped ctx st b Hsk). cbn. lia.
  - pose proof (process_block_processed ctx st b Hsk) as Heq.
    cbv zeta in Heq. rewrite Heq. cbn [trace fst].
    rewrite !count_app.
    rewrite (no_fetch_filter _ (process_channels_no_fetch ctx b _ _)).
    assert (Hf : filter is_fetch (flag_events ctx b) = []).
    { unfold flag_events. now destruct (flag_checked (ctx_args ctx) b). }
    rewrite Hf.
    destruct (negb (Py.subset (map name (channels b)) (ctx_completed ctx)));
      cbn; lia.
Qed.

Lemma process_blocks_fetches :
  forall (ctx : Context W) (bs : list Block) (st : LoopState W),
    (List.length (filter is_fetch (trace (process_blocks W ctx st bs)))
     <= List.length bs)%nat.
Proof.
  intros ctx bs. induction bs as [|b bs IH]; intro st;
    cbn [process_blocks List.length].
  - cbn. lia.
  - rewrite trace_bind, count_app.
    pose proof (process_block_fetches ctx st b) as Hb.
    destruct (outcome (process_block W ctx st b)) as [st'|e].
    + specialize (IH st'). lia.
    + cbn [filter List.length]. lia.
Qed.

Lemma scan_channel_scans :
  forall (ctx : Context W) (b : Block) (st : LoopState W) (c : OmegaChannel),
    (List.length (filter is_scan (trace (scan_channel W ctx b st c))) <= 1)%nat.
Proof.
  intros ctx b st c.
  destruct (scan_channel_trace ctx b st c) as [-> | [e [-> [He _]]]].
  - cbn. lia.
  - cbn [filter]. rewrite He. cbn. lia.
Qed.

Lemma process_channel_scans :
  forall (ctx : Context W) (b : Block) (st : LoopState W) (c : OmegaChannel),
    (List.length (filter is_scan (trace (process_channel W ctx b st c))) <= 1)%nat.
Proof.
  intros ctx b st c.
  pose proof (scan_channel_scans ctx b st c) as Hscan.
  unfold process_channel.
  destruct (Py.in_ (name c) (ctx_completed ctx)).
  - rewrite filter_none; [cbn; lia|].
    unfold report_channel. forall_trace; reflexivity.
  - rewrite trace_bind, count_app.
    match goal with
    | |- (_ + List.length (filter is_scan ?t) <= 1)%nat =>
        assert (Hrest : filter is_scan t = [])
    end.
    { apply filter_none.
      match goal with
      | |- Forall _ match ?o with Returned _ => _ | Raised _ => [] end =>
          destruct o as [[[series|]|]|e]
      end; [| | |apply Forall_nil]; unfold report_channel;
        forall_trace; reflexivity. }
    rewrite Hrest. cbn [List.length]. rewrite Nat.add_0_r.
    destruct (scan_channel W ctx b st c) as [ts [r|e]];
      cbn [trace fst] in Hscan.
    + cbn. rewrite count_app. cbn. lia.
    + destruct (is_value_or_key_error e) eqn:He; cbn; rewrite He; cbn;
        rewrite ?count_app; cbn; lia.
Qed.

Lemma process_channels_scans :
  forall (ctx : Context W) (b : Block) (cs : list OmegaChannel)
         (st : LoopState W),
    (List.length (filter is_scan (trace (process_channels W ctx b st cs)))
     <= List.length cs)%nat.
Proof.
  intros ctx b cs. induction cs as [|c cs IH]; intro st;
    cbn [process_channels List.length].
  - cbn. lia.
  - rewrite trace_bind, count_app.
    pose proof (process_channel_scans ctx b st c) as Hc.
    destruct (outcome (process_channel W ctx b st c)) as [st'|e].
    + specialize (IH st'). lia.
    + cbn [filter List.length]. lia.
Qed.

Lemma process_blocks_scans :
  forall (ctx : Context W) (bs : list Block) (st : LoopState W),
    (List.length (filter is_scan (trace (process_blocks W ctx st bs)))
     <= List.length (flat_map channels bs))%nat.
Proof.
  intros ctx bs. induction bs as [|b bs IH]; intro st;
    cbn [process_blocks flat_map].
  - cbn. lia.
  - rewrite trace_bind, count_app, length_app.
    assert (Hb : (List.length (filter is_scan
                                 (trace (process_block W ctx st b)))
                  <= List.length (channels b))%nat).
    { destruct (skipped W (ctx_args ctx) (ctx_gps ctx) b) eqn:Hsk.
      - rewrite (process_block_skipped ctx st b Hsk). cbn. lia.
      - pose proof (process_block_processed ctx st b Hsk) as Heq.
        cbv zeta in Heq. rewrite Heq. cbn [trace fst].
        rewrite !count_app.
        assert (Hf : filter is_scan (flag_events ctx b) = []).
        { unfold flag_events. now destruct (flag_checked (ctx_args ctx) b). }
        rewrite Hf.
        pose proof (process_channels_scans ctx b (channels b)
                      (mkLoopState (analyzed st) (htmlv st)
                                   (block_data ctx b (data st)))) as Hcs.
        destruct (negb (Py.subset (map name (channels b))
                                  (ctx_completed ctx))); cbn; lia. }
    destruct (outcome (process_block W ctx st b)) as [st'|e].
    + specialize (IH st'). lia.
    + cbn [filter List.length]. lia.
Qed.

Lemma process_primary_fetches :
  forall (args : Args) (gps : Q) (prim : option Primary) (h : HtmlVars W),
    (List.length (filter is_fetch (trace (process_primary W args gps prim h)))
     <= if negb (disable_correlation args) then 1 else 0)%nat
    /\ filter is_scan (trace (process_primary W args gps prim h)) = [].
Proof.
  intros args gps prim h. rewrite process_primary_spec.
  destruct (negb (disable_correlation args)); [|split; cbn; lia || reflexivity].
  destruct prim; split; cbn; lia || reflexivity.
Qed.

Lemma process_channel_scan_of_config :
  forall (ctx : Context W) (bs : list Block) (b : Block) (st : LoopState W)
         (c : OmegaChannel),
    In b bs -> In c (channels b) ->
    Forall (scan_of_config (ctx_args ctx) (ctx_gps ctx) bs)
           (trace (process_channel W ctx b st c)).
Proof.
  intros ctx bs b st c Hb Hc.
  unfold process_channel, report_channel, scan_channel.
  forall_trace; try exact I.
  exists b. repeat split; assumption.
Qed.

End Counting.

(** X5.  A run asks for data at most once per configured block, and once
    more for the primary channel when cross-correlation is enabled. *)
Theorem data_requests_bounded :
  forall (W : World) (args : Args),
    (List.length (filter is_fetch (trace (main W args)))
     <= (if correlation_enabled W args then 1 else 0)
        + List.length (blocks (config_of W args)))%nat.
Proof.
  intros W args. rewrite main_trace, count_app.
  rewrite (no_fetch_filter _ (set_up_no_fetch args)). cbn [List.length plus].
  destruct (outcome (set_up W args)) as [s|e] eqn:Hs; [|cbn; lia].
  pose proof (set_up_returned args s Hs) as [Ha [_ [_ [Hbs _]]]].
  rewrite launch_trace. cbn [filter is_fetch]. rewrite count_app.
  destruct (process_primary_fetches (su_args s) (su_gps s) (su_primary s)
              (su_htmlv s)) as [Hp _].
  rewrite Ha in Hp at 2. fold (correlation_enabled W args) in Hp.
  destruct (outcome (process_primary W (su_args s) (su_gps s) (su_primary s)
                                     (su_htmlv s))) as [ch|e];
    [|cbn [filter List.length]; lia].
  rewrite count_app.
  pose proof (process_blocks_fetches (context W s (fst ch)) (su_blocks s)
                (mkLoopState [] (snd ch) None)) as Hl.
  rewrite Hbs in Hl at 2.
  assert (Hf : forall st,
             filter is_fetch (trace (finalize W (context W s (fst ch)) st))
             = []).
  { intro st. apply no_fetch_filter, finalize_no_fetch. }
  destruct (outcome (process_blocks W (context W s (fst ch))
                       (mkLoopState [] (snd ch) None) (su_blocks s)))
    as [st|e]; [rewrite Hf|]; cbn [filter List.length]; lia.
Qed.

(** X6.  Every call of [omega.scan] is for a channel of a configured
    block, at the rounded GPS time, with that block's FFT length,
    resampling rate and search window and the command line's threshold
    and frequency scaling; and a run makes no more such calls than the
    configuration has channels. *)
Theorem scans_follow_configuration :
  forall (W : World) (args : Args),
    Forall (scan_of_config args (get_gps args) (blocks (config_of W args)))
           (trace (main W args))
    /\ (List.length (filter is_scan (trace (main W args)))
        <= List.length (flat_map channels (blocks (config_of W args))))%nat.
Proof.
  intros W args. split.
  - apply Forall_main_parts.
    + apply Forall_set_up_prepares. intros [] He; try exact I; destruct He.
    + intros s Hs.
      pose proof (set_up_returned args s Hs) as [Ha [_ [Hg [Hbs _]]]].
      destruct (primary_result_options args (config_of W args))
        as [_ [_ [_ [Hfar [Hscale _]]]]].
      rewrite <- Ha in Hfar, Hscale.
      apply Forall_launch; try exact I.
      * rewrite process_primary_spec.
        destruct (negb (disable_correlation (su_args s))); [|constructor].
        destruct (su_primary s); repeat constructor.
      * intros correlate h _. split.
        -- apply (loop_blocks (context W s correlate) (su_blocks s)
                    (fun _ => True) (fun _ _ => True)
                    (scan_of_config args (get_gps args)
                                    (blocks (config_of W args)))
                    (fun _ => True));
             try (intros; exact I); try apply incl_refl.
           ++ intros b c st Hb _ Hc _. split.
              ** pose proof (process_channel_scan_of_config
                               (context W s correlate) (su_blocks s) b st c
                               Hb Hc) as HP.
                 cbn [context ctx_args ctx_gps] in HP.
                 eapply Forall_impl; [|exact HP].
                 intros [] He; try exact I.
                 destruct He as [b' [H1 [H2 [H3 [H4 [H5 [H6 [H7 H8]]]]]]]].
                 exists b'. rewrite <- Hbs, <- Hg, <- Hfar, <- Hscale.
                 repeat split; assumption.
              ** destruct (outcome (process_channel W _ b st c)); exact I.
           ++ intros b _. unfold flag_events.
              destruct (flag_checked _ b); repeat constructor.
        -- intros st _. unfold finalize. forall_trace; exact I.
  - rewrite main_trace, count_app.
    rewrite (filter_none is_scan (trace (set_up W args))).
    2:{ eapply Forall_impl; [|apply (set_up_prepares args)].
        intros [] He; try reflexivity; destruct He. }
    cbn [List.length plus].
    destruct (outcome (set_up W args)) as [s|e] eqn:Hs; [|cbn; lia].
    pose proof (set_up_returned args s Hs) as [_ [_ [_ [Hbs _]]]].
    rewrite launch_trace. cbn [filter is_scan]. rewrite count_app.
    destruct (process_primary_fetches (su_args s) (su_gps s) (su_primary s)
                (su_htmlv s)) as [_ Hp].
    rewrite Hp. cbn [List.length plus].
    destruct (outcome (process_primary W (su_args s) (su_gps s)
                         (su_primary s) (su_htmlv s))) as [ch|e];
      [|cbn [filter List.length]; lia].
    rewrite count_app.
    pose proof (process_blocks_scans (context W s (fst ch)) (su_blocks s)
                  (mkLoopState [] (snd ch) None)) as Hl.
    rewrite Hbs in Hl at 2.
    assert (Hf : forall st,
               filter is_scan (trace (finalize W (context W s (fst ch)) st))
               = []).
    { intro st. apply filter_none. unfold finalize.
      forall_trace; reflexivity. }
    destruct (outcome (process_blocks W (context W s (fst ch))
                         (mkLoopState [] (snd ch) None) (su_blocks s)))
      as [st|e]; [rewrite Hf|]; cbn [filter List.length]; lia.
Qed.

(** ** What ends a channel's step, and what ends the run *)

Section Failure.

Context {W : World}.

(** The ways a channel's step ends with an exception. *)
Lemma process_channel_raised :
  forall (ctx : Context W) (b : Block) (st : LoopState W) (c : OmegaChannel)
         (e : Exc),
    outcome (process_channel W ctx b st c) = Raised e ->
    (Py.in_ (name c) (ctx_completed ctx) = true /\
     Py.index (name c) (ctx_completed ctx) = None)
    \/ (exists i, Py.index (name c) (ctx_completed ctx) = Some i /\
                  getitem_row (ctx_record ctx) i = None)
    \/ (getitem_block (ctx_blocks ctx) (section c) = None /\
        e = KeyError (section c))
    \/ (Py.in_ (name c) (ctx_completed ctx) = false /\
        scan_outcome ctx b (data st) c = Raised e /\
        is_value_or_key_error e = false).
Proof.
  intros ctx b st c e. unfold process_channel, report_channel.
  destruct (Py.in_ (name c) (ctx_completed ctx)) eqn:Hin.
  - run_m.
    destruct (Py.index (name c) (ctx_completed ctx)) as [i|] eqn:Hidx;
      [|intros _; left; split; reflexivity].
    cbn [expect]. run_m.
    destruct (getitem_row (ctx_record ctx) i) as [row|] eqn:Hrow;
      [|intros _; right; left; exists i; split; [reflexivity|exact Hrow]].
    cbn [expect]. run_m. cbn [channel].
    destruct (getitem_block (ctx_blocks ctx) (section c)) as [blk|] eqn:Hb.
    + cbn [expect]. run_m. discriminate.
    + cbn [expect raise outcome snd]. intro He. injection He as <-.
      right; right; left. split; reflexivity.
  - rewrite <- scan_channel_outcome.
    destruct (scan_channel W ctx b st c) as [ts [[series|]|e']].
    + destruct (ctx_correlate ctx); cbn;
        destruct (getitem_block (ctx_blocks ctx) (section c)) eqn:Hb; cbn;
        try discriminate; intro He; injection He as <-;
        right; right; left; split; reflexivity.
    + cbn. discriminate.
    + cbn. destruct (is_value_or_key_error e') eqn:Hc; cbn;
        [discriminate|].
      intro He. injection He as <-.
      right; right; right. split; [reflexivity|]. split; [reflexivity|].
      exact Hc.
Qed.

(** A channel that is not completed keeps the block from being
    completed. *)
Lemma subset_member :
  forall (cs : list OmegaChannel) (completed : list string)
         (c : OmegaChannel),
    In c cs -> Py.in_ (name c) completed = false ->
    Py.subset (map name cs) completed = false.
Proof.
  intros cs completed c Hc Hin. unfold Py.subset.
  destruct (forallb (fun x => Py.in_ x completed) (map name cs)) eqn:Hall;
    [|reflexivity].
  rewrite forallb_forall in Hall.
  rewrite (Hall (name c) (in_map name cs c Hc)) in Hin. discriminate Hin.
Qed.

Lemma subset_all :
  forall (cs : list OmegaChannel) (completed : list string),
    (forall c, In c cs -> Py.in_ (name c) completed = true) ->
    Py.subset (map name cs) completed = true.
Proof.
  intros cs completed Hall. unfold Py.subset. apply forallb_forall.
  intros x Hx. apply in_map_iff in Hx. destruct Hx as [c [<- Hc]].
  now apply Hall.
Qed.

(** A channel's step leaves [data] as it is. *)
Lemma process_channel_data :
  forall (ctx : Context W) (b : Block) (st st' : LoopState W)
         (c : OmegaChannel),
    outcome (process_channel W ctx b st c) = Returned st' ->
    data st' = data st.
Proof.
  intros ctx b st st' c Ho. apply process_channel_returned in Ho.
  destruct (handled ctx b (data st) c) as [[a nm]|]; destruct Ho as [-> _];
    reflexivity.
Qed.

(** Every channel's step of a list starts with the [data] of the list's
    start. *)
Lemma process_channels_steps_data :
  forall (ctx : Context W) (b : Block) (cs : list OmegaChannel)
         (st st' : LoopState W) (c : OmegaChannel),
    outcome (process_channels W ctx b st cs) = Returned st' ->
    In c cs ->
    exists st_c pre post,
      trace (process_channels W ctx b st cs)
      = pre ++ trace (process_channel W ctx b st_c c) ++ post
      /\ data st_c = data st.
Proof.
  intros ctx b cs. induction cs as [|c0 cs IH]; intros st st' c Ho Hc.
  - destruct Hc.
  - cbn [process_channels] in Ho |- *.
    apply bind_returned in Ho. destruct Ho as [st1 [Ho1 [Ho2 Htr]]].
    rewrite Htr. destruct Hc as [<-|Hc].
    + exists st, [], (trace (process_channels W ctx b st1 cs)).
      split; reflexivity.
    + destruct (IH st1 st' c Ho2 Hc) as [st_c [pre [post [Heq Hd]]]].
      exists st_c, (trace (process_channel W ctx b st c0) ++ pre), post.
      split.
      * rewrite Heq. now rewrite <- app_assoc.
      * rewrite Hd. exact (process_channel_data ctx b st st1 c0 Ho1).
Qed.

(** The record and the list of completed channels the set-up returns
    have one row per name. *)
Lemma determine_checkpoints_rows :
  forall (args : Args) (outdir : string) (record : Table)
         (completed : list string),
    outcome (determine_checkpoints W args outdir)
    = Returned (record, completed) ->
    List.length completed = List.length (rows record).
Proof.
  intros args outdir record completed.
  rewrite determine_checkpoints_spec. cbv zeta.
  destruct (path_exists W outdir summary_path
            && negb (disable_checkpoint args))%bool.
  - destruct (column (table_read W outdir summary_path) "Channel")
      as [col|] eqn:Hcol; [|discriminate].
    destruct (negb (disable_correlation args)
              && negb (Py.in_ "Standard Deviation"
                         (colnames (table_read W outdir summary_path))))%bool;
      [discriminate|].
    cbn [outcome snd]. intro He. injection He as <- <-.
    unfold column in Hcol.
    destruct (Py.index "Channel"
                (colnames (table_read W outdir summary_path)));
      [|discriminate].
    injection Hcol as <-. apply length_map.
  - cbn [outcome snd]. intro He. injection He as <- <-. reflexivity.
Qed.

Lemma index_bound :
  forall (x : string) (l : list string) (i : nat),
    Py.index x l = Some i -> (i < List.length l)%nat.
Proof.
  intros x l. induction l as [|y l IH]; intros i; cbn [Py.index].
  - discriminate.
  - destruct (String.eqb y x).
    + intro He. injection He as <-. cbn. lia.
    + destruct (Py.index x l) as [j|]; [|discriminate].
      cbn [option_map]. intro He. injection He as <-.
      specialize (IH j eq_refl). cbn. lia.
Qed.

End Failure.

(** X7.  An exception of [omega.scan] that is neither [ValueError] nor
    [KeyError] is not caught: the channel's step ends with it after the
    scan, without a warning or a page, and the remaining channels of the
    block are not processed. *)
Theorem scan_error_aborts :
  forall (W : World) (ctx : Context W) (b : Block) (st : LoopState W)
         (c : OmegaChannel) (cs : list OmegaChannel) (e : Exc),
    Py.in_ (name c) (ctx_completed ctx) = false ->
    outcome (scan_channel W ctx b st c) = Raised e ->
    is_value_or_key_error e = false ->
    process_channel W ctx b st c
    = (ELog Info (" -- Scanning channel " ++ name c)
       :: trace (scan_channel W ctx b st c), Raised e)
    /\ process_channels W ctx b st (c :: cs) = process_channel W ctx b st c
    /\ Forall (fun ev => is_page ev = false /\ is_warning ev = false)
              (trace (process_channel W ctx b st c)).
Proof.
  intros W ctx b st c cs e Hin Hscan Hc.
  assert (Heq : process_channel W ctx b st c
                = (ELog Info (" -- Scanning channel " ++ name c)
                   :: trace (scan_channel W ctx b st c), Raised e)).
  { unfold process_channel. rewrite Hin.
    destruct (scan_channel W ctx b st c) as [ts [r|e']];
      unfold outcome in Hscan; cbn [snd] in Hscan; [discriminate|].
    injection Hscan as ->. cbn. rewrite Hc. reflexivity. }
  split; [exact Heq|]. split.
  - cbn [process_channels]. rewrite Heq. reflexivity.
  - rewrite Heq. cbn [trace fst].
    constructor; [split; reflexivity|].
    destruct (scan_channel_trace ctx b st c) as [-> | [ev [-> [Hs Hp]]]];
      constructor; [|constructor].
    split; [exact Hp|]. destruct ev; try discriminate Hs. reflexivity.
Qed.

(** X7 on an instance: in [world_boom] the scan of [X1:B] raises. *)
Lemma scan_error_aborts_witness :
  Py.in_ (name Demo.chan_b) (ctx_completed MoreDemo.ctx_boom) = false
  /\ outcome (scan_channel MoreDemo.world_boom MoreDemo.ctx_boom
                Demo.block_aux MoreDemo.st_boom Demo.chan_b)
     = Raised (OtherError "boom")
  /\ process_channels MoreDemo.world_boom MoreDemo.ctx_boom Demo.block_aux
       MoreDemo.st_boom [Demo.chan_b; Demo.chan_a]
     = ([ELog Info " -- Scanning channel X1:B";
         EScan (get_gps Demo.args0) Demo.chan_b 2 4096
               (far_threshold Demo.args0) (1 # 2) true],
        Raised (OtherError "boom")).
Proof.
  assert (H1 : Py.in_ (name Demo.chan_b) (ctx_completed MoreDemo.ctx_boom)
               = false) by reflexivity.
  assert (H2 : outcome (scan_channel MoreDemo.world_boom MoreDemo.ctx_boom
                          Demo.block_aux MoreDemo.st_boom Demo.chan_b)
               = Raised (OtherError "boom")) by reflexivity.
  split; [exact H1|]. split; [exact H2|].
  destruct (scan_error_aborts MoreDemo.world_boom MoreDemo.ctx_boom
              Demo.block_aux MoreDemo.st_boom Demo.chan_b [Demo.chan_a]
              (OtherError "boom") H1 H2 eq_refl) as [Heq [Hcs _]].
  rewrite Hcs, Heq. reflexivity.
Defined.



(** X9.  When every channel of every block is in the checkpoint, the
    loop reads no data and scans nothing, and it leaves [data] as it
    found it. *)
Theorem completed_blocks_restored :
  forall (W : World) (ctx : Context W) (st : LoopState W) (bs : list Block),
    all_completed bs (ctx_completed ctx) ->
    Forall restores_only (trace (process_blocks W ctx st bs))
    /\ forall st', outcome (process_blocks W ctx st bs) = Returned st' ->
                   data st' = data st.
Proof.
  intros W ctx st bs Hall.
  assert (Hsub : forall b, In b bs ->
                   Py.subset (map name (channels b)) (ctx_completed ctx)
                   = true).
  { intros b Hb. apply subset_all. intros c Hc. now apply (Hall b c). }
  destruct (loop_blocks ctx bs (fun st' => data st' = data st)
              (fun _ st' => data st' = data st) restores_only
              (fun _ => True)) with (l := bs) (st := st) as [HP Ho].
  - intros b st0 Hb _ Hd. unfold with_data, block_data. cbn [data].
    now rewrite (Hsub b Hb).
  - intros b st0 _ Hd. exact Hd.
  - intros b c st0 Hb _ Hc Hd. split.
    + unfold process_channel, report_channel. rewrite (Hall b c Hb Hc).
      forall_trace; split; reflexivity.
    + destruct (outcome (process_channel W ctx b st0 c)) as [st1|e] eqn:Ho;
        [|exact I].
      now rewrite (process_channel_data ctx b st0 st1 c Ho).
  - intros b _. unfold flag_events.
    destruct (flag_checked (ctx_args ctx) b); repeat constructor.
  - intros b _ _. split; reflexivity.
  - intros b Hb _ Hfalse. rewrite (Hsub b Hb) in Hfalse. discriminate Hfalse.
  - apply incl_refl.
  - reflexivity.
  - split; [exact HP|]. intros st' Hst. now rewrite Hst in Ho.
Qed.

(** X9 on an instance: the checkpoint of [world_done] lists all three
    channels; the run asks for the primary channel's data only. *)
Lemma completed_blocks_restored_witness :
  all_completed [Demo.block_aux; Demo.block_pem]
                (ctx_completed MoreDemo.ctx_done)
  /\ Forall restores_only
            (trace (process_blocks MoreDemo.world_done MoreDemo.ctx_done
                      MoreDemo.st_done [Demo.block_aux; Demo.block_pem]))
  /\ map (fun e => match e with
                   | EGetData chans _ _ _ _ _ _ => chans
                   | _ => Single ""
                   end)
         (filter is_fetch (trace (main MoreDemo.world_done Demo.args0)))
     = [Single "X1:GW"]
  /\ filter is_scan (trace (main MoreDemo.world_done Demo.args0)) = [].
Proof.
  assert (H : all_completed [Demo.block_aux; Demo.block_pem]
                            (ctx_completed MoreDemo.ctx_done)).
  { intros b c [<-|[<-|[]]] Hc; cbn in Hc;
      repeat destruct Hc as [<-|Hc]; try reflexivity; destruct Hc. }
  split; [exact H|]. split.
  - exact (proj1 (completed_blocks_restored MoreDemo.world_done
                    MoreDemo.ctx_done MoreDemo.st_done _ H)).
  - split; vm_compute; reflexivity.
Defined.

(** X10.  In a block that is not skipped, a channel outside the
    checkpoint is scanned with the data read for that very block: its
    step starts after the block's read, with [data] bound to what that
    read returned, never to the data of an earlier block. *)
Theorem scans_read_own_block :
  forall (W : World) (ctx : Context W) (st st' : LoopState W) (b : Block)
         (c : OmegaChannel),
    skipped W (ctx_args ctx) (ctx_gps ctx) b = false ->
    outcome (process_block W ctx st b) = Returned st' ->
    In c (channels b) ->
    Py.in_ (name c) (ctx_completed ctx) = false ->
    exists st_c pre post,
      trace (process_block W ctx st b)
      = pre ++ trace (process_channel W ctx b st_c c) ++ post
      /\ In (block_read ctx b) pre
      /\ data st_c = Some (block_dict ctx b)
      /\ outcome (scan_channel W ctx b st_c c)
         = scan_outcome ctx b (Some (block_dict ctx b)) c.
Proof.
  intros W ctx st st' b c Hsk Ho Hc Hin.
  pose proof (subset_member (channels b) (ctx_completed ctx) c Hc Hin)
    as Hsub.
  pose proof (process_block_processed ctx st b Hsk) as Heq.
  cbv zeta in Heq. rewrite Heq in Ho |- *. cbn [outcome trace fst snd] in *.
  rewrite Hsub. cbn [negb].
  destruct (process_channels_steps_data ctx b (channels b) _ st' c Ho Hc)
    as [st_c [pre [post [Htr Hd]]]].
  cbn [data] in Hd. unfold block_data in Hd. rewrite Hsub in Hd.
  cbn [negb] in Hd.
  exists st_c, (flag_events ctx b ++ [block_read ctx b] ++ pre), post.
  split; [|split; [|split]].
  - rewrite Htr. now rewrite <- !app_assoc.
  - apply in_or_app. right. now left.
  - exact Hd.
  - rewrite scan_channel_outcome, Hd. reflexivity.
Qed.

(** X10 on an instance: the first block of [world_boom], from a start
    without data; [X1:A] is scanned with the data of the block. *)
Lemma scans_read_own_block_witness :
  exists st_c pre post,
    trace (process_block MoreDemo.world_boom MoreDemo.ctx_boom
             MoreDemo.st_fresh MoreDemo.block_a)
    = pre ++ trace (process_channel MoreDemo.world_boom MoreDemo.ctx_boom
                      MoreDemo.block_a st_c Demo.chan_a) ++ post
    /\ data st_c = Some [("X1:A", "X1:A")].
Proof.
  destruct (outcome (process_block MoreDemo.world_boom MoreDemo.ctx_boom
                       MoreDemo.st_fresh MoreDemo.block_a))
    as [st'|e] eqn:Ho; [|vm_compute in Ho; discriminate Ho].
  destruct (scans_read_own_block MoreDemo.world_boom MoreDemo.ctx_boom
              MoreDemo.st_fresh st' MoreDemo.block_a Demo.chan_a
              eq_refl Ho (or_introl eq_refl) eq_refl)
    as [st_c [pre [post [Htr [_ [Hd _]]]]]].
  exists st_c, pre, post. split; [exact Htr|exact Hd].
Defined.

(** ** The exceptions of a run *)

Section Exceptions.

Context {W : World}.

(** [primary] is bound whenever cross-correlation is left enabled. *)
Lemma primary_bound :
  forall (args : Args) (cp : Config),
    disable_correlation (fst (primary_result args cp)) = false ->
    snd (primary_result args cp) <> None.
Proof.
  intros args cp. unfold primary_result.
  destruct (disable_correlation args) eqn:Hd; cbn [negb fst snd].
  - rewrite Hd. discriminate.
  - destruct (primary_section cp); cbn [fst snd]; discriminate.
Qed.

Lemma set_up_raised :
  forall (args : Args) (e : Exc),
    outcome (set_up W args) = Raised e ->
    e = KeyError "Channel" \/ e = KeyError no_correlation_msg.
Proof.
  intros args e. rewrite set_up_outcome. cbv zeta.
  rewrite determine_checkpoints_spec. cbv zeta.
  destruct (path_exists W (get_outdir W args) summary_path
            && negb (disable_checkpoint
                       (fst (primary_result args (config_of W args)))))%bool;
    [|discriminate].
  destruct (column (table_read W (get_outdir W args) summary_path) "Channel").
  - destruct (negb (disable_correlation
                      (fst (primary_result args (config_of W args))))
              && negb (Py.in_ "Standard Deviation"
                         (colnames (table_read W (get_outdir W args)
                                               summary_path))))%bool;
      cbn [outcome snd]; [|discriminate].
    intro He. injection He as <-. now right.
  - cbn [outcome snd]. intro He. injection He as <-. now left.
Qed.

(** The exception that ends a channel's step, when [data] is bound for
    the channels outside a checkpoint that has a row for each of its
    names. *)
Lemma process_channel_exception :
  forall (ctx : Context W) (b : Block) (st : LoopState W) (c : OmegaChannel)
         (e : Exc),
    List.length (ctx_completed ctx) = List.length (rows (ctx_record ctx)) ->
    (Py.in_ (name c) (ctx_completed ctx) = false -> data st <> None) ->
    outcome (process_channel W ctx b st c) = Raised e ->
    (getitem_block (ctx_blocks ctx) (section c) = None /\
     e = KeyError (section c))
    \/ (exists series,
           omega_scan W (ctx_gps ctx) c series (fftlength b) (resample b)
                      (far_threshold (ctx_args ctx)) (search b)
                      (String.eqb (frequency_scaling (ctx_args ctx)) "log")
           = Raised e /\
           is_value_or_key_error e = false).
Proof.
  intros ctx b st c e Hrows Hdata Ho.
  destruct (process_channel_raised ctx b st c e Ho)
    as [[Hin Hidx] | [[i [Hidx Hrow]] | [Hblk | [Hin [Hscan Hc]]]]].
  - destruct (in_index _ _ Hin) as [i [Hi _]]. congruence.
  - exfalso. apply index_bound in Hidx. rewrite Hrows in Hidx.
    unfold getitem_row in Hrow.
    destruct (nth_error (rows (ctx_record ctx)) i) eqn:Hn;
      [discriminate Hrow|].
    apply nth_error_None in Hn. lia.
  - left. exact Hblk.
  - right. unfold scan_outcome in Hscan.
    destruct (data st) as [d|]; [|now destruct (Hdata Hin)].
    destruct (find (fun kv => String.eqb (fst kv) (name c)) d) as [kv|].
    + exists (astype_float64 W (snd kv)). split; assumption.
    + injection Hscan as <-. discriminate Hc.
Qed.

(** The loop over the blocks of a run ends with such an exception, if
    with any. *)
Lemma loop_exception :
  forall (args : Args) (s : Setup W) (correlate : option (Series W))
         (st0 : LoopState W) (e : Exc),
    outcome (set_up W args) = Returned s ->
    outcome (process_blocks W (context W s correlate) st0 (su_blocks s))
    = Raised e ->
    run_exception W args e.
Proof.
  intros args s correlate st0 e Hs Hloop.
  pose proof (set_up_returned args s Hs)
    as [Ha [_ [Hg [Hbs [_ [_ Hck]]]]]].
  destruct (primary_result_options args (config_of W args))
    as [_ [_ [_ [Hfar [Hscale _]]]]].
  rewrite <- Ha in Hfar, Hscale.
  destruct (loop_blocks (context W s correlate) (su_blocks s)
              (fun _ => True)
              (fun b st =>
                 Py.subset (map name (channels b)) (su_completed s) = false
                 -> data st <> None)
              (fun _ => True)
              (fun e => run_exception W args e)) with
    (l := su_blocks s) (st := st0) as [_ Ho].
  - intros b st _ _ _ Hsub. unfold with_data, block_data.
    cbn [data context ctx_completed]. rewrite Hsub. discriminate.
  - intros; exact I.
  - intros b c st Hb _ Hc HJ. split.
    + apply Forall_forall. intros; exact I.
    + destruct (outcome (process_channel W (context W s correlate) b st c))
        as [st1|e1] eqn:Ho.
      * rewrite (process_channel_data _ b st st1 c Ho). exact HJ.
      * apply process_channel_exception in Ho.
        -- unfold run_exception. cbv zeta.
           cbn [context ctx_blocks ctx_gps ctx_args] in Ho.
           rewrite Hbs, Hg, Hfar, Hscale in Ho. rewrite Hbs in Hb.
           destruct Ho as [[Hblk ->] | [series [Hscan Hcaught]]].
           ++ right; right; left. exists b, c. auto.
           ++ right; right; right. exists b, c, series. auto.
        -- cbn [context ctx_completed ctx_record].
           exact (determine_checkpoints_rows _ _ _ _ Hck).
        -- cbn [context ctx_completed]. intro Hin. apply HJ.
           exact (subset_member _ _ c Hc Hin).
  - intros b _. apply Forall_forall. intros; exact I.
  - intros; exact I.
  - intros; exact I.
  - apply incl_refl.
  - exact I.
  - rewrite Hloop in Ho. exact Ho.
Qed.

End Exceptions.

(** X11.  The collaborators other than [omega.scan] taken to return, a
    run can end with an exception in four ways only: the checkpoint has
    no ['Channel'] column; it has no ['Standard Deviation'] column while
    cross-correlation is enabled; a channel names a section that is no
    block of the configuration; or [omega.scan] raises, for a channel of
    a block, an exception that is neither [ValueError] nor [KeyError].
    In particular [data] and [primary] are never read unbound, the index
    of a completed channel is always found and has a row in the record,
    and the last page is always written. *)
Theorem run_exceptions :
  forall (W : World) (args : Args) (e : Exc),
    outcome (main W args) = Raised e -> run_exception W args e.
Proof.
  intros W args e Hraised.
  rewrite main_outcome in Hraised.
  destruct (outcome (set_up W args)) as [s|e0] eqn:Hs.
  2:{ injection Hraised as <-. unfold run_exception. cbv zeta.
      destruct (set_up_raised args e0 Hs) as [He|He]; auto. }
  pose proof (set_up_returned args s Hs) as [Ha [_ [_ [_ [Hp _]]]]].
  rewrite launch_outcome, process_primary_spec in Hraised.
  assert (Hprim : disable_correlation (su_args s) = false ->
                  su_primary s <> None).
  { rewrite Ha, Hp. apply primary_bound. }
  destruct (disable_correlation (su_args s)) eqn:Hd; cbn [negb] in Hraised.
  - cbn [outcome snd fst] in Hraised.
    destruct (outcome (process_blocks W (context W s None)
                         (mkLoopState [] (su_htmlv s) None) (su_blocks s)))
      as [st|e1] eqn:Hloop.
    + rewrite (finalize_returns s args None st Hs) in Hraised.
      discriminate Hraised.
    + injection Hraised as <-.
      exact (loop_exception args s _ _ e1 Hs Hloop).
  - destruct (su_primary s) as [p|]; [|now destruct (Hprim eq_refl)].
    cbn [outcome snd fst] in Hraised.
    destruct (outcome (process_blocks W
                         (context W s
                            (Some (matched_filter W (su_args s) (su_gps s) p)))
                         (mkLoopState []
                            (set_correlated (su_htmlv s)
                                            (name (primary_channel p))) None)
                         (su_blocks s)))
      as [st|e1] eqn:Hloop.
    + rewrite (finalize_returns s args _ st Hs) in Hraised.
      discriminate Hraised.
    + injection Hraised as <-.
      exact (loop_exception args s _ _ e1 Hs Hloop).
Qed.

(** X11 on an instance: the run of [world_boom] ends with the exception
    of the scan of [X1:B]. *)
Lemma run_exceptions_witness :
  outcome (main MoreDemo.world_boom Demo.args0) = Raised (OtherError "boom")
  /\ run_exception MoreDemo.world_boom Demo.args0 (OtherError "boom").
Proof.
  assert (H : outcome (main MoreDemo.world_boom Demo.args0)
              = Raised (OtherError "boom")) by (vm_compute; reflexivity).
  split; [exact H|].
  exact (run_exceptions MoreDemo.world_boom Demo.args0 _ H).
Defined.

(** ** The output directory and the configuration files *)

Section Paths.

Context {W : World}.

Lemma make_subdirectories_inside :
  forall (outdir : string) (ds0 ds : list string),
    incl ds ds0 ->
    Forall (fun e => exists d, e = EMakedirs outdir d /\
                               isdir W outdir d = false /\ In d ds0)
           (trace (make_subdirectories W outdir ds)).
Proof.
  intros outdir ds0 ds. induction ds as [|d ds IH]; intro Hincl;
    cbn [make_subdirectories].
  - constructor.
  - apply Forall_trace_bind.
    + destruct (isdir W outdir d) eqn:Hd; cbn [negb].
      * constructor.
      * constructor; [|constructor].
        exists d. split; [reflexivity|]. split; [exact Hd|].
        apply Hincl. now left.
    + intros _ _. apply IH. intros x Hx. apply Hincl. now right.
Qed.

Lemma forallb_true :
  forall (A : Type) (l : list A), forallb (fun _ => true) l = true.
Proof. intros A l. induction l as [|x l IH]; [reflexivity|exact IH]. Qed.

Lemma loop_inside_outdir :
  forall (P : Event W -> Prop) (ctx : Context W) (bs : list Block)
         (st : LoopState W),
    (forall e, loop_event (ctx_correlate ctx) e -> P e) ->
    (forall i g t h, P (EWriteQscanPage i g t h)) ->
    Forall P (trace (process_blocks W ctx st bs)).
Proof.
  intros P ctx bs st Hloop Hpage.
  eapply Forall_impl;
    [|apply (proj1 (process_blocks_ok ctx (fun _ => true) (fun _ => True) P
                      (fun _ _ _ => I) Hloop (fun _ _ _ => eq_refl)
                      (fun _ _ _ _ => eq_refl) bs st
                      (conj (forallb_true _ _) I)))].
  intros [] He; try exact He. apply Hpage.
Qed.

End Paths.

(** X12.  A run makes no directory that exists, and none but the output
    directory and its subdirectories [plots], [about] and [data]; it
    enters the output directory only; and the only record it reads is
    [data/summary.csv] of the output directory, read only when that file
    exists and [--disable-checkpoint] is not given. *)
Theorem run_stays_inside_outdir :
  forall (W : World) (args : Args),
    Forall (inside_outdir W args (get_outdir W args)) (trace (main W args)).
Proof.
  intros W args. apply Forall_main_parts.
  - rewrite set_up_trace. cbv zeta.
    constructor; [exact I|]. constructor; [exact I|].
    apply Forall_app. split.
    { unfold parse_primary.
      destruct (negb (disable_correlation args)); [|constructor].
      destruct (primary_section (config_of W args)); repeat constructor. }
    apply Forall_app. split.
    { destruct (isdir W "" (get_outdir W args)) eqn:Hd; cbn [negb];
        constructor; [|constructor].
      split; [exact Hd|]. left. split; reflexivity. }
    constructor; [reflexivity|].
    apply Forall_app. split.
    { eapply Forall_impl;
        [|apply (make_subdirectories_inside (get_outdir W args)
                   ["plots"; "about"; "data"] _ (incl_refl _))].
      intros e [d [-> [Hd Hin]]].
      split; [exact Hd|]. right. split; [reflexivity|exact Hin]. }
    rewrite determine_checkpoints_spec. cbv zeta.
    destruct (primary_result_options args (config_of W args))
      as [_ [-> _]].
    destruct (path_exists W (get_outdir W args) summary_path) eqn:Hex;
      [|constructor].
    destruct (disable_checkpoint args) eqn:Hck; [constructor|].
    cbn [andb negb].
    assert (Hread : inside_outdir W args (get_outdir W args)
                      (ETableRead (get_outdir W args) summary_path)).
    { repeat split; assumption. }
    destruct (column (table_read W (get_outdir W args) summary_path)
                     "Channel");
      [destruct (negb _ && _)%bool|]; cbn [trace fst];
      constructor; try exact Hread; constructor.
  - intros s _. apply Forall_launch; try exact I.
    + rewrite process_primary_spec.
      destruct (negb (disable_correlation (su_args s))); [|constructor].
      destruct (su_primary s); repeat constructor.
    + intros correlate h _. split.
      * apply loop_inside_outdir; [|intros; exact I].
        intros [] He; try exact I; destruct He.
      * intros st _. unfold finalize. forall_trace; exact I.
Qed.

(** X13.  The configuration read is that of the files of
    [--config-file] when some are given, of the standard files of the
    label [Network] when the option is not given (an empty list counts
    as not given), each made absolute; likewise the output directory is
    the one of [--output-directory], made absolute, and
    [~/public_html/wdq/Network_{gps}] when the option is not given or
    empty.  Every page of the run carries the run's title and these
    files. *)
Theorem configuration_files_used :
  forall (W : World) (args : Args),
    let files := get_config_files W args in
    let standard :=
      map (abspath W)
          (get_default_configuration W (Some "Network") (get_gps args)) in
    Forall (uses_config (Some "Network")
              ("Network Qscan | " ++ float_str W (get_gps args)) files)
           (trace (main W args))
    /\ In (EReadConfig (Some "Network") files) (trace (main W args))
    /\ (forall f fs, config_file args = Some (f :: fs) ->
                     files = map (abspath W) (f :: fs))
    /\ (config_file args = None \/ config_file args = Some [] ->
        files = standard)
    /\ (forall d, output_directory args = Some d -> d <> "" ->
                  get_outdir W args = abspath W d)
    /\ (output_directory args = None \/ output_directory args = Some "" ->
        get_outdir W args
        = abspath W (expanduser W ("~/public_html/wdq/Network_"
                                   ++ float_str W (get_gps args)))).
Proof.
  intros W args files standard. subst files standard.
  split; [|split; [|split; [|split; [|split]]]].
  - apply Forall_main_parts.
    + rewrite set_up_trace. cbv zeta.
      constructor; [exact I|]. constructor; [split; reflexivity|].
      apply Forall_app. split.
      { unfold parse_primary.
        destruct (negb (disable_correlation args)); [|constructor].
        destruct (primary_section (config_of W args)); repeat constructor. }
      apply Forall_app. split.
      { destruct (negb (isdir W "" (get_outdir W args)));
          repeat constructor. }
      constructor; [exact I|].
      apply Forall_app. split.
      { eapply Forall_impl;
          [|apply (make_subdirectories_inside (get_outdir W args)
                     ["plots"; "about"; "data"] _ (incl_refl _))].
        intros e [d [-> _]]. exact I. }
      rewrite determine_checkpoints_spec. cbv zeta.
      destruct (_ && _)%bool; [|constructor].
      destruct (column _ _); [destruct (_ && _)%bool|];
        repeat constructor.
    + intros s Hs.
      pose proof (set_up_returned args s Hs) as [_ [Hifo [_ [_ [_ [Hh _]]]]]].
      apply Forall_launch; try exact I.
      * rewrite Hh, Hifo. repeat split.
      * rewrite process_primary_spec.
        destruct (negb (disable_correlation (su_args s))); [|constructor].
        destruct (su_primary s); repeat constructor.
      * intros correlate h Hprim.
        assert (Hhead : title h
                        = ("Network Qscan | "
                           ++ float_str W (get_gps args))%string
                        /\ config h = get_config_files W args).
        { rewrite process_primary_spec in Hprim.
          destruct (negb (disable_correlation (su_args s)));
            [destruct (su_primary s)|]; cbn [outcome snd] in Hprim;
            try discriminate Hprim; injection Hprim as _ <-;
            rewrite Hh; split; reflexivity. }
        destruct (process_blocks_ok (context W s correlate) (fun _ => true)
                    (fun h => title h
                              = ("Network Qscan | "
                                 ++ float_str W (get_gps args))%string
                              /\ config h = get_config_files W args)
                    (uses_config (Some "Network")
                       ("Network Qscan | " ++ float_str W (get_gps args))
                       (get_config_files W args))) with
          (bs := su_blocks s) (st := mkLoopState (W := W) [] h None)
          as [HP Ho].
        -- intros h0 t Hc. exact Hc.
        -- intros [] He; try exact I; destruct He.
        -- reflexivity.
        -- reflexivity.
        -- split; [reflexivity|exact Hhead].
        -- split.
           ++ eapply Forall_impl; [|exact HP].
              intros [] He; try exact He. exact (proj2 He).
           ++ intros st Hst. rewrite Hst in Ho. destruct Ho as [_ [Ht Hc]].
              rewrite finalize_spec. cbn [context ctx_ifo]. rewrite Hifo.
              destruct (Py.list_truthy (analyzed st)); repeat constructor;
                assumption.
  - rewrite main_trace, set_up_trace. cbv zeta. right. now left.
  - intros f fs Hcf. unfold get_config_files. now rewrite Hcf.
  - intros [Hcf|Hcf]; unfold get_config_files; now rewrite Hcf.
  - intros d Hd Hne. unfold get_outdir. rewrite Hd.
    unfold Py.str_truthy. apply String.eqb_neq in Hne. now rewrite Hne.
  - intros [Hd|Hd]; unfold get_outdir; now rewrite Hd.
Qed.


End MoreOmegaFacts.

(* ===================================================================== *)
(** * Further properties of the scattering helpers *)
(* ===================================================================== *)

Module MoreScatteringFacts.

Import Scattering.
Import ScatteringTables.
Import MoreSpec.
Import ScatteringFacts.

Local Open Scope Q_scope.

(** ** Harmonics of the fringe frequency *)

Lemma fringe_sample_scales :
  forall (m k v r : Q),
    ~ k == 0 ->
    Qabs (m * 2 / 1.064 * v * r)
    == Qabs (m / k) * Qabs (k * 2 / 1.064 * v * r).
Proof.
  intros m k v r Hk. rewrite <- Qabs_Qmult. apply Qabs_wd. field. exact Hk.
Qed.

(** Whether the call returns does not depend on the multiplier. *)
Lemma fringe_frequency_returns :
  forall (savgol : list Q -> nat -> nat -> nat -> list Q)
         (series : TimeSeries) (m : option Q),
    (exists e, forall m', get_fringe_frequency savgol series m' = Raises e)
    \/ (Nat.ltb (List.length (value series)) 5 = false
        /\ exists fringef, get_fringe_frequency savgol series m
                           = Returns fringef).
Proof.
  intros savgol series m. unfold get_fringe_frequency, savgol_filter.
  destruct (Nat.ltb (List.length (value series)) 5).
  - left. eexists. intro m'. reflexivity.
  - right. split; [reflexivity|]. eexists. reflexivity.
Qed.

(** X14.  Whether [get_fringe_frequency] returns does not depend on the
    multiplier: a call that raises with one raises the same exception
    with every other.  When the default call returns, the fringe
    frequency is proportional to the multiplier: with multiplier [m]
    every sample is [|m / 2|] times the sample of the default call, so
    the harmonics [FREQUENCY_MULTIPLIERS] give half, once, one and a half
    times and twice the default, and the sign of the multiplier does not
    matter.  Epoch, sample step and name are those of the input, whatever
    the multiplier. *)
Theorem fringe_frequency_harmonics :
  forall (savgol_filter : list Q -> nat -> nat -> nat -> list Q)
         (series : TimeSeries) (m : Q),
    (forall e, get_fringe_frequency savgol_filter series None = Raises e ->
               forall m', get_fringe_frequency savgol_filter series m'
                          = Raises e)
    /\ (forall base,
           get_fringe_frequency savgol_filter series None = Returns base ->
           exists fringef,
             get_fringe_frequency savgol_filter series (Some m)
             = Returns fringef
             /\ Forall2 Qeq (value fringef)
                  (map (fun v => Qabs (m / 2) * v) (value base))
             /\ (exists negated,
                    get_fringe_frequency savgol_filter series (Some (- m))
                    = Returns negated
                    /\ Forall2 Qeq (value negated) (value fringef))
             /\ (forall n, In n FREQUENCY_MULTIPLIERS ->
                           exists harmonic,
                             get_fringe_frequency savgol_filter series
                                                  (Some (inject_Z n))
                             = Returns harmonic
                             /\ Forall2 Qeq (value harmonic)
                                  (map (fun v => (inject_Z n / 2) * v)
                                       (value base)))
             /\ t0 fringef = t0 series /\ dt fringef = dt series
             /\ name fringef = name series
             /\ List.length (value fringef)
                = List.length (savgol_filter (value series)
                                             5%nat 2%nat 1%nat)).
Proof.
  intros savgol series m. split.
  - intros e He m'.
    destruct (fringe_frequency_returns savgol series None)
      as [[e' Hall]|[_ [f Hf]]].
    + rewrite Hall in He. injection He as <-. apply Hall.
    + rewrite Hf in He. discriminate He.
  - intros base Hbase.
    assert (Hlen : Nat.ltb (List.length (value series)) 5 = false).
    { destruct (fringe_frequency_returns savgol series None)
        as [[e' Hall]|[Hlen _]]; [|exact Hlen].
      rewrite Hall in Hbase. discriminate Hbase. }
    assert (Hcall : forall k,
               get_fringe_frequency savgol series k
               = Returns
                   (override_unit
                      (abs_ (mul_scalar
                               (scalar_mul
                                  (match k with
                                   | Some k' => k'
                                   | None => default_multiplier
                                   end * 2 / 1.064)
                                  (array_finalize
                                     (of_array (savgol (value series) 5%nat 2%nat 1%nat))
                                     series))
                               (sample_rate
                                  (array_finalize
                                     (of_array (savgol (value series) 5%nat 2%nat 1%nat))
                                     series))))
                      "Hz")).
    { intro k. unfold get_fringe_frequency, savgol_filter.
      rewrite Hlen. reflexivity. }
    rewrite Hcall in Hbase. injection Hbase as <-.
    assert (Hscale : forall k : Q,
               exists h,
                 get_fringe_frequency savgol series (Some k) = Returns h
                 /\ Forall2 Qeq (value h)
                      (map (fun v => Qabs (k / 2) * v)
                           (value
                              (override_unit
                                 (abs_ (mul_scalar
                                          (scalar_mul
                                             (default_multiplier * 2 / 1.064)
                                             (array_finalize
                                                (of_array
                                                   (savgol (value series)
                                                           5%nat 2%nat 1%nat))
                                                series))
                                          (sample_rate
                                             (array_finalize
                                                (of_array
                                                   (savgol (value series)
                                                           5%nat 2%nat 1%nat))
                                                series))))
                                 "Hz")))).
    { intro k. eexists. split; [apply Hcall|].
      unfold override_unit, abs_, mul_scalar, scalar_mul,
        array_finalize, of_array, sample_rate, default_multiplier.
      cbn [value unit_ dt t0 name]. rewrite !map_map.
      apply Forall2_map_pointwise. intro v.
      apply fringe_sample_scales. discriminate. }
    eexists. split; [apply Hcall|]. split; [|split; [|split]].
    + destruct (Hscale m) as [h [Hh Hv]].
      rewrite Hcall in Hh. injection Hh as <-. exact Hv.
    + eexists. split; [apply Hcall|].
      unfold override_unit, abs_, mul_scalar, scalar_mul,
        array_finalize, of_array, sample_rate.
      cbn [value unit_ dt t0 name]. rewrite !map_map.
      apply Forall2_map_pointwise. intro v.
      rewrite <- (Qabs_opp (m * 2 / 1.064 * v * (1 / dt series))).
      apply Qabs_wd. unfold Qdiv. ring.
    + intros n Hn.
      assert (Hpos : Qabs (inject_Z n / 2) = inject_Z n / 2).
      { cbn in Hn. repeat destruct Hn as [<-|Hn]; try reflexivity.
        destruct Hn. }
      rewrite <- Hpos. apply Hscale.
    + unfold override_unit, abs_, mul_scalar, scalar_mul,
        array_finalize, of_array.
      cbn [value unit_ dt t0 name]. repeat split.
      now rewrite !length_map.
Qed.

(** ** The tables *)

(** X15.  In [OPTIC_MOTION_CHANNELS] every optic has at least one
    channel, each of its channels is a [SUS] channel of that optic
    recorded as [_DQ], no optic and no channel is listed twice, and the
    transmon channels are not among them. *)
Theorem optic_motion_channels_well_formed :
  Forall (fun oc =>
            snd oc <> [] /\
            Forall (fun c =>
                      String.prefix ("SUS-" ++ fst oc ++ "_") c = true /\
                      endswith c "_DQ" = true)
                   (snd oc))
         OPTIC_MOTION_CHANNELS
  /\ NoDup (map fst OPTIC_MOTION_CHANNELS)
  /\ NoDup (flat_map snd OPTIC_MOTION_CHANNELS)
  /\ Forall (fun c => ~ In c (flat_map snd OPTIC_MOTION_CHANNELS))
            TRANSMON_CHANNELS.
Proof.
  split; [|split; [|split]].
  - unfold OPTIC_MOTION_CHANNELS.
    repeat (constructor; [split; [discriminate|]|]);
      repeat (constructor; [split; vm_compute; reflexivity|]);
      constructor.
  - assert (H : nodup string_dec (map fst OPTIC_MOTION_CHANNELS)
                = map fst OPTIC_MOTION_CHANNELS) by (vm_compute; reflexivity).
    rewrite <- H. apply NoDup_nodup.
  - assert (H : nodup string_dec (flat_map snd OPTIC_MOTION_CHANNELS)
                = flat_map snd OPTIC_MOTION_CHANNELS)
      by (vm_compute; reflexivity).
    rewrite <- H. apply NoDup_nodup.
  - assert (H : forall c,
               existsb (String.eqb c) (flat_map snd OPTIC_MOTION_CHANNELS)
               = false ->
               ~ In c (flat_map snd OPTIC_MOTION_CHANNELS)).
    { intros c Hc Hin.
      assert (Hex : existsb (String.eqb c)
                      (flat_map snd OPTIC_MOTION_CHANNELS) = true).
      { apply existsb_exists. exists c. split; [exact Hin|].
        apply String.eqb_refl. }
      rewrite Hex in Hc. discriminate Hc. }
    repeat (constructor; [apply H; vm_compute; reflexivity|]).
    constructor.
Qed.

(** ** Thresholds that are never exceeded *)







End MoreScatteringFacts.
